(** * g2scanner: a shallow embedding of the gray-code strip scanner

    The development follows the three programs of the repository:

    - [Scanner]   : [g2scanner.py], the [PiRGBAnalysis] subclass whose
                    [analyse] calibrates and decodes every frame;
    - [Threaded]  : [legacy/g2scanner_threaded.py], the pool of
                    [ImageProcessor] threads fed by the [streams] generator;
    - [Threaded2] : [legacy/g2scanner_threaded2.py], the variant that
                    calibrates inside every worker cycle.

    All three are Python 2 programs (they use the [print] statement), so
    [round] rounds halves away from zero and [/] on integer ndarrays is
    numpy's floor division.

    Floating point comes in two readings.  The analyser of g2scanner.py and
    the cycle of g2scanner_threaded2.py are embedded with exact rationals
    ([Q]), which is what their general theorems are about.  The bin
    boundaries of the three programs and the decode loop of
    g2scanner_threaded.py are also embedded in IEEE doubles ([F64], on the
    primitive floats), the arithmetic Python and numpy really perform; the
    two readings of a layout differ on a few marker pairs, and the theorems
    say which one they are about. *)

From Stdlib Require Import ZArith List Bool Arith Lia QArith Qround Qabs
  Permutation.
From Stdlib Require Import PrimFloat Uint63.
Import ListNotations.

Local Open Scope Z_scope.

(** ** Python and numpy primitives used by the programs *)

Module Py.

Inductive exn : Set :=
| IndexError
| AttributeError
| ValueError
| ZeroDivisionError
| SystemExit.

(** A computation either raises or returns. *)
Definition result (A : Type) : Type := (exn + A)%type.

Definition ret {A : Type} (a : A) : result A := inr a.

Definition raise {A : Type} (e : exn) : result A := inl e.

Definition bind {A B : Type} (m : result A) (k : A -> result B) : result B :=
  match m with
  | inl e => inl e
  | inr a => k a
  end.

(** One pixel of a [format='bgr'] capture: three unsigned 8-bit channels. *)
Record pixel : Set := BGR { chB : Z; chG : Z; chR : Z }.

(** [stream.array]: rows, then columns, then channels. *)
Definition frame : Set := list (list pixel).

(** [arr[:,c]]: the pixel of column [c] in every row; an [IndexError] when
    the column does not exist. *)
Fixpoint column (arr : frame) (c : nat) : result (list pixel) :=
  match arr with
  | [] => ret []
  | row :: rows =>
      match nth_error row c with
      | None => raise IndexError
      | Some p => bind (column rows c) (fun ps => ret (p :: ps))
      end
  end.

(** [np.sum(px, axis)] over the channel axis: the accumulator is a
    platform-sized unsigned integer, so the three bytes add without wrap. *)
Definition channel_sum (p : pixel) : Z := chB p + chG p + chR p.

(** [l[lo:hi]] for indices that are not negative (row numbers). *)
Definition slice {A : Type} (l : list A) (lo hi : Z) : list A :=
  skipn (Z.to_nat lo) (firstn (Z.to_nat hi) l).

Definition sum (l : list Z) : Z := fold_right Z.add 0 l.

(** [np.linspace(start, stop, num)]: [num] evenly spaced samples, both end
    points included. *)
Definition linspace (start stop : Q) (num : nat) : list Q :=
  let step := ((stop - start) / inject_Z (Z.of_nat (num - 1)))%Q in
  map (fun i => (start + inject_Z (Z.of_nat i) * step)%Q) (seq 0 num).

(** Python 2 [round]: to the nearest integer, halves away from zero. *)
Definition round (x : Q) : Z :=
  if Qle_bool 0 x then Qfloor (x + (1 # 2)) else - Qfloor (- x + (1 # 2)).

(** [x < y] on floats. *)
Definition Qltb (x y : Q) : bool := negb (Qle_bool y x).

(** [for i in range(start, start + n): if dark(i): return i]. *)
Fixpoint first_up (dark : nat -> bool) (i n : nat) : option nat :=
  match n with
  | O => None
  | S n' => if dark i then Some i else first_up dark (S i) n'
  end.

(** [for i in range(n - 1, -1, -1): if dark(i): return i]. *)
Fixpoint first_down (dark : nat -> bool) (n : nat) : option nat :=
  match n with
  | O => None
  | S i => if dark i then Some i else first_down dark i
  end.

(** [list.pop()]: removes and returns the last item. *)
Definition pop {A : Type} (l : list A) : option (A * list A) :=
  match rev l with
  | [] => None
  | x :: r => Some (x, rev r)
  end.

(** [l[i] = x] for an index in range. *)
Fixpoint set_nth {A : Type} (l : list A) (i : nat) (x : A) : list A :=
  match l, i with
  | [], _ => []
  | _ :: t, O => x :: t
  | h :: t, S j => h :: set_nth t j x
  end.

End Py.

Notation "x <- m ;; k" := (Py.bind m (fun x => k))
  (at level 61, m at next level, right associativity).

(** ** IEEE doubles

    A Python float and a numpy float64 are IEEE binary64 numbers, and the
    primitive floats compute with exactly those.  Row numbers and lengths
    are Python ints, machine integers of 63 bits here. *)

Module F64.
Import Py.

(** A row number as a Python int. *)
Definition int_of_nat (n : nat) : int := Uint63.of_Z (Z.of_nat n).

(** [len(l)] items, as a count. *)
Definition nat_of_int (n : int) : nat := Z.to_nat (Uint63.to_Z n).

(** [float(n)]. *)
Definition of_nat (n : nat) : float := PrimFloat.of_uint63 (int_of_nat n).

(** A positive double [x] is [n / 2^k], where [(m, e) = frshiftexp x],
    [n = normfr_mantissa m] is its mantissa of 53 bits and [k = 2154 - e]:
    the exponent comes shifted by 2101 and the mantissa holds 53 bits. *)
Definition fraction_bits (e : int) : int := (2154 - e)%uint63.

(** [int(round(x))] for a double [0 <= x < 2**53]: Python 2 rounds to the
    nearest integer, halves away from zero.  Half a unit is added to the
    mantissa and the fraction bits are dropped. *)
Definition round (x : float) : int :=
  let (m, e) := PrimFloat.frshiftexp x in
  let n := PrimFloat.normfr_mantissa m in
  let k := fraction_bits e in
  ((n + (1 << (k - 1))) >> k)%uint63.

(** [ceil(x)] as a length, for a double [x < 2**53]: 0 when [x] is not
    positive. *)
Definition ceil (x : float) : int :=
  if (0 <? x)%float then
    let (m, e) := PrimFloat.frshiftexp x in
    let n := PrimFloat.normfr_mantissa m in
    let k := fraction_bits e in
    if (k <? 63)%uint63 then ((n + ((1 << k) - 1)) >> k)%uint63
    else 1%uint63
  else 0%uint63.

(** numpy's [DOUBLE_fill]: [buffer[i] = start + i*delta] for the [n] items
    from index [i] on; the index is converted to a double. *)
Fixpoint fill (n : nat) (i start delta : float) : list float :=
  match n with
  | O => []
  | S n' => (start + i * delta)%float :: fill n' (i + 1)%float start delta
  end.

(** [np.arange(start, stop, step)] on doubles: the length is
    [ceil((stop - start) / step)], a [ZeroDivisionError] for a zero step;
    the first two items are [start] and [start + step], the others are
    filled in by [DOUBLE_fill] with [delta = (start + step) - start]. *)
Definition arange (start stop step : float) : result (list float) :=
  if (step =? 0)%float then raise ZeroDivisionError
  else
    let n := nat_of_int (ceil ((stop - start) / step)%float) in
    let next := (start + step)%float in
    ret (firstn n (start :: next
                   :: fill (n - 2) 2%float start (next - start)%float)).

(** [np.linspace(start, stop, num)] on doubles:
    [step = (stop - start) / (num - 1)], [y = arange(0, num) * step + start]
    (the sum of two doubles does not depend on their order) and
    [y[-1] = stop]. *)
Definition linspace (start stop : float) (num : nat) : list float :=
  let step := ((stop - start) / of_nat (num - 1))%float in
  match num with
  | O => []
  | S n => fill n 0%float start step ++ [stop]
  end.

End F64.

(** ** g2scanner.py *)

Module Scanner.
Import Py.

Definition BLACK_LUM_MAX : Z := 100.

(** The fields of the [G2Scanner] object that [analyse] updates. *)
Record t : Set := Self { scan_times : list Q; num_scans : nat }.

(** What one call of [analyse] did after its bookkeeping. *)
Inductive outcome : Set :=
| NoMarkers
    (* print("couldn't find top/bottom!"); return *)
| Scanned (top_bar_pixel bottom_bar_pixel : nat) (bin_pixels : list Z)
          (scan_column : nat) (bin_bits : list Z) (bmp : nat).
    (* the frame was decoded and written to str(num_scans) + ".bmp" *)

(** Lines 40-52: the luminance of column 8 and the two marker searches. *)
Definition temp_lums (arr : frame) : result (list Z) :=
  col <- column arr 8 ;; ret (map channel_sum col).

Definition is_dark (lums : list Z) (i : nat) : bool :=
  nth i lums 0 <? BLACK_LUM_MAX.

Definition top_bar_pixel (lums : list Z) (ROWS : nat) : option nat :=
  first_up (is_dark lums) 0 ROWS.

Definition bottom_bar_pixel (lums : list Z) (ROWS : nat) : option nat :=
  first_down (is_dark lums) ROWS.

(** Lines 58-59: [np.linspace(top, bottom, 21)], each sample passed through
    [int(round(x))]; the samples are read as exact rationals. *)
Definition bin_pixels (top bottom : nat) : list Z :=
  map round
      (linspace (inject_Z (Z.of_nat top)) (inject_Z (Z.of_nat bottom)) 21).

(** Lines 58-59 again, in doubles as numpy computes them. *)
Definition boundaries64 (top bottom : int) : list int :=
  map F64.round
      (F64.linspace (PrimFloat.of_uint63 top) (PrimFloat.of_uint63 bottom) 21).

Definition bin_pixels64 (top bottom : nat) : list Z :=
  map Uint63.to_Z (boundaries64 (F64.int_of_nat top) (F64.int_of_nat bottom)).

(** Line 81: [np.sum(lums[tp:bp]/(bp-tp)) < 2*BLACK_LUM_MAX].  [lums] and
    [bp-tp] are integers, so [/] divides every element with floor. *)
Definition bin_level (lums : list Z) (tp bp : Z) : Z :=
  sum (map (fun l => l / (bp - tp)) (slice lums tp bp)).

Definition bin_bit (lums : list Z) (tp bp : Z) : Z :=
  if bin_level lums tp bp <? 2 * BLACK_LUM_MAX then 1 else 0.

(** Lines 77-84: one bit per pair of neighbouring boundaries. *)
Fixpoint bin_bits (lums : list Z) (pixels : list Z) : list Z :=
  match pixels with
  | tp :: ((bp :: _) as rest) => bin_bit lums tp bp :: bin_bits lums rest
  | _ => []
  end.

(** The bit pattern a call of [analyse] delivered, if any. *)
Definition decoded (r : result outcome) : option (list Z) :=
  match r with
  | inr (Scanned _ _ _ _ bits _) => Some bits
  | _ => None
  end.

(** Lines 70-73. *)
Definition scan_column (max_edge : nat) : nat :=
  if (9 <? max_edge)%nat then (max_edge - 4)%nat else (max_edge + 4)%nat.

Section Analyse.

(** [np.argmax(np.sum(cv2.Canny(arr,60,250), axis=0))]: the edge detector
    is an external collaborator. *)
Variable max_edge : frame -> nat.

Definition analyse (self : t) (now : Q) (arr : frame) : t * result outcome :=
  let self' :=
    {| scan_times := scan_times self ++ [now];
       num_scans := S (num_scans self) |} in
  (self',
   let ROWS := length arr in
   match arr with
   | [] => raise IndexError            (* COLS = len(arr[0]) *)
   | _ :: _ =>
       lums8 <- temp_lums arr ;;
       match top_bar_pixel lums8 ROWS, bottom_bar_pixel lums8 ROWS with
       | Some top, Some bottom =>
           let pixels := bin_pixels top bottom in
           let sc := scan_column (max_edge arr) in
           col <- column arr sc ;;
           let lums := map channel_sum col in
           ret (Scanned top bottom pixels sc (bin_bits lums pixels)
                        (num_scans self'))
       | _, _ => ret NoMarkers
       end
   end).

(** Lines 101-108: while the camera records, [analyse] is called with one
    frame after the other; an exception ends the calls. *)
Fixpoint recording (self : t) (frames : list (Q * frame)) : t * result unit :=
  match frames with
  | [] => (self, ret tt)
  | (now, arr) :: rest =>
      match analyse self now arr with
      | (self', inl e) => (self', raise e)
      | (self', inr _) => recording self' rest
      end
  end.

End Analyse.

(** A frame as numpy holds it: every row has [COLS] pixels. *)
Definition rectangular (COLS : nat) (arr : frame) : Prop :=
  Forall (fun row => length row = COLS) arr.

(** Lines 17-19: the object [__init__] leaves. *)
Definition fresh : t := Self [] 0.

(** Line 109:
    [output.num_scans / (output.scan_times[-1] - output.scan_times[0])]. *)
Definition scan_rate (self : t) : result Q :=
  match scan_times self with
  | [] => raise IndexError
  | first :: _ =>
      let elapsed := (last (scan_times self) first - first)%Q in
      if Qeq_bool elapsed 0 then raise ZeroDivisionError
      else ret (inject_Z (Z.of_nat (num_scans self)) / elapsed)%Q
  end.

End Scanner.

(** ** legacy/g2scanner_threaded.py *)

Module Threaded.
Import Py.

Definition SCAN_COLUMN : nat := 8.

(** [np.average(rows, 0)] of one channel, in doubles: the bytes are summed
    in a double, which is exact, and the sum is divided by the number of
    rows; for an empty slice that is 0/0, [nan]. *)
Definition average (l : list Z) : float :=
  (PrimFloat.of_uint63 (Uint63.of_Z (sum l)) / F64.of_nat (length l))%float.

(** Lines 127-131: the channel averages of rows [tp:bp] of the scan column,
    and the test [r+g+b < 175]; a comparison with [nan] is false. *)
Definition bin_brightness (col : list pixel) (tp bp : Z) : Z :=
  let rows := slice col tp bp in
  let b := average (map chB rows) in
  let g := average (map chG rows) in
  let r := average (map chR rows) in
  if (r + g + b <? 175)%float then 1 else 0.

(** Lines 125-131: the loop over the pairs of the global [bin_pixels]. *)
Fixpoint brightness (arr : frame) (pixels : list Z) : result (list Z) :=
  match pixels with
  | tp :: ((bp :: _) as rest) =>
      col <- column arr SCAN_COLUMN ;;
      bits <- brightness arr rest ;;
      ret (bin_brightness col tp bp :: bits)
  | _ => ret []
  end.

(** Lines 121-131: [COLS = len(self.stream.array[0])] asks for the first
    row of the frame, then the loop runs. *)
Definition decode (arr : frame) (pixels : list Z) : result (list Z) :=
  match arr with
  | [] => raise IndexError
  | _ :: _ => brightness arr pixels
  end.

(** Lines 247-257 of [_calibrate], in doubles: the boundaries stored in the
    global [bin_pixels], which is empty before, from the two marker rows
    ([top <= bottom]). *)
Definition boundaries64 (top bottom : int) : result (list int) :=
  let dp :=
    PrimFloat.abs (PrimFloat.of_uint63 (bottom - top)%uint63 / 20)%float in
  l <- F64.arange (PrimFloat.of_uint63 top + dp)%float
                  (PrimFloat.of_uint63 bottom) dp ;;
  let px := map F64.round (PrimFloat.of_uint63 top :: l) in
  ret (if (last px 0 =? bottom)%uint63 then px else px ++ [bottom]).

Definition calibrated_pixels (top bottom : nat) : result (list Z) :=
  px <- boundaries64 (F64.int_of_nat top) (F64.int_of_nat bottom) ;;
  ret (map Uint63.to_Z px).

(** What the camera delivers: [camera.resolution = (16, 300)], 300 rows of
    16 pixels. *)
Definition camera_frame (f : frame) : Prop :=
  length f = 300%nat /\ Forall (fun row => length row = 16%nat) f.

(** Where the generator [G2Scanner.streams] stands. *)
Inductive producer_pc : Set :=
| P_check                 (* while not done *)
| P_lock                  (* with lock: processor = pool.pop() or None *)
| P_yield (p : nat)       (* yield processor.stream: the camera fills it *)
| P_set (p : nat)         (* processor.event.set() *)
| P_sleep                 (* time.sleep(0.01) *)
| P_exit.                 (* the generator is exhausted *)

(** Where one [ImageProcessor.run] stands. *)
Inductive worker_pc : Set :=
| W_wait                           (* if self.event.wait(1) *)
| W_accept                         (* with lock: taken += 1 ... *)
| W_decode                         (* the brightness loop *)
| W_publish (bits : list Z)        (* with lock: current_bit_pattern = .. *)
| W_finally (raised : option exn)  (* seek, truncate, event.clear() *)
| W_release (raised : option exn)  (* with lock: pool.append(self) *)
| W_dead (e : exn).                (* the exception left run() *)

Record processor : Set :=
  Processor { stream : frame; event : bool; pc : worker_pc }.

(** The module globals and the threads. *)
Record state : Set := State {
  done : bool;
  pool : list nat;
  image_times : list Q;
  bin_pixels : list Z;
  current_bit_pattern : list Z;
  taken : nat;
  processors : list processor;
  producer : producer_pc
}.

Definition with_producer (s : state) (p : producer_pc) : state :=
  State (done s) (pool s) (image_times s) (bin_pixels s)
        (current_bit_pattern s) (taken s) (processors s) p.

Definition with_pool (s : state) (l : list nat) : state :=
  State (done s) l (image_times s) (bin_pixels s)
        (current_bit_pattern s) (taken s) (processors s) (producer s).

Definition with_processor (s : state) (i : nat) (w : processor) : state :=
  State (done s) (pool s) (image_times s) (bin_pixels s)
        (current_bit_pattern s) (taken s) (set_nth (processors s) i w)
        (producer s).

Definition with_pattern (s : state) (bits : list Z) : state :=
  State (done s) (pool s) (image_times s) (bin_pixels s)
        bits (taken s) (processors s) (producer s).

(** Who moves next: the generator (resumed by [capture_sequence] with the
    frame just captured) or the thread of processor [i]. *)
Inductive actor : Set :=
| Producer (captured : frame)
| Worker (i : nat) (systime : Q).

(** The generator is resumed with a frame of the camera. *)
Definition from_camera (a : actor) : Prop :=
  match a with
  | Producer captured => camera_frame captured
  | Worker _ _ => True
  end.

Section Session.

Variable NUM_THREADS : nat.
Variable NUM_SCANS : nat.

(** The state when [scan] starts [capture_sequence]: [__init__] filled the
    pool, [_calibrate] filled [bin_pixels]. *)
Definition init (pixels : list Z) : state :=
  State false (seq 0 NUM_THREADS) [] pixels [] 0
        (repeat (Processor [] false W_wait) NUM_THREADS) P_check.

(** Lines 185-201. *)
Definition streams_step (captured : frame) (s : state) : option state :=
  match producer s with
  | P_check => Some (with_producer s (if done s then P_exit else P_lock))
  | P_lock =>
      match pop (pool s) with
      | Some (p, rest) => Some (with_producer (with_pool s rest) (P_yield p))
      | None => Some (with_producer s P_sleep)
      end
  | P_yield p =>
      match nth_error (processors s) p with
      | Some w =>
          Some (with_producer
                  (with_processor s p (Processor captured (event w) (pc w)))
                  (P_set p))
      | None => None
      end
  | P_set p =>
      match nth_error (processors s) p with
      | Some w =>
          Some (with_producer
                  (with_processor s p (Processor (stream w) true (pc w)))
                  P_check)
      | None => None
      end
  | P_sleep => Some (with_producer s P_check)
  | P_exit => None
  end.

(** Lines 113-117, under the lock. *)
Definition accept (systime : Q) (s : state) : state :=
  let taken' := S (taken s) in
  State (if (NUM_SCANS <=? taken')%nat then true else done s)
        (pool s) (image_times s ++ [systime]) (bin_pixels s)
        (current_bit_pattern s) taken' (processors s) (producer s).

(** Lines 107-143, one atomic piece at a time. *)
Definition run_step (i : nat) (systime : Q) (s : state) : option state :=
  match nth_error (processors s) i with
  | None => None
  | Some w =>
      let goto pc' := Processor (stream w) (event w) pc' in
      match pc w with
      | W_wait =>
          if event w then Some (with_processor s i (goto W_accept))
          else Some s                       (* the wait timed out *)
      | W_accept =>
          Some (with_processor (accept systime s) i (goto W_decode))
      | W_decode =>
          match decode (stream w) (bin_pixels s) with
          | inr bits => Some (with_processor s i (goto (W_publish bits)))
          | inl e => Some (with_processor s i (goto (W_finally (Some e))))
          end
      | W_publish bits =>
          Some (with_processor (with_pattern s bits) i
                               (goto (W_finally None)))
      | W_finally r =>
          Some (with_processor s i (Processor (stream w) false (W_release r)))
      | W_release r =>
          Some (with_processor (with_pool s (pool s ++ [i])) i
                  (goto match r with
                        | None => W_wait
                        | Some e => W_dead e
                        end))
      | W_dead _ => None
      end
  end.

Definition step (a : actor) (s : state) : option state :=
  match a with
  | Producer captured => streams_step captured s
  | Worker i systime => run_step i systime s
  end.

Fixpoint run (trace : list actor) (s : state) : option state :=
  match trace with
  | [] => Some s
  | a :: rest =>
      match step a s with
      | Some s' => run rest s'
      | None => None
      end
  end.

(** The states a session can be in. *)
Inductive reachable (pixels : list Z) : state -> Prop :=
| reachable_init : reachable pixels (init pixels)
| reachable_step : forall a s s',
    reachable pixels s -> step a s = Some s' -> reachable pixels s'.

(** The states of a session in which every frame comes from the camera. *)
Inductive filming (pixels : list Z) : state -> Prop :=
| filming_init : filming pixels (init pixels)
| filming_step : forall a s s',
    filming pixels s -> from_camera a -> step a s = Some s' ->
    filming pixels s'.

(** Line 282: what [close] waits for once [capture_sequence] has returned. *)
Definition session_complete (s : state) : Prop :=
  producer s = P_exit /\ length (pool s) = NUM_THREADS.

End Session.

(** *** Who owns a buffer *)

(** A processor holds its stream from the moment its event is set until it
    has appended itself to the pool. *)
Definition holds (w : processor) : bool :=
  event w ||
  match pc w with
  | W_wait | W_dead _ => false
  | _ => true
  end.

(** A processor that was signalled and has not yet counted its frame. *)
Definition pending (w : processor) : bool :=
  match pc w with
  | W_wait => event w
  | W_accept => true
  | _ => false
  end.

Definition b2n (b : bool) : nat := if b then 1%nat else 0%nat.

Definition count (f : processor -> bool) (ws : list processor) : nat :=
  fold_right (fun w n => (b2n (f w) + n)%nat) 0%nat ws.

Definition producer_has (s : state) (i : nat) : nat :=
  match producer s with
  | P_yield p | P_set p => b2n (p =? i)%nat
  | _ => 0%nat
  end.

Definition worker_has (s : state) (i : nat) : nat :=
  match nth_error (processors s) i with
  | Some w => b2n (holds w)
  | None => 0%nat
  end.

(** The number of parties that own buffer [i]. *)
Definition owners (s : state) (i : nat) : nat :=
  (count_occ Nat.eq_dec (pool s) i + producer_has s i + worker_has s i)%nat.

Definition idleBuffers (s : state) : nat := length (pool s).

Definition buffersOwnedByProducer (s : state) : nat :=
  match producer s with
  | P_yield _ | P_set _ => 1%nat
  | _ => 0%nat
  end.

Definition buffersOwnedByWorkers (s : state) : nat :=
  count holds (processors s).

(** Frames that are on their way to be counted: in the hands of the
    producer, signalled, or allowed by a test of [done] that came before
    the flag was raised. *)
Definition in_flight (s : state) : nat :=
  (buffersOwnedByProducer s + count pending (processors s)
   + match producer s with P_lock => 1 | _ => 0 end)%nat.

(** *** close *)

(** Lines 286-291: [while pool: processor = pool.pop(); ...;
    processor.terminated = True; processor.join()].  The processors in the
    order in which they are terminated; [n] bounds the passes by the length
    of the pool. *)
Fixpoint shut_down (n : nat) (l : list nat) : list nat :=
  match n with
  | O => []
  | S n' =>
      match pop l with
      | Some (p, rest) => p :: shut_down n' rest
      | None => []
      end
  end.

(** Lines 297-298: [for i in range(taken): image_times[i] -= t0], started
    at index [i] with [n] passes to go. *)
Fixpoint shift_times (times : list Q) (t0 : Q) (i n : nat)
  : result (list Q) :=
  match n with
  | O => ret times
  | S n' =>
      match nth_error times i with
      | None => raise IndexError
      | Some x => shift_times (set_nth times i (x - t0)%Q) t0 (S i) n'
      end
  end.

(** Lines 294-299, for [NUM_SCANS > 1]: the scan rate that [close] prints. *)
Definition average_scan_rate (s : state) : result Q :=
  match image_times s with
  | [] => raise IndexError                          (* image_times[0] *)
  | t0 :: _ =>
      times <- shift_times (image_times s) t0 0 (taken s) ;;
      match times with
      | [] => raise IndexError
      | x :: _ =>
          if Qeq_bool (last times x) 0 then raise ZeroDivisionError
          else ret (inject_Z (Z.of_nat (taken s)) / last times x)%Q
      end
  end.

(** What every step of a session keeps true of the pool. *)
Definition pool_invariant (N : nat) (s : state) : Prop :=
  length (processors s) = N /\
  (forall i, (i < N)%nat -> owners s i = 1%nat) /\
  (forall i, (N <= i)%nat -> owners s i = 0%nat) /\
  (forall i w r, nth_error (processors s) i = Some w ->
                 pc w = W_release r -> event w = false) /\
  (idleBuffers s + buffersOwnedByProducer s + buffersOwnedByWorkers s)%nat
  = N.

(** What every step keeps true of the counter and the flag. *)
Definition count_invariant (N K : nat) (s : state) : Prop :=
  (done s = false -> (taken s < K)%nat) /\
  (done s = true ->
   (K <= taken s)%nat /\ (taken s + in_flight s <= K + N)%nat) /\
  (producer s = P_exit -> done s = true).

(** A processor that has not raised, and that has a frame of the camera in
    its stream whenever it is signalled or at work. *)
Definition healthy (w : processor) : Prop :=
  match pc w with
  | W_wait => event w = true -> camera_frame (stream w)
  | W_accept | W_decode | W_publish _ | W_finally None | W_release None =>
      camera_frame (stream w)
  | W_finally (Some _) | W_release (Some _) | W_dead _ => False
  end.

(** What every step keeps true while the frames come from the camera. *)
Definition filming_invariant (s : state) : Prop :=
  (forall i w, nth_error (processors s) i = Some w -> healthy w) /\
  (forall p w, producer s = P_set p ->
               nth_error (processors s) p = Some w ->
               camera_frame (stream w)).

End Threaded.

(** ** legacy/g2scanner_threaded2.py *)

Module Threaded2.
Import Py.

Definition BLACK_BRIGHTNESS_MAX : Q := 50.

(** [picamera.array.PiRGBArray], an [io.BytesIO]: once closed it has no
    array any more and [seek] raises [ValueError]. *)
Record PiRGBArray : Set := Stream { array : frame; closed : bool }.

Record processor : Set := Processor {
  stream : PiRGBArray;
  event : bool;
  scan_number : nat;
  bin_luminosity : list Q;
  bin_pixels : list Z;
  bit_pattern : list Z;
  scan_column : nat
}.

Record globals : Set := Globals {
  done : bool;
  pool : list nat;
  image_times : list Q;
  taken : nat
}.

(** How a cycle of [run] ends: back at [self.event.wait(1)], or with an
    exception that leaves [run] and ends the thread. *)
Inductive status : Set :=
| Waiting
| Died (e : exn).

(** Addition of two [numpy.uint8] scalars. *)
Definition add8 (x y : Z) : Z := (x + y) mod 256.

(** Lines 158-162: [rgb_avg = (r + b + g) / 3.0] on the bytes of a pixel. *)
Definition rgb_avg (p : pixel) : Q :=
  (inject_Z (add8 (add8 (chR p) (chB p)) (chG p)) / 3)%Q.

(** Line 124: the weighted sum applied to the channel averages. *)
Definition luma (b g r : Q) : Q :=
  ((r * 299 + g * 587 + b * 114) / 1000)%Q.

(** Lines 157-163: [bin_luminosity] grows row by row until a row lacks the
    scan column. *)
Fixpoint fill_luminosity (rows : frame) (col : nat) (acc : list Q)
  : list Q * result unit :=
  match rows with
  | [] => (acc, ret tt)
  | row :: rest =>
      match nth_error row col with
      | None => (acc, raise IndexError)
      | Some p => fill_luminosity rest col (acc ++ [rgb_avg p])
      end
  end.

(** [np.arange(start, stop, step)] on floats, read as exact rationals
    ([F64.arange] is the same function on doubles). *)
Definition arange (start stop step : Q) : result (list Q) :=
  if Qeq_bool step 0 then raise ZeroDivisionError
  else
    let n := Z.to_nat (Qceiling ((stop - start) / step)) in
    ret (map (fun i => (start + inject_Z (Z.of_nat i) * step)%Q) (seq 0 n)).

Definition with_stream (self : processor) (st : PiRGBArray) : processor :=
  Processor st (event self) (scan_number self) (bin_luminosity self)
            (bin_pixels self) (bit_pattern self) (scan_column self).

Definition with_luminosity (self : processor) (l : list Q) : processor :=
  Processor (stream self) (event self) (scan_number self) l
            (bin_pixels self) (bit_pattern self) (scan_column self).

Definition with_pixels (self : processor) (l : list Z) : processor :=
  Processor (stream self) (event self) (scan_number self)
            (bin_luminosity self) l (bit_pattern self) (scan_column self).

Definition with_pattern (self : processor) (l : list Z) : processor :=
  Processor (stream self) (event self) (scan_number self)
            (bin_luminosity self) (bin_pixels self) l (scan_column self).

(** Lines 183-188 in doubles, as numpy computes them, from the two marker
    rows ([top <= bottom]). *)
Definition boundaries64 (top bottom : int) : result (list int) :=
  let dp :=
    PrimFloat.abs (PrimFloat.of_uint63 (bottom - top)%uint63 / 20)%float in
  l <- F64.arange (PrimFloat.of_uint63 top)
                  (PrimFloat.of_uint63 bottom + dp)%float dp ;;
  ret (map F64.round (firstn 21 l)).

Definition bin_pixels64 (top bottom : nat) : result (list Z) :=
  px <- boundaries64 (F64.int_of_nat top) (F64.int_of_nat bottom) ;;
  ret (map Uint63.to_Z px).

(** Lines 148-188, the floats read as exact rationals. *)
Definition _calibrate (self : processor) : processor * result unit :=
  let arr := array (stream self) in
  let ROWS := length arr in
  match arr with
  | [] => (self, raise IndexError)          (* COLS = len(array[0]) *)
  | _ :: _ =>
      let (lum, filled) :=
        fill_luminosity arr (scan_column self) (bin_luminosity self) in
      let self1 := with_luminosity self lum in
      match filled with
      | inl e => (self1, raise e)
      | inr _ =>
          let dark i := Qltb (nth i lum 0%Q) BLACK_BRIGHTNESS_MAX in
          match first_up dark 0 ROWS, first_down dark ROWS with
          | Some top, Some bottom =>
              let t := inject_Z (Z.of_nat top) in
              let b := inject_Z (Z.of_nat bottom) in
              let dp := Qabs ((b - t) / 20) in
              match arange t (b + dp) dp with
              | inl e => (self1, raise e)
              | inr l => (with_pixels self1 (map round (firstn 21 l)), ret tt)
              end
          | _, _ =>
              (* print("... Skipping this frame."); self.stream.close();
                 self.close(): ImageProcessor has no such attribute *)
              (with_stream self1 (Stream [] true), raise AttributeError)
          end
      end
  end.

(** Line 123: [np.average(array[tp:bp][scan_column], 0)], the channel
    averages over the pixels of one row of the slice. *)
Definition bin_average (arr : frame) (col : nat) (tp bp : Z)
  : result (option (Q * Q * Q)) :=
  match nth_error (slice arr tp bp) col with
  | None => raise IndexError
  | Some [] => ret None
  | Some (p :: ps) =>
      let n := inject_Z (Z.of_nat (length (p :: ps))) in
      let avg f := (inject_Z (sum (map f (p :: ps))) / n)%Q in
      ret (Some (avg chB, avg chG, avg chR))
  end.

(** Lines 122-126; [self.bit_pattern] grows bit by bit. *)
Fixpoint fill_bit_pattern (arr : frame) (col : nat) (pixels : list Z)
                          (acc : list Z) : list Z * result unit :=
  match pixels with
  | tp :: ((bp :: _) as rest) =>
      match bin_average arr col tp bp with
      | inl e => (acc, raise e)
      | inr bgr =>
          let bit :=
            match bgr with
            | Some (b, g, r) => if Qltb (luma b g r) 95 then 1 else 0
            | None => 0
            end in
          fill_bit_pattern arr col rest (acc ++ [bit])
      end
  | _ => (acc, ret tt)
  end.

(** Lines 137-146.  [seek(0)] and [truncate()] empty the bytes of the
    stream; [stream.array] keeps the frame until the next capture. *)
Definition _rewind (me : nat) (self : processor) (g : globals)
  : processor * globals * result unit :=
  if closed (stream self) then (self, g, raise ValueError)  (* seek(0) *)
  else
    (Processor (stream self) false (scan_number self)
               (bin_luminosity self) (bin_pixels self) (bit_pattern self)
               (scan_column self),
     Globals (done g) (pool g ++ [me]) (image_times g) (taken g),
     ret tt).

Section Run.

Variable NUM_SCANS : nat.

(** Lines 103-108, under the lock. *)
Definition accept (systime : Q) (self : processor) (g : globals)
  : processor * globals :=
  let taken' := S (taken g) in
  (Processor (stream self) (event self) (taken g) (bin_luminosity self)
             (bin_pixels self) (bit_pattern self) (scan_column self),
   Globals (if (NUM_SCANS <=? taken')%nat then true else done g)
           (pool g) (image_times g ++ [systime]) taken').

(** Lines 110-128: the body of the [try]; the last component is what
    [print self.bit_pattern] wrote. *)
Definition body (systime : Q) (self : processor) (g : globals)
  : processor * globals * result (list Z) :=
  let (self1, g1) := accept systime self g in
  let self2 :=
    Processor (stream self1) (event self1) (scan_number self1) [] [] [] 8 in
  let (self3, calibrated) := _calibrate self2 in
  match calibrated with
  | inl e => (self3, g1, raise e)
  | inr _ =>
      let (bits, decoded) :=
        fill_bit_pattern (array (stream self3)) (scan_column self3)
                         (bin_pixels self3) (bit_pattern self3) in
      let self4 := with_pattern self3 bits in
      match decoded with
      | inl e => (self4, g1, raise e)
      | inr _ => (self4, g1, ret bits)
      end
  end.

(** Lines 102-134: one pass through [try ... finally] for a processor whose
    event was set.  An exception of the body is raised again after the
    [finally] block, unless that block raises itself. *)
Definition cycle (me : nat) (systime : Q) (self : processor) (g : globals)
  : processor * globals * status * option (list Z) :=
  match body systime self g with
  | (self1, g1, tried) =>
      match _rewind me self1 g1 with
      | (self2, g2, inl e) => (self2, g2, Died e, None)
      | (self2, g2, inr _) =>
          match tried with
          | inl e => (self2, g2, Died e, None)
          | inr bits => (self2, g2, Waiting, Some bits)
          end
      end
  end.

End Run.

End Threaded2.

(** ** Bin boundaries, and tests that decide them *)

Module Layout.

(** What a list of boundaries has to satisfy for the marker rows [top] and
    [bottom] of a frame of [ROWS] rows: it runs from the one to the other
    inside the frame, never decreases, and increases when the markers are
    at least 20 rows apart. *)
Definition partition (ROWS top bottom : nat) (px : list Z) : Prop :=
  hd 0 px = Z.of_nat top /\
  last px 0 = Z.of_nat bottom /\
  (forall i, (i < length px)%nat -> 0 <= nth i px 0 < Z.of_nat ROWS) /\
  (forall i, (S i < length px)%nat -> nth i px 0 <= nth (S i) px 0) /\
  ((top + 20 <= bottom)%nat ->
   forall i, (S i < length px)%nat -> nth i px 0 < nth (S i) px 0).

Fixpoint nondecreasing (l : list int) : bool :=
  match l with
  | a :: ((b :: _) as rest) => (a <=? b)%uint63 && nondecreasing rest
  | _ => true
  end.

Fixpoint increasing (l : list int) : bool :=
  match l with
  | a :: ((b :: _) as rest) => (a <? b)%uint63 && increasing rest
  | _ => true
  end.

(** [partition] as a test on machine integers. *)
Definition partitionb (top bottom : int) (px : list int) : bool :=
  (hd 0%uint63 px =? top)%uint63 && (last px 0%uint63 =? bottom)%uint63
  && nondecreasing px
  && (if (top + 20 <=? bottom)%uint63 then increasing px else true).

(** [f i && f (i + 1) && ...], [n] times. *)
Fixpoint all_from (n : nat) (i : int) (f : int -> bool) : bool :=
  match n with
  | O => true
  | S n' => f i && all_from n' (i + 1)%uint63 f
  end.

(** [f top bottom] for all the marker rows of a camera frame:
    [top <= bottom < 300]. *)
Definition all_markers (f : int -> int -> bool) : bool :=
  all_from 300 0%uint63 (fun top =>
    all_from 300 0%uint63 (fun bottom =>
      if (bottom <? top)%uint63 then true else f top bottom)).

(** Boundary [i] in exact arithmetic: [top + i * d / 20] rounded, halves
    upwards, for [d = bottom - top]. *)
Definition exact (top d i : int) : int :=
  (top + (i * d + 10) / 20)%uint63.

(** From index [i] on, a boundary of [px] is the exact one, or the row
    below it when the exact sample lies halfway between two rows. *)
Fixpoint close_to_exact (top d i : int) (px : list int) : bool :=
  match px with
  | [] => true
  | x :: rest =>
      ((x =? exact top d i)%uint63
       || ((x <? exact top d i)%uint63 && (exact top d i <=? x + 1)%uint63
           && ((i * d) mod 20 =? 10)%uint63))
      && close_to_exact top d (i + 1)%uint63 rest
  end.

Definition scanner_ok (top bottom : int) : bool :=
  let px := Scanner.boundaries64 top bottom in
  (length px =? 21)%nat && partitionb top bottom px
  && close_to_exact top (bottom - top)%uint63 0%uint63 px.

Definition threaded_ok (top bottom : int) : bool :=
  match Threaded.boundaries64 top bottom with
  | inl Py.ZeroDivisionError => (top =? bottom)%uint63
  | inl _ => false
  | inr px =>
      negb (top =? bottom)%uint63 && partitionb top bottom px
      && (if (top + 20 <=? bottom)%uint63 then (length px =? 21)%nat
          else ((length px =? 20) || (length px =? 21))%nat)
  end.

Definition threaded2_ok (top bottom : int) : bool :=
  match Threaded2.boundaries64 top bottom with
  | inl Py.ZeroDivisionError => (top =? bottom)%uint63
  | inl _ => false
  | inr px =>
      negb (top =? bottom)%uint63 && partitionb top bottom px
      && (length px =? 21)%nat
      && close_to_exact top (bottom - top)%uint63 0%uint63 px
  end.

End Layout.

(** ** Frames used as examples *)

Module Frames.
Import Py.

Definition black : pixel := BGR 0 0 0.

Definition white : pixel := BGR 255 255 255.

(** [camera.resolution = (16, 300)]: 300 rows of 16 pixels.  Every row is
    of one colour; the rows after those of [head] are white. *)
Definition rows (head : list pixel) : list pixel :=
  head ++ repeat white (300 - length head).

Definition uniform (head : list pixel) : frame :=
  map (fun p => repeat p 16) (rows head).

(** No dark row at all. *)
Definition blank : frame := uniform [].

(** Dark rows 5 and 6. *)
Definition one_apart : frame :=
  uniform (repeat white 5 ++ [black; black]).

(** Dark rows 2 and 12. *)
Definition ten_apart : frame :=
  uniform ([white; white; black] ++ repeat white 9 ++ [black]).

(** Dark rows 0 and 40, so that every bin spans two rows; rows 2 and 3, the
    second bin, have luminance 199 and 201. *)
Definition tie_rows : list pixel :=
  [black; white; BGR 199 0 0; BGR 201 0 0] ++ repeat white 36 ++ [black].

Definition tie : frame := uniform tie_rows.

(** Columns 0 to 7 white, columns 8 to 15 black, in every row. *)
Definition halves : frame :=
  repeat (repeat white 8 ++ repeat black 8) 300.

(** 300 rows of 8 pixels: there is no column 8. *)
Definition narrow : frame := repeat (repeat white 8) 300.

(** Dark rows 10 and 250. *)
Definition wide : frame :=
  uniform (repeat white 10 ++ [black] ++ repeat white 239 ++ [black]).

End Frames.

(** ** Schedules used as examples *)

Module Schedules.
Import Threaded.

(** The producer goes once round its loop: test, pop, yield, set. *)
Definition hand_over (f : Py.frame) : list actor :=
  repeat (Producer f) 4.

(** Processor [i] goes once round its loop: wake, count, decode, publish,
    rewind, append. *)
Definition process (i : nat) : list actor :=
  repeat (Worker i 0) 6.

(** One processor, one scan wanted.  The producer hands the buffer over and
    tests [done] again before the processor has counted the frame; the
    processor then finishes its cycle, and the producer, already past the
    test, takes the buffer a second time. *)
Definition overshoot : list actor :=
  hand_over Frames.blank ++ [Producer Frames.blank] ++ process 0
  ++ hand_over Frames.blank ++ process 0.

(** Two processors, one scan wanted: the producer goes twice round its loop
    before either processor has counted its frame; both frames are then
    counted, and the producer finds [done] set. *)
Definition both_counted : list actor :=
  hand_over Frames.blank ++ hand_over Frames.blank ++ process 1 ++ process 0
  ++ [Producer Frames.blank].

(** Two processors: the producer has signalled processor 1 and holds the
    stream of processor 0. *)
Definition two_out : list actor :=
  hand_over Frames.blank ++ repeat (Producer Frames.blank) 2.

(** One processor, two scans wanted: the frames are counted at times 1
    and 3, and the producer finds [done] set. *)
Definition two_scans : list actor :=
  hand_over Frames.blank ++ repeat (Worker 0 1) 6
  ++ hand_over Frames.blank ++ repeat (Worker 0 3) 6
  ++ [Producer Frames.blank].

(** A processor of g2scanner_threaded2.py that has just been signalled with
    frame [f] in its stream, and the globals of a session in which it is
    processor 0 of one and nothing has been counted yet. *)
Definition signalled (f : Py.frame) : Threaded2.processor :=
  Threaded2.Processor (Threaded2.Stream f false) true 0 [] [] [] 8.

Definition fresh : Threaded2.globals := Threaded2.Globals false [] [] 0.

End Schedules.

(** * Properties *)

(** ** Lists, searches and rounding *)

Lemma first_up_some (dark : nat -> bool) (n i k : nat) :
  Py.first_up dark i n = Some k <->
  (i <= k < i + n)%nat /\ dark k = true /\
  (forall j, (i <= j < k)%nat -> dark j = false).
Proof.
  revert i. induction n as [|n IH]; intros i; simpl.
  - split; [discriminate | lia].
  - destruct (dark i) eqn:Hi.
    + split.
      * intros [= <-]. repeat split; auto; try lia; intros; lia.
      * intros (Hk & Hd & Hmin). f_equal.
        destruct (Nat.eq_dec i k) as [|Hne]; auto.
        rewrite (Hmin i) in Hi by lia. discriminate.
    + rewrite IH. split.
      * intros (Hk & Hd & Hmin). repeat split; try lia; auto.
        intros j Hj. destruct (Nat.eq_dec j i) as [->|]; auto.
        apply Hmin. lia.
      * intros (Hk & Hd & Hmin).
        assert (i <> k) by (intros ->; congruence).
        repeat split; try lia; auto. intros j Hj. apply Hmin. lia.
Qed.

Lemma first_up_none (dark : nat -> bool) (n i : nat) :
  Py.first_up dark i n = None <->
  (forall j, (i <= j < i + n)%nat -> dark j = false).
Proof.
  revert i. induction n as [|n IH]; intros i; simpl.
  - split; auto. intros _ j Hj. lia.
  - destruct (dark i) eqn:Hi.
    + split; [discriminate|]. intros H. rewrite H in Hi by lia. discriminate.
    + rewrite IH. split; intros H j Hj.
      * destruct (Nat.eq_dec j i) as [->|]; auto. apply H. lia.
      * apply H. lia.
Qed.

Lemma first_down_some (dark : nat -> bool) (n k : nat) :
  Py.first_down dark n = Some k <->
  (k < n)%nat /\ dark k = true /\
  (forall j, (k < j < n)%nat -> dark j = false).
Proof.
  induction n as [|n IH]; simpl.
  - split; [discriminate | lia].
  - destruct (dark n) eqn:Hn.
    + split.
      * intros [= <-]. repeat split; auto; try lia; intros; lia.
      * intros (Hk & Hd & Hmax). f_equal.
        destruct (Nat.eq_dec n k) as [|Hne]; auto.
        rewrite (Hmax n) in Hn by lia. discriminate.
    + rewrite IH. split.
      * intros (Hk & Hd & Hmax). repeat split; try lia; auto.
        intros j Hj. destruct (Nat.eq_dec j n) as [->|]; auto.
        apply Hmax. lia.
      * intros (Hk & Hd & Hmax).
        assert (n <> k) by (intros ->; congruence).
        repeat split; try lia; auto. intros j Hj. apply Hmax. lia.
Qed.

Lemma first_down_none (dark : nat -> bool) (n : nat) :
  Py.first_down dark n = None <->
  (forall j, (j < n)%nat -> dark j = false).
Proof.
  induction n as [|n IH]; simpl.
  - split; auto. intros _ j Hj. lia.
  - destruct (dark n) eqn:Hn.
    + split; [discriminate|]. intros H. rewrite H in Hn by lia. discriminate.
    + rewrite IH. split; intros H j Hj.
      * destruct (Nat.eq_dec j n) as [->|]; auto. apply H. lia.
      * apply H. lia.
Qed.

(** Both searches succeed together, and the top marker is never below the
    bottom one. *)
Lemma markers_ordered (dark : nat -> bool) (n top bottom : nat) :
  Py.first_up dark 0 n = Some top ->
  Py.first_down dark n = Some bottom ->
  (top <= bottom < n)%nat.
Proof.
  intros Ht Hb. apply first_up_some in Ht. apply first_down_some in Hb.
  destruct Ht as (Ht & Hdt & Hmin), Hb as (Hb & Hdb & Hmax).
  split; auto.
  destruct (Nat.le_gt_cases top bottom) as [|Hlt]; auto.
  rewrite (Hmin bottom) in Hdb by lia. discriminate.
Qed.

Lemma column_length (arr : Py.frame) (c : nat) (col : list Py.pixel) :
  Py.column arr c = inr col -> length col = length arr.
Proof.
  revert col. induction arr as [|row rows IH]; intros col; simpl.
  - intros [= <-]. reflexivity.
  - destruct (nth_error row c); [|discriminate].
    destruct (Py.column rows c) as [e|ps]; simpl; [discriminate|].
    intros [= <-]. simpl. f_equal. apply IH. reflexivity.
Qed.

(** The [i]-th sample of [linspace t (t+d) 21], rounded, in integers. *)
Lemma round_sample (t d i : Z) :
  0 <= t -> 0 <= d -> 0 <= i ->
  Py.round (inject_Z t + inject_Z i * ((inject_Z (t + d) - inject_Z t) / inject_Z 20))
  = t + (i * d + 10) / 20.
Proof.
  intros Ht Hd Hi.
  assert (Hx : (inject_Z t + inject_Z i * ((inject_Z (t + d) - inject_Z t) / inject_Z 20)
                == (20 * t + i * d) # 20)%Q).
  { rewrite (Qmake_Qdiv (20 * t + i * d) 20).
    rewrite !inject_Z_plus, !inject_Z_mult.
    change (inject_Z (Z.pos 20)) with (inject_Z 20). field. }
  unfold Py.round.
  assert (Hpos : Qle_bool 0 (inject_Z t + inject_Z i * ((inject_Z (t + d) - inject_Z t) / inject_Z 20)) = true).
  { apply Qle_bool_iff. rewrite Hx. unfold Qle. cbn [Qnum Qden].
    pose proof (Z.mul_nonneg_nonneg i d Hi Hd). lia. }
  rewrite Hpos.
  assert (Hy : (inject_Z t + inject_Z i * ((inject_Z (t + d) - inject_Z t) / inject_Z 20) + (1 # 2)
                == (2 * (20 * t + i * d) + 20) # 40)%Q).
  { rewrite Hx. unfold Qeq, Qplus. cbn [Qnum Qden]. lia. }
  rewrite Hy. unfold Qfloor.
  replace (2 * (20 * t + i * d) + 20) with (t * 40 + (i * d + 10) * 2) by ring.
  rewrite Z.div_add_l by lia. f_equal.
  change 40 with (20 * 2). rewrite Z.div_mul_cancel_r by lia. reflexivity.
Qed.

Lemma bin_pixels_length (top bottom : nat) :
  length (Scanner.bin_pixels top bottom) = 21%nat.
Proof.
  unfold Scanner.bin_pixels, Py.linspace.
  now rewrite !length_map, length_seq.
Qed.

Lemma bin_pixels_nth (top bottom i : nat) :
  (top <= bottom)%nat -> (i <= 20)%nat ->
  nth i (Scanner.bin_pixels top bottom) 0
  = Z.of_nat top + (Z.of_nat i * (Z.of_nat bottom - Z.of_nat top) + 10) / 20.
Proof.
  intros Hle Hi.
  unfold Scanner.bin_pixels, Py.linspace.
  rewrite nth_indep with (d' := Py.round 0)
    by (rewrite !length_map, length_seq; lia).
  rewrite map_nth.
  rewrite nth_indep with
    (d' := (fun i0 : nat =>
              (inject_Z (Z.of_nat top) + inject_Z (Z.of_nat i0) *
               ((inject_Z (Z.of_nat bottom) - inject_Z (Z.of_nat top)) /
                inject_Z (Z.of_nat (21 - 1))))%Q) 0%nat)
    by (rewrite length_map, length_seq; lia).
  rewrite map_nth with (f := fun i0 : nat =>
              (inject_Z (Z.of_nat top) + inject_Z (Z.of_nat i0) *
               ((inject_Z (Z.of_nat bottom) - inject_Z (Z.of_nat top)) /
                inject_Z (Z.of_nat (21 - 1))))%Q).
  rewrite seq_nth by lia. simpl Nat.add.
  replace (Z.of_nat bottom) with (Z.of_nat top + (Z.of_nat bottom - Z.of_nat top)) at 1 by ring.
  change (Z.of_nat (21 - 1)) with 20.
  apply round_sample; lia.
Qed.

Lemma bin_pixels_range (top bottom i : nat) :
  (top <= bottom)%nat -> (i <= 20)%nat ->
  Z.of_nat top <= nth i (Scanner.bin_pixels top bottom) 0 <= Z.of_nat bottom.
Proof.
  intros Hle Hi. rewrite bin_pixels_nth by assumption.
  set (d := Z.of_nat bottom - Z.of_nat top).
  assert (0 <= d) by (unfold d; lia).
  assert (0 <= Z.of_nat i <= 20) by lia.
  assert (0 <= (Z.of_nat i * d + 10) / 20) by (apply Z.div_pos; nia).
  assert ((Z.of_nat i * d + 10) / 20 <= (20 * d + 10) / 20)
    by (apply Z.div_le_mono; nia).
  assert ((20 * d + 10) / 20 = d).
  { replace (20 * d + 10) with (d * 20 + 10) by ring.
    rewrite Z.div_add_l by lia. change (10 / 20) with 0. lia. }
  unfold d in *. lia.
Qed.

Lemma bin_pixels_mono (top bottom i : nat) :
  (top <= bottom)%nat -> (i < 20)%nat ->
  nth i (Scanner.bin_pixels top bottom) 0
  <= nth (S i) (Scanner.bin_pixels top bottom) 0.
Proof.
  intros Hle Hi. rewrite !bin_pixels_nth by lia.
  apply Zplus_le_compat_l, Z.div_le_mono; nia.
Qed.

Lemma bin_pixels_strict (top bottom i : nat) :
  (top + 20 <= bottom)%nat -> (i < 20)%nat ->
  nth i (Scanner.bin_pixels top bottom) 0
  < nth (S i) (Scanner.bin_pixels top bottom) 0.
Proof.
  intros Hle Hi. rewrite !bin_pixels_nth by lia.
  set (d := Z.of_nat bottom - Z.of_nat top).
  assert (20 <= d) by (unfold d; lia).
  assert ((Z.of_nat i * d + 10) / 20 + 1 <= (Z.of_nat (S i) * d + 10) / 20).
  { replace ((Z.of_nat i * d + 10) / 20 + 1)
      with ((1 * 20 + (Z.of_nat i * d + 10)) / 20)
      by (rewrite Z.div_add_l by lia; ring).
    apply Z.div_le_mono; nia. }
  lia.
Qed.

(** A chain of [n] steps that never goes down and ends less than [n] above
    its start has a flat step. *)
Lemma flat_step (g : nat -> Z) (n : nat) :
  (forall i, (i < n)%nat -> g i <= g (S i)) ->
  g n < g 0%nat + Z.of_nat n ->
  exists i, (i < n)%nat /\ g i = g (S i).
Proof.
  induction n as [|n IH]; intros Hmono Hshort.
  - simpl in Hshort. lia.
  - destruct (Z.eq_dec (g n) (g (S n))) as [Heq|Hne].
    + exists n. split; [lia | exact Heq].
    + assert (g n < g (S n)) by (specialize (Hmono n); lia).
      destruct IH as (i & Hi & Hflat).
      * intros i Hi. apply Hmono. lia.
      * lia.
      * exists i. split; [lia | exact Hflat].
Qed.

Lemma bin_pixels_flat (top bottom : nat) :
  (top <= bottom < top + 20)%nat ->
  exists i, (i < 20)%nat /\
            nth i (Scanner.bin_pixels top bottom) 0
            = nth (S i) (Scanner.bin_pixels top bottom) 0.
Proof.
  intros Hd.
  apply (flat_step (fun i => nth i (Scanner.bin_pixels top bottom) 0)).
  - intros i Hi. apply bin_pixels_mono; lia.
  - pose proof (bin_pixels_range top bottom 0) as H0.
    pose proof (bin_pixels_range top bottom 20) as H20. lia.
Qed.

Lemma slice_length (A : Type) (l : list A) (lo hi : Z) :
  (length (Py.slice l lo hi) <= Z.to_nat hi - Z.to_nat lo)%nat.
Proof.
  unfold Py.slice. rewrite length_skipn, length_firstn. lia.
Qed.

Lemma slice_empty (A : Type) (l : list A) (lo hi : Z) :
  hi <= lo -> Py.slice l lo hi = [].
Proof.
  intros H. apply length_zero_iff_nil.
  pose proof (slice_length A l lo hi). lia.
Qed.

Lemma bin_bits_length (lums pixels : list Z) :
  length (Scanner.bin_bits lums pixels) = (length pixels - 1)%nat.
Proof.
  induction pixels as [|tp rest IH]; simpl; auto.
  destruct rest as [|bp rest']; simpl; auto.
  simpl in IH. rewrite IH. lia.
Qed.

Lemma bin_bits_nth (lums pixels : list Z) (i : nat) :
  (S i < length pixels)%nat ->
  nth i (Scanner.bin_bits lums pixels) 0
  = Scanner.bin_bit lums (nth i pixels 0) (nth (S i) pixels 0).
Proof.
  revert i. induction pixels as [|tp rest IH]; intros i Hi; simpl in Hi.
  - lia.
  - destruct rest as [|bp rest']; simpl in Hi; [lia|].
    destruct i as [|i].
    + reflexivity.
    + change (Scanner.bin_bits lums (tp :: bp :: rest'))
        with (Scanner.bin_bit lums tp bp :: Scanner.bin_bits lums (bp :: rest')).
      change (nth (S i) (Scanner.bin_bit lums tp bp :: Scanner.bin_bits lums (bp :: rest')) 0)
        with (nth i (Scanner.bin_bits lums (bp :: rest')) 0).
      rewrite IH by (simpl; lia). reflexivity.
Qed.

(** What [analyse] returns once the frame has a first row and a column 8. *)
Lemma analyse_result (max_edge : Py.frame -> nat) (self : Scanner.t) (now : Q)
      (arr : Py.frame) (lums : list Z) :
  arr <> [] -> Scanner.temp_lums arr = inr lums ->
  snd (Scanner.analyse max_edge self now arr)
  = match Scanner.top_bar_pixel lums (length arr),
          Scanner.bottom_bar_pixel lums (length arr) with
    | Some top, Some bottom =>
        col <- Py.column arr (Scanner.scan_column (max_edge arr)) ;;
        Py.ret (Scanner.Scanned top bottom (Scanner.bin_pixels top bottom)
                  (Scanner.scan_column (max_edge arr))
                  (Scanner.bin_bits (map Py.channel_sum col)
                                    (Scanner.bin_pixels top bottom))
                  (S (Scanner.num_scans self)))
    | _, _ => Py.ret Scanner.NoMarkers
    end.
Proof.
  intros Hne Hl. unfold Scanner.analyse. cbn [snd].
  destruct arr as [|row rows]; [congruence|].
  rewrite Hl. reflexivity.
Qed.

Lemma analyse_state (max_edge : Py.frame -> nat) (self : Scanner.t) (now : Q)
      (arr : Py.frame) :
  fst (Scanner.analyse max_edge self now arr)
  = Scanner.Self (Scanner.scan_times self ++ [now])
                 (S (Scanner.num_scans self)).
Proof. reflexivity. Qed.

Lemma is_dark_iff (lums : list Z) (i : nat) :
  Scanner.is_dark lums i = true <-> nth i lums 0 < Scanner.BLACK_LUM_MAX.
Proof. unfold Scanner.is_dark. apply Z.ltb_lt. Qed.

Lemma is_dark_false (lums : list Z) (i : nat) :
  Scanner.is_dark lums i = false <-> ~ nth i lums 0 < Scanner.BLACK_LUM_MAX.
Proof. unfold Scanner.is_dark. rewrite Z.ltb_ge. lia. Qed.

Lemma analyse_scanned (max_edge : Py.frame -> nat) (self : Scanner.t) (now : Q)
      (arr : Py.frame) (t b : nat) (px : list Z) (sc : nat) (bits : list Z)
      (n : nat) :
  snd (Scanner.analyse max_edge self now arr)
  = inr (Scanner.Scanned t b px sc bits n) ->
  exists lums col,
    Scanner.temp_lums arr = inr lums /\
    Scanner.top_bar_pixel lums (length arr) = Some t /\
    Scanner.bottom_bar_pixel lums (length arr) = Some b /\
    px = Scanner.bin_pixels t b /\
    sc = Scanner.scan_column (max_edge arr) /\
    Py.column arr sc = inr col /\
    bits = Scanner.bin_bits (map Py.channel_sum col) px /\
    n = S (Scanner.num_scans self).
Proof.
  intros H.
  destruct arr as [|row rows]; [discriminate H|].
  unfold Scanner.analyse in H. cbn [snd] in H.
  destruct (Scanner.temp_lums (row :: rows)) as [e|lums] eqn:Hl;
    [discriminate H|].
  cbn [Py.bind] in H.
  destruct (Scanner.top_bar_pixel lums (length (row :: rows))) as [t'|] eqn:Ht;
    [|discriminate H].
  destruct (Scanner.bottom_bar_pixel lums (length (row :: rows))) as [b'|] eqn:Hb;
    [|discriminate H].
  destruct (Py.column (row :: rows)
                      (Scanner.scan_column (max_edge (row :: rows))))
    as [e|col] eqn:Hc; [discriminate H|].
  cbn [Py.bind Py.ret] in H. injection H as -> -> <- <- <- <-.
  exists lums, col. repeat split; auto.
Qed.

(** ** The cycle of g2scanner_threaded2.py *)

Lemma arange_21 (top bottom : nat) :
  (top < bottom)%nat ->
  exists l,
    Threaded2.arange (inject_Z (Z.of_nat top))
      (inject_Z (Z.of_nat bottom)
       + Qabs ((inject_Z (Z.of_nat bottom) - inject_Z (Z.of_nat top)) / 20))
      (Qabs ((inject_Z (Z.of_nat bottom) - inject_Z (Z.of_nat top)) / 20))
    = inr l /\ length l = 21%nat.
Proof.
  intros Hlt.
  set (T := inject_Z (Z.of_nat top)).
  set (B := inject_Z (Z.of_nat bottom)).
  assert (Hd : (0 < B - T)%Q).
  { unfold B, T. rewrite <- (Qplus_opp_r (inject_Z (Z.of_nat top))).
    apply Qplus_lt_l. rewrite <- Zlt_Qlt. lia. }
  assert (Hdp : (Qabs ((B - T) / 20) == (B - T) / 20)%Q).
  { apply Qabs_pos. apply Qle_shift_div_l; [reflexivity|].
    rewrite Qmult_0_l. apply Qlt_le_weak. exact Hd. }
  assert (Hne : ~ (B - T == 0)%Q).
  { intros H0. rewrite H0 in Hd. exact (Qlt_irrefl _ Hd). }
  unfold Threaded2.arange.
  destruct (Qeq_bool (Qabs ((B - T) / 20)) 0) eqn:Hz.
  - exfalso. apply Qeq_bool_eq in Hz. rewrite Hdp in Hz.
    apply Hne. rewrite <- (Qmult_div_r (B - T) 20) by discriminate.
    rewrite Hz. reflexivity.
  - eexists. split; [reflexivity|].
    rewrite length_map, length_seq.
    assert (H21 : ((B + Qabs ((B - T) / 20) - T) / Qabs ((B - T) / 20)
                   == inject_Z 21)%Q).
    { rewrite Hdp. change (inject_Z 21) with 21%Q. field. exact Hne. }
    rewrite H21. rewrite Qceiling_Z. reflexivity.
Qed.

Lemma fill_luminosity_fst (rows : Py.frame) (col : nat) (acc : list Q) :
  snd (Threaded2.fill_luminosity rows col acc) = inr tt ->
  length (fst (Threaded2.fill_luminosity rows col acc))
  = (length acc + length rows)%nat.
Proof.
  revert acc. induction rows as [|row rest IH]; intros acc; simpl.
  - intros _. lia.
  - destruct (nth_error row col); simpl; [|discriminate].
    intros H. rewrite (IH _ H), length_app. simpl. lia.
Qed.

(** A calibration that returns has produced 21 boundaries and has left
    the bit pattern alone. *)
Lemma calibrate_returns (self : Threaded2.processor) :
  snd (Threaded2._calibrate self) = inr tt ->
  length (Threaded2.bin_pixels (fst (Threaded2._calibrate self))) = 21%nat /\
  Threaded2.bit_pattern (fst (Threaded2._calibrate self))
  = Threaded2.bit_pattern self.
Proof.
  unfold Threaded2._calibrate.
  destruct (Threaded2.array (Threaded2.stream self)) as [|row rows] eqn:Harr;
    [discriminate|].
  destruct (Threaded2.fill_luminosity (row :: rows)
              (Threaded2.scan_column self) (Threaded2.bin_luminosity self))
    as [lum filled].
  destruct filled as [e|[]]; [discriminate|].
  set (dark := fun i : nat =>
                 Py.Qltb (nth i lum 0%Q) Threaded2.BLACK_BRIGHTNESS_MAX).
  destruct (Py.first_up dark 0 (length (row :: rows))) as [top|] eqn:Ht;
    [|discriminate].
  destruct (Py.first_down dark (length (row :: rows))) as [bottom|] eqn:Hb;
    [|discriminate].
  destruct (markers_ordered dark _ top bottom Ht Hb) as [Hle _].
  destruct (Nat.eq_dec top bottom) as [->|Hne].
  - unfold Threaded2.arange.
    assert (Hz : Qeq_bool
                   (Qabs ((inject_Z (Z.of_nat bottom)
                           - inject_Z (Z.of_nat bottom)) / 20)) 0 = true).
    { apply Qeq_bool_iff.
      assert (H0 : ((inject_Z (Z.of_nat bottom) - inject_Z (Z.of_nat bottom))
                    / 20 == 0)%Q) by field.
      rewrite H0. reflexivity. }
    rewrite Hz. discriminate.
  - destruct (arange_21 top bottom ltac:(lia)) as (l & Hl & Hlen).
    rewrite Hl. cbn [fst snd]. intros _. split; [|reflexivity].
    cbn [Threaded2.bin_pixels Threaded2.with_pixels].
    rewrite length_map, length_firstn, Hlen. reflexivity.
Qed.

Lemma fill_bit_pattern_length (arr : Py.frame) (col : nat)
      (pixels acc : list Z) :
  snd (Threaded2.fill_bit_pattern arr col pixels acc) = inr tt ->
  length (fst (Threaded2.fill_bit_pattern arr col pixels acc))
  = (length acc + (length pixels - 1))%nat.
Proof.
  revert acc. induction pixels as [|tp rest IH]; intros acc.
  - simpl. intros _. lia.
  - destruct rest as [|bp rest'].
    + simpl. intros _. lia.
    + change (Threaded2.fill_bit_pattern arr col (tp :: bp :: rest') acc)
        with (match Threaded2.bin_average arr col tp bp with
              | inl e => (acc, Py.raise e)
              | inr bgr =>
                  Threaded2.fill_bit_pattern arr col (bp :: rest')
                    (acc ++ [match bgr with
                             | Some (b, g, r) =>
                                 if Py.Qltb (Threaded2.luma b g r) 95
                                 then 1 else 0
                             | None => 0
                             end])
              end).
      destruct (Threaded2.bin_average arr col tp bp) as [e|bgr];
        [discriminate|].
      intros H. rewrite (IH _ H), length_app. simpl. lia.
Qed.

(** Whatever a cycle prints is a complete pattern of 20 bits. *)
Lemma cycle_prints_twenty (K me : nat) (t : Q) (self : Threaded2.processor)
      (g : Threaded2.globals) (bits : list Z) :
  snd (Threaded2.cycle K me t self g) = Some bits -> length bits = 20%nat.
Proof.
  unfold Threaded2.cycle, Threaded2.body, Threaded2.accept.
  set (self2 := Threaded2.Processor _ _ _ [] [] [] 8).
  pose proof (calibrate_returns self2) as Hcal.
  destruct (Threaded2._calibrate self2) as [self3 calibrated].
  cbn [fst snd] in Hcal.
  destruct calibrated as [e|[]].
  - destruct (Threaded2._rewind me self3 _) as [[self4 g4] [e'|u]];
      discriminate.
  - destruct (Hcal eq_refl) as [H21 Hpat].
    pose proof (fill_bit_pattern_length
                  (Threaded2.array (Threaded2.stream self3))
                  (Threaded2.scan_column self3) (Threaded2.bin_pixels self3)
                  (Threaded2.bit_pattern self3)) as Hfill.
    destruct (Threaded2.fill_bit_pattern
                (Threaded2.array (Threaded2.stream self3))
                (Threaded2.scan_column self3) (Threaded2.bin_pixels self3)
                (Threaded2.bit_pattern self3)) as [bits' decoded].
    cbn [fst snd] in Hfill.
    destruct decoded as [e|[]].
    + destruct (Threaded2._rewind me _ _) as [[self4 g4] [e'|u]];
        discriminate.
    + destruct (Threaded2._rewind me _ _) as [[self4 g4] [e'|u]];
        [discriminate|].
      cbn [snd Py.ret]. intros [= <-].
      rewrite (Hfill eq_refl), H21, Hpat. reflexivity.
Qed.

(** ** The analyser of g2scanner.py *)

Lemma sum_div_le (n : Z) (l : list Z) :
  0 < n -> Py.sum (map (fun x => x / n) l) * n <= Py.sum l.
Proof.
  intros Hn. induction l as [|a l IH]; simpl.
  - lia.
  - pose proof (Z.mul_div_le a n Hn). lia.
Qed.

(** Truncation only lowers the level: a bin whose true average is below the
    threshold is always reported dark. *)
Lemma bin_bit_dark_below_average (lums : list Z) (tp bp : Z) :
  tp < bp ->
  Py.sum (Py.slice lums tp bp) < 2 * Scanner.BLACK_LUM_MAX * (bp - tp) ->
  Scanner.bin_bit lums tp bp = 1.
Proof.
  intros Hlt Havg. unfold Scanner.bin_bit, Scanner.bin_level.
  pose proof (sum_div_le (bp - tp) (Py.slice lums tp bp)) as H.
  destruct (Z.ltb_spec
              (Py.sum (map (fun l => l / (bp - tp)) (Py.slice lums tp bp)))
              (2 * Scanner.BLACK_LUM_MAX)); [reflexivity|].
  nia.
Qed.

(** analyse gives up exactly when column 8 has no dark row. *)
Lemma no_markers_iff
  (max_edge : Py.frame -> nat) (self : Scanner.t) (now : Q)
  (arr : Py.frame) (lums : list Z) :
  arr <> [] ->
  Scanner.temp_lums arr = inr lums ->
  snd (Scanner.analyse max_edge self now arr) = inr Scanner.NoMarkers <->
  (forall i, (i < length arr)%nat ->
             ~ nth i lums 0 < Scanner.BLACK_LUM_MAX).
Proof.
  intros Hne Hl.
  rewrite (analyse_result max_edge self now arr lums Hne Hl).
  destruct (Scanner.top_bar_pixel lums (length arr)) as [t|] eqn:Ht.
  - destruct (Scanner.bottom_bar_pixel lums (length arr)) as [b|] eqn:Hb.
    + split.
      * destruct (Py.column arr (Scanner.scan_column (max_edge arr)));
          discriminate.
      * intros Hall. exfalso.
        apply first_up_some in Ht. destruct Ht as (Hk & Hd & _).
        apply is_dark_iff in Hd. apply (Hall t); [lia | exact Hd].
    + split; [|reflexivity]. intros _ i Hi.
      apply is_dark_false.
      exact (proj1 (first_down_none _ _) Hb i Hi).
  - split; [|reflexivity]. intros _ i Hi.
    apply is_dark_false.
    apply (proj1 (first_up_none _ _ _) Ht i). lia.
Qed.

(** C6: calibration takes as top marker the first row, counted from row 0,
    whose column-8 luminance is strictly below BLACK_LUM_MAX, and as bottom
    marker the first such row counted from the last row upwards; analyse
    gives up with "couldn't find top/bottom!" exactly when no row is below
    the threshold. *)
Theorem C6_marker_search
  (max_edge : Py.frame -> nat) (self : Scanner.t) (now : Q)
  (arr : Py.frame) (lums : list Z) :
  arr <> [] ->
  Scanner.temp_lums arr = inr lums ->
  (forall top,
      Scanner.top_bar_pixel lums (length arr) = Some top <->
      (top < length arr)%nat /\
      nth top lums 0 < Scanner.BLACK_LUM_MAX /\
      (forall j, (j < top)%nat -> ~ nth j lums 0 < Scanner.BLACK_LUM_MAX)) /\
  (forall bottom,
      Scanner.bottom_bar_pixel lums (length arr) = Some bottom <->
      (bottom < length arr)%nat /\
      nth bottom lums 0 < Scanner.BLACK_LUM_MAX /\
      (forall j, (bottom < j < length arr)%nat ->
                 ~ nth j lums 0 < Scanner.BLACK_LUM_MAX)) /\
  (snd (Scanner.analyse max_edge self now arr) = inr Scanner.NoMarkers <->
   (forall i, (i < length arr)%nat ->
              ~ nth i lums 0 < Scanner.BLACK_LUM_MAX)).
Proof.
  intros Hne Hl. split; [|split].
  - intros top. unfold Scanner.top_bar_pixel. rewrite first_up_some.
    rewrite is_dark_iff. split.
    + intros (Hk & Hd & Hmin). repeat split; auto; try lia.
      intros j Hj. apply is_dark_false, Hmin. lia.
    + intros (Hk & Hd & Hmin). repeat split; auto; try lia.
      intros j Hj. apply is_dark_false, Hmin. lia.
  - intros bottom. unfold Scanner.bottom_bar_pixel. rewrite first_down_some.
    rewrite is_dark_iff. split.
    + intros (Hk & Hd & Hmax). repeat split; auto.
      intros j Hj. apply is_dark_false, Hmax. lia.
    + intros (Hk & Hd & Hmax). repeat split; auto.
      intros j Hj. apply is_dark_false, Hmax. lia.
  - apply no_markers_iff; assumption.
Qed.

Lemma C6_marker_search_witness :
  Frames.one_apart <> [] /\
  Scanner.temp_lums Frames.one_apart
  = inr (map Py.channel_sum
             (Frames.rows (repeat Frames.white 5
                           ++ [Frames.black; Frames.black]))) /\
  Scanner.top_bar_pixel
    (map Py.channel_sum
         (Frames.rows (repeat Frames.white 5 ++ [Frames.black; Frames.black])))
    (length Frames.one_apart) = Some 5%nat.
Proof.
  assert (Hne : Frames.one_apart <> []) by discriminate.
  assert (Hl : Scanner.temp_lums Frames.one_apart
               = inr (map Py.channel_sum
                          (Frames.rows (repeat Frames.white 5
                                        ++ [Frames.black; Frames.black]))))
    by (vm_compute; reflexivity).
  split; [exact Hne | split; [exact Hl|]].
  apply (proj1 (C6_marker_search (fun _ => 12%nat) (Scanner.Self [] 0) 0
                                 Frames.one_apart _ Hne Hl)).
  split; [vm_compute; lia | split].
  - vm_compute. reflexivity.
  - intros j Hj.
    do 5 (destruct j as [|j]; [vm_compute; discriminate|]). lia.
Defined.

(** ** Bin boundaries in doubles *)

Lemma wB_value : wB = 9223372036854775808.
Proof. reflexivity. Qed.

Lemma to_Z_int_of_nat (n : nat) :
  (n < 320)%nat -> Uint63.to_Z (F64.int_of_nat n) = Z.of_nat n.
Proof.
  intros H. unfold F64.int_of_nat. rewrite of_Z_spec.
  apply Z.mod_small. rewrite wB_value. lia.
Qed.

Lemma int_of_nat_succ (n : nat) :
  F64.int_of_nat (S n) = (F64.int_of_nat n + 1)%uint63.
Proof.
  apply to_Z_inj. unfold F64.int_of_nat.
  rewrite add_spec, !of_Z_spec, to_Z_1, Nat2Z.inj_succ.
  unfold Z.succ. rewrite Zplus_mod_idemp_l. reflexivity.
Qed.

Lemma all_from_spec (f : int -> bool) (n j k : nat) :
  Layout.all_from n (F64.int_of_nat j) f = true ->
  (k < n)%nat ->
  f (F64.int_of_nat (j + k)) = true.
Proof.
  revert j k. induction n as [|n IH]; intros j k Hall Hk; [lia|].
  cbn [Layout.all_from] in Hall. apply andb_prop in Hall.
  destruct Hall as [Hj Hrest].
  destruct k as [|k].
  - rewrite Nat.add_0_r. exact Hj.
  - rewrite <- int_of_nat_succ in Hrest.
    replace (j + S k)%nat with (S j + k)%nat by lia.
    apply IH; [exact Hrest | lia].
Qed.

Lemma all_markers_spec (f : int -> int -> bool) (top bottom : nat) :
  Layout.all_markers f = true ->
  (top <= bottom < 300)%nat ->
  f (F64.int_of_nat top) (F64.int_of_nat bottom) = true.
Proof.
  intros Hall [Hle Hlt]. unfold Layout.all_markers in Hall.
  pose proof (all_from_spec _ 300 0 top Hall ltac:(lia)) as Ht.
  cbn beta in Ht.
  pose proof (all_from_spec _ 300 0 bottom Ht ltac:(lia)) as Hb.
  cbn beta in Hb. rewrite !Nat.add_0_l in Hb.
  destruct (F64.int_of_nat bottom <? F64.int_of_nat top)%uint63 eqn:Hcmp;
    [|exact Hb].
  apply ltb_spec in Hcmp.
  rewrite !to_Z_int_of_nat in Hcmp by lia. lia.
Qed.

Lemma hd_to_Z (l : list int) :
  hd 0 (map Uint63.to_Z l) = Uint63.to_Z (hd 0%uint63 l).
Proof. destruct l; reflexivity. Qed.

Lemma last_to_Z (l : list int) :
  last (map Uint63.to_Z l) 0 = Uint63.to_Z (last l 0%uint63).
Proof.
  induction l as [|a [|b l] IH]; try reflexivity.
  exact IH.
Qed.

Lemma nth_to_Z (l : list int) (i : nat) :
  nth i (map Uint63.to_Z l) 0 = Uint63.to_Z (nth i l 0%uint63).
Proof. change 0 with (Uint63.to_Z 0%uint63) at 1. apply map_nth. Qed.

Lemma nondecreasing_nth (l : list int) :
  Layout.nondecreasing l = true ->
  forall i, (S i < length l)%nat ->
            Uint63.to_Z (nth i l 0%uint63)
            <= Uint63.to_Z (nth (S i) l 0%uint63).
Proof.
  induction l as [|a [|b l] IH]; intros H i Hi; simpl in Hi; try lia.
  change (Layout.nondecreasing (a :: b :: l))
    with ((a <=? b)%uint63 && Layout.nondecreasing (b :: l)) in H.
  apply andb_prop in H. destruct H as [Hab Hrest].
  destruct i as [|i].
  - apply leb_spec. exact Hab.
  - apply (IH Hrest i). simpl. lia.
Qed.

Lemma increasing_nth (l : list int) :
  Layout.increasing l = true ->
  forall i, (S i < length l)%nat ->
            Uint63.to_Z (nth i l 0%uint63)
            < Uint63.to_Z (nth (S i) l 0%uint63).
Proof.
  induction l as [|a [|b l] IH]; intros H i Hi; simpl in Hi; try lia.
  change (Layout.increasing (a :: b :: l))
    with ((a <? b)%uint63 && Layout.increasing (b :: l)) in H.
  apply andb_prop in H. destruct H as [Hab Hrest].
  destruct i as [|i].
  - apply ltb_spec. exact Hab.
  - apply (IH Hrest i). simpl. lia.
Qed.

Lemma last_nth (l : list Z) : last l 0 = nth (length l - 1) l 0.
Proof.
  induction l as [|a [|b l] IH]; try reflexivity.
  change (last (a :: b :: l) 0) with (last (b :: l) 0). rewrite IH.
  simpl. rewrite Nat.sub_0_r. reflexivity.
Qed.

Lemma steps_le (l : list Z) :
  (forall i, (S i < length l)%nat -> nth i l 0 <= nth (S i) l 0) ->
  forall i j, (i <= j < length l)%nat -> nth i l 0 <= nth j l 0.
Proof.
  intros Hstep i j. induction j as [|j IH]; intros Hij.
  - replace i with 0%nat by lia. lia.
  - destruct (Nat.eq_dec i (S j)) as [->|Hne]; [lia|].
    specialize (IH ltac:(lia)). specialize (Hstep j ltac:(lia)). lia.
Qed.

(** The test decides the property, for marker rows of a camera frame. *)
Lemma partitionb_spec (ROWS top bottom : nat) (px : list int) :
  (top <= bottom < ROWS)%nat -> (ROWS <= 300)%nat ->
  Layout.partitionb (F64.int_of_nat top) (F64.int_of_nat bottom) px = true ->
  Layout.partition ROWS top bottom (map Uint63.to_Z px).
Proof.
  intros Hm HR H. unfold Layout.partitionb in H.
  apply andb_prop in H. destruct H as [H Hinc].
  apply andb_prop in H. destruct H as [H Hnd].
  apply andb_prop in H. destruct H as [Hhd Hlast].
  apply eqb_spec in Hhd. apply eqb_spec in Hlast.
  assert (Hfirst : hd 0 (map Uint63.to_Z px) = Z.of_nat top)
    by (rewrite hd_to_Z, Hhd; apply to_Z_int_of_nat; lia).
  assert (Hend : last (map Uint63.to_Z px) 0 = Z.of_nat bottom)
    by (rewrite last_to_Z, Hlast; apply to_Z_int_of_nat; lia).
  assert (Hstep : forall i, (S i < length (map Uint63.to_Z px))%nat ->
                            nth i (map Uint63.to_Z px) 0
                            <= nth (S i) (map Uint63.to_Z px) 0).
  { intros i Hi. rewrite length_map in Hi. rewrite !nth_to_Z.
    apply nondecreasing_nth; assumption. }
  split; [exact Hfirst | split; [exact Hend | split; [|split]]].
  - intros i Hi.
    pose proof (steps_le _ Hstep 0 i ltac:(lia)) as Hlo.
    pose proof (steps_le _ Hstep i (length (map Uint63.to_Z px) - 1)
                         ltac:(lia)) as Hhi.
    rewrite <- last_nth, Hend in Hhi.
    assert (H0 : nth 0 (map Uint63.to_Z px) 0 = Z.of_nat top).
    { rewrite <- Hfirst. destruct (map Uint63.to_Z px); reflexivity. }
    lia.
  - exact Hstep.
  - intros Hwide i Hi. rewrite length_map in Hi. rewrite !nth_to_Z.
    apply increasing_nth; [|exact Hi].
    destruct (F64.int_of_nat top + 20 <=? F64.int_of_nat bottom)%uint63
      eqn:Hcmp; [exact Hinc|].
    exfalso. apply Bool.not_true_iff_false in Hcmp. apply Hcmp.
    apply leb_spec. rewrite add_spec, !to_Z_int_of_nat by lia.
    change (Uint63.to_Z 20) with 20.
    rewrite Z.mod_small by (rewrite wB_value; lia). lia.
Qed.

Lemma wide_markers (top bottom : nat) :
  (top + 20 <= bottom)%nat -> (top <= bottom < 300)%nat ->
  (F64.int_of_nat top + 20 <=? F64.int_of_nat bottom)%uint63 = true.
Proof.
  intros Hw Hm. apply leb_spec. rewrite add_spec, !to_Z_int_of_nat by lia.
  change (Uint63.to_Z 20) with 20.
  rewrite Z.mod_small by (rewrite wB_value; lia). lia.
Qed.

Lemma same_marker (top bottom : nat) :
  (top <= bottom < 300)%nat ->
  (F64.int_of_nat top =? F64.int_of_nat bottom)%uint63 = true ->
  top = bottom.
Proof.
  intros Hm H. apply eqb_spec in H.
  apply (f_equal Uint63.to_Z) in H.
  rewrite !to_Z_int_of_nat in H by lia. lia.
Qed.

(** Every pair of marker rows of a camera frame, by evaluation. *)
Lemma scanner_layouts : Layout.all_markers Layout.scanner_ok = true.
Proof. vm_compute. reflexivity. Qed.

Lemma threaded_layouts : Layout.all_markers Layout.threaded_ok = true.
Proof. vm_compute. reflexivity. Qed.

Lemma threaded2_layouts : Layout.all_markers Layout.threaded2_ok = true.
Proof. vm_compute. reflexivity. Qed.

Lemma scanner_layout (ROWS top bottom : nat) :
  (top <= bottom < ROWS)%nat -> (ROWS <= 300)%nat ->
  length (Scanner.bin_pixels64 top bottom) = 21%nat /\
  Layout.partition ROWS top bottom (Scanner.bin_pixels64 top bottom).
Proof.
  intros Hm HR.
  pose proof (all_markers_spec _ top bottom scanner_layouts ltac:(lia)) as H.
  unfold Layout.scanner_ok in H. apply andb_prop in H.
  destruct H as [H _]. apply andb_prop in H.
  destruct H as [Hlen Hpart]. apply Nat.eqb_eq in Hlen.
  unfold Scanner.bin_pixels64. rewrite length_map.
  split; [exact Hlen|]. apply partitionb_spec; assumption.
Qed.

Lemma threaded_layout (ROWS top bottom : nat) :
  (top <= bottom < ROWS)%nat -> (ROWS <= 300)%nat ->
  ((top < bottom)%nat ->
   exists px,
     Threaded.calibrated_pixels top bottom = inr px /\
     (length px = 20%nat \/ length px = 21%nat) /\
     ((top + 20 <= bottom)%nat -> length px = 21%nat) /\
     Layout.partition ROWS top bottom px) /\
  (top = bottom ->
   Threaded.calibrated_pixels top bottom = inl Py.ZeroDivisionError).
Proof.
  intros Hm HR.
  pose proof (all_markers_spec _ top bottom threaded_layouts ltac:(lia)) as H.
  unfold Layout.threaded_ok in H. unfold Threaded.calibrated_pixels.
  destruct (Threaded.boundaries64 (F64.int_of_nat top)
                                  (F64.int_of_nat bottom)) as [e|px].
  - assert (He : e = Py.ZeroDivisionError /\
                 (F64.int_of_nat top =? F64.int_of_nat bottom)%uint63 = true)
      by (destruct e; try discriminate H; split; [reflexivity | exact H]).
    destruct He as [-> Heq].
    pose proof (same_marker top bottom ltac:(lia) Heq).
    split; [lia | reflexivity].
  - apply andb_prop in H. destruct H as [H Hlen].
    apply andb_prop in H. destruct H as [Hne Hpart].
    split.
    + intros _. exists (map Uint63.to_Z px).
      split; [reflexivity|]. rewrite length_map.
      split; [|split].
      * destruct (F64.int_of_nat top + 20 <=? F64.int_of_nat bottom)%uint63.
        -- right. apply Nat.eqb_eq. exact Hlen.
        -- apply orb_prop in Hlen.
           destruct Hlen as [Hl|Hl]; apply Nat.eqb_eq in Hl; auto.
      * intros Hw. rewrite (wide_markers top bottom Hw ltac:(lia)) in Hlen.
        apply Nat.eqb_eq. exact Hlen.
      * apply partitionb_spec; assumption.
    + intros ->. exfalso.
      assert (Heq : (F64.int_of_nat bottom =? F64.int_of_nat bottom)%uint63
                    = true) by (apply eqb_spec; reflexivity).
      rewrite Heq in Hne. discriminate Hne.
Qed.

Lemma threaded2_layout (ROWS top bottom : nat) :
  (top <= bottom < ROWS)%nat -> (ROWS <= 300)%nat ->
  ((top < bottom)%nat ->
   exists px,
     Threaded2.bin_pixels64 top bottom = inr px /\
     length px = 21%nat /\
     Layout.partition ROWS top bottom px) /\
  (top = bottom ->
   Threaded2.bin_pixels64 top bottom = inl Py.ZeroDivisionError).
Proof.
  intros Hm HR.
  pose proof (all_markers_spec _ top bottom threaded2_layouts ltac:(lia)) as H.
  unfold Layout.threaded2_ok in H. unfold Threaded2.bin_pixels64.
  destruct (Threaded2.boundaries64 (F64.int_of_nat top)
                                   (F64.int_of_nat bottom)) as [e|px].
  - assert (He : e = Py.ZeroDivisionError /\
                 (F64.int_of_nat top =? F64.int_of_nat bottom)%uint63 = true)
      by (destruct e; try discriminate H; split; [reflexivity | exact H]).
    destruct He as [-> Heq].
    pose proof (same_marker top bottom ltac:(lia) Heq).
    split; [lia | reflexivity].
  - apply andb_prop in H. destruct H as [H _].
    apply andb_prop in H. destruct H as [H Hlen].
    apply andb_prop in H. destruct H as [Hne Hpart].
    split.
    + intros _. exists (map Uint63.to_Z px).
      split; [reflexivity|]. rewrite length_map.
      split; [apply Nat.eqb_eq; exact Hlen|].
      apply partitionb_spec; assumption.
    + intros ->. exfalso.
      assert (Heq : (F64.int_of_nat bottom =? F64.int_of_nat bottom)%uint63
                    = true) by (apply eqb_spec; reflexivity).
      rewrite Heq in Hne. discriminate Hne.
Qed.

(** C4, as amended: for the two marker rows of a frame of at most 300 rows
    (the camera delivers 300), with the arithmetic in doubles as the
    programs perform it.  g2scanner.py stores exactly 21 boundary rows.
    g2scanner_threaded.py stores 21 of them, or 20 when the last rounded
    sample is the bottom marker row already (it is 21 whenever the markers
    are at least 20 rows apart), and raises when both markers are on one
    row.  In both programs the first boundary is the top marker row, the
    last is the bottom marker row, all lie within [0, rowCount), and after
    rounding they never decrease; they are strictly increasing when the
    markers are at least 20 rows apart. *)
Theorem C4_bin_layout (dark : nat -> bool) (ROWS top bottom : nat) :
  (ROWS <= 300)%nat ->
  Py.first_up dark 0 ROWS = Some top ->
  Py.first_down dark ROWS = Some bottom ->
  (length (Scanner.bin_pixels64 top bottom) = 21%nat /\
   Layout.partition ROWS top bottom (Scanner.bin_pixels64 top bottom)) /\
  ((top < bottom)%nat ->
   exists px,
     Threaded.calibrated_pixels top bottom = inr px /\
     (length px = 20%nat \/ length px = 21%nat) /\
     ((top + 20 <= bottom)%nat -> length px = 21%nat) /\
     Layout.partition ROWS top bottom px) /\
  (top = bottom ->
   Threaded.calibrated_pixels top bottom = inl Py.ZeroDivisionError).
Proof.
  intros HR Ht Hb.
  pose proof (markers_ordered dark ROWS top bottom Ht Hb) as Hm.
  split; [apply scanner_layout; assumption|].
  apply (threaded_layout ROWS); assumption.
Qed.

Lemma C4_bin_layout_witness :
  Scanner.top_bar_pixel
    (map Py.channel_sum
         (Frames.rows (repeat Frames.white 10 ++ [Frames.black]
                       ++ repeat Frames.white 239 ++ [Frames.black])))
    300 = Some 10%nat /\
  Scanner.bottom_bar_pixel
    (map Py.channel_sum
         (Frames.rows (repeat Frames.white 10 ++ [Frames.black]
                       ++ repeat Frames.white 239 ++ [Frames.black])))
    300 = Some 250%nat /\
  length (Scanner.bin_pixels64 10 250) = 21%nat /\
  hd 0 (Scanner.bin_pixels64 10 250) = 10 /\
  last (Scanner.bin_pixels64 10 250) 0 = 250 /\
  exists px, Threaded.calibrated_pixels 10 250 = inr px /\
             length px = 21%nat.
Proof.
  assert (Ht : Scanner.top_bar_pixel
                 (map Py.channel_sum
                      (Frames.rows (repeat Frames.white 10 ++ [Frames.black]
                                    ++ repeat Frames.white 239
                                    ++ [Frames.black])))
                 300 = Some 10%nat) by (vm_compute; reflexivity).
  assert (Hb : Scanner.bottom_bar_pixel
                 (map Py.channel_sum
                      (Frames.rows (repeat Frames.white 10 ++ [Frames.black]
                                    ++ repeat Frames.white 239
                                    ++ [Frames.black])))
                 300 = Some 250%nat) by (vm_compute; reflexivity).
  split; [exact Ht | split; [exact Hb|]].
  destruct (C4_bin_layout _ 300 10 250 (le_n 300) Ht Hb)
    as ((H21 & Hfirst & Hlast & _) & Hthr & _).
  split; [exact H21 | split; [exact Hfirst | split; [exact Hlast|]]].
  destruct (Hthr ltac:(lia)) as (px & Hpx & _ & Hwide & _).
  exists px. split; [exact Hpx | apply Hwide; lia].
Defined.

(** C4 as stated fails: with dark rows 2 and 12 only, calibration succeeds;
    in g2scanner.py the second and third boundary are both row 3, and
    g2scanner_threaded.py stores 20 boundaries, not 21, with the same
    repetitions. *)
Lemma C4_not_strictly_increasing :
  exists lums,
    Scanner.temp_lums Frames.ten_apart = inr lums /\
    Scanner.top_bar_pixel lums (length Frames.ten_apart) = Some 2%nat /\
    Scanner.bottom_bar_pixel lums (length Frames.ten_apart) = Some 12%nat /\
    nth 1 (Scanner.bin_pixels64 2 12) 0 = 3 /\
    nth 2 (Scanner.bin_pixels64 2 12) 0 = 3 /\
    Threaded.calibrated_pixels 2 12
    = inr [2; 3; 3; 4; 4; 5; 5; 6; 6; 7; 7; 8; 8; 9; 9; 10; 10; 11; 11; 12].
Proof.
  eexists. split; [vm_compute; reflexivity|].
  repeat split; vm_compute; reflexivity.
Qed.

(** C5, as amended: no boundary is nudged.  When the markers are fewer than
    20 rows apart two neighbouring boundaries coincide; every bin has
    positive height exactly when the markers are at least 20 rows apart.
    Decode still never divides by zero: a bin of height zero has an empty
    row span, nothing is divided, and the bin is reported dark. *)
Theorem C5_no_nudge (lums : list Z) (ROWS top bottom : nat) :
  Scanner.top_bar_pixel lums ROWS = Some top ->
  Scanner.bottom_bar_pixel lums ROWS = Some bottom ->
  ((bottom < top + 20)%nat ->
   exists i, (i < 20)%nat /\
             nth i (Scanner.bin_pixels top bottom) 0
             = nth (S i) (Scanner.bin_pixels top bottom) 0) /\
  ((top + 20 <= bottom)%nat ->
   forall i, (i < 20)%nat ->
             0 < nth (S i) (Scanner.bin_pixels top bottom) 0
                 - nth i (Scanner.bin_pixels top bottom) 0) /\
  (forall (scan : list Z) (i : nat),
      (i < 20)%nat ->
      (Py.slice scan (nth i (Scanner.bin_pixels top bottom) 0)
                     (nth (S i) (Scanner.bin_pixels top bottom) 0) <> [] ->
       0 < nth (S i) (Scanner.bin_pixels top bottom) 0
           - nth i (Scanner.bin_pixels top bottom) 0) /\
      (nth i (Scanner.bin_pixels top bottom) 0
       = nth (S i) (Scanner.bin_pixels top bottom) 0 ->
       nth i (Scanner.bin_bits scan (Scanner.bin_pixels top bottom)) 0 = 1)).
Proof.
  intros Ht Hb.
  destruct (markers_ordered _ _ _ _ Ht Hb) as [Hle Hlt].
  split; [|split].
  - intros Hnear. apply bin_pixels_flat. lia.
  - intros Hwide i Hi.
    pose proof (bin_pixels_strict top bottom i Hwide Hi). lia.
  - intros scan i Hi. split.
    + intros Hne.
      destruct (Z_lt_le_dec (nth i (Scanner.bin_pixels top bottom) 0)
                            (nth (S i) (Scanner.bin_pixels top bottom) 0))
        as [|Hge]; [lia|].
      exfalso. apply Hne. apply slice_empty. exact Hge.
    + intros Heq.
      rewrite bin_bits_nth by (rewrite bin_pixels_length; lia).
      unfold Scanner.bin_bit, Scanner.bin_level.
      rewrite slice_empty by lia. reflexivity.
Qed.

Lemma C5_no_nudge_witness :
  Scanner.top_bar_pixel
    (map Py.channel_sum
         (Frames.rows (repeat Frames.white 5 ++ [Frames.black; Frames.black])))
    300 = Some 5%nat /\
  Scanner.bottom_bar_pixel
    (map Py.channel_sum
         (Frames.rows (repeat Frames.white 5 ++ [Frames.black; Frames.black])))
    300 = Some 6%nat /\
  exists i, (i < 20)%nat /\
            nth i (Scanner.bin_pixels 5 6) 0
            = nth (S i) (Scanner.bin_pixels 5 6) 0.
Proof.
  assert (Ht : Scanner.top_bar_pixel
                 (map Py.channel_sum
                      (Frames.rows (repeat Frames.white 5
                                    ++ [Frames.black; Frames.black])))
                 300 = Some 5%nat) by (vm_compute; reflexivity).
  assert (Hb : Scanner.bottom_bar_pixel
                 (map Py.channel_sum
                      (Frames.rows (repeat Frames.white 5
                                    ++ [Frames.black; Frames.black])))
                 300 = Some 6%nat) by (vm_compute; reflexivity).
  split; [exact Ht | split; [exact Hb|]].
  apply (proj1 (C5_no_nudge _ _ _ _ Ht Hb)). lia.
Defined.

(** C5 as stated fails: with the markers on rows 5 and 6 calibration
    succeeds, nothing is nudged, and the first two boundaries are both row
    5, a bin of height zero. *)
Lemma C5_boundaries_collapse :
  exists lums bits,
    Scanner.temp_lums Frames.one_apart = inr lums /\
    Scanner.top_bar_pixel lums (length Frames.one_apart) = Some 5%nat /\
    Scanner.bottom_bar_pixel lums (length Frames.one_apart) = Some 6%nat /\
    snd (Scanner.analyse (fun _ => 12%nat) (Scanner.Self [] 0) 0
                         Frames.one_apart)
    = inr (Scanner.Scanned 5 6
             [5; 5; 5; 5; 5; 5; 5; 5; 5; 5; 6; 6; 6; 6; 6; 6; 6; 6; 6; 6; 6]
             8 bits 1) /\
    nth 0 (Scanner.bin_pixels 5 6) 0 = nth 1 (Scanner.bin_pixels 5 6) 0.
Proof.
  eexists. eexists. split; [vm_compute; reflexivity|].
  repeat split; vm_compute; reflexivity.
Qed.

(** C3 fails on g2scanner_threaded2.py: a processor is signalled with the
    frame [Frames.ten_apart], dark rows 2 and 12.  Calibration succeeds and
    stores 21 boundaries (the same in exact arithmetic and in doubles); the
    first bin is the single row 2, [array[2:3][8]] asks that slice of one
    row for its row 8, and the decode loop raises IndexError before the
    first bit: no pattern is printed and the thread ends.  On the same
    frame analyse of g2scanner.py delivers its 20 bits. *)
Theorem C3_decode_raises :
  Threaded2.bin_pixels
    (fst (Threaded2._calibrate (Schedules.signalled Frames.ten_apart)))
  = [2; 3; 3; 4; 4; 5; 5; 6; 6; 7; 7; 8; 8; 9; 9; 10; 10; 11; 11; 12; 12] /\
  snd (Threaded2._calibrate (Schedules.signalled Frames.ten_apart))
  = inr tt /\
  Threaded2.bin_pixels64 2 12
  = inr [2; 3; 3; 4; 4; 5; 5; 6; 6; 7; 7; 8; 8; 9; 9; 10; 10; 11; 11; 12; 12]
  /\
  length (Py.slice Frames.ten_apart 2 3) = 1%nat /\
  Threaded2.bin_average Frames.ten_apart 8 2 3 = inl Py.IndexError /\
  snd (fst (Threaded2.cycle 30 0 0 (Schedules.signalled Frames.ten_apart)
                            Schedules.fresh))
  = Threaded2.Died Py.IndexError /\
  snd (Threaded2.cycle 30 0 0 (Schedules.signalled Frames.ten_apart)
                       Schedules.fresh) = None /\
  Threaded2.bit_pattern
    (fst (fst (fst (Threaded2.cycle 30 0 0
                      (Schedules.signalled Frames.ten_apart)
                      Schedules.fresh)))) = [] /\
  exists bits,
    Scanner.decoded
      (snd (Scanner.analyse (fun _ => 12%nat) (Scanner.Self [] 0) 0
                            Frames.ten_apart)) = Some bits /\
    length bits = 20%nat.
Proof.
  repeat split; try (vm_compute; reflexivity).
  eexists. split; vm_compute; reflexivity.
Qed.

(** C7 fails on the code: in the frame [Frames.tie] the second bin is rows
    2 and 3 with luminance 199 and 201.  Their average is exactly 200, the
    threshold, so the bit should be 0; the code divides each row by the
    row count with integer division, 99 + 100 = 199 < 200, and reports 1. *)
Theorem C7_truncated_average :
  exists bits,
    Scanner.decoded
      (snd (Scanner.analyse (fun _ => 12%nat) (Scanner.Self [] 0) 0
                            Frames.tie)) = Some bits /\
    nth 1 (Scanner.bin_pixels 0 40) 0 = 2 /\
    nth 2 (Scanner.bin_pixels 0 40) 0 = 4 /\
    Py.slice (map Py.channel_sum (Frames.rows Frames.tie_rows)) 2 4
    = [199; 201] /\
    Py.sum [199; 201] = 2 * Scanner.BLACK_LUM_MAX * (4 - 2) /\
    Scanner.bin_level (map Py.channel_sum (Frames.rows Frames.tie_rows)) 2 4
    = 199 /\
    nth 1 bits 0 = 1.
Proof.
  eexists. split; [vm_compute; reflexivity|].
  repeat split; vm_compute; reflexivity.
Qed.

(** C8, as amended: when no row of column 8 is below the dark threshold the
    frame is discarded (analyse returns after the message, no pattern is
    decoded), but the frame has already been counted: num_scans is
    one higher and the time of the frame is appended to scan_times. *)
Theorem C8_skipped_frame_is_counted
  (max_edge : Py.frame -> nat) (self : Scanner.t) (now : Q)
  (arr : Py.frame) (lums : list Z) :
  arr <> [] ->
  Scanner.temp_lums arr = inr lums ->
  (forall i, (i < length arr)%nat ->
             Scanner.BLACK_LUM_MAX <= nth i lums 0) ->
  Scanner.analyse max_edge self now arr
  = (Scanner.Self (Scanner.scan_times self ++ [now])
                  (S (Scanner.num_scans self)),
     inr Scanner.NoMarkers).
Proof.
  intros Hne Hl Hbright.
  rewrite (surjective_pairing (Scanner.analyse max_edge self now arr)).
  rewrite analyse_state. f_equal.
  apply (no_markers_iff max_edge self now arr lums Hne Hl).
  intros i Hi. specialize (Hbright i Hi). lia.
Qed.

Lemma C8_skipped_frame_is_counted_witness :
  Frames.blank <> [] /\
  Scanner.temp_lums Frames.blank
  = inr (map Py.channel_sum (Frames.rows [])) /\
  Scanner.analyse (fun _ => 12%nat) (Scanner.Self [] 7) 0 Frames.blank
  = (Scanner.Self [0%Q] 8, inr Scanner.NoMarkers).
Proof.
  assert (Hne : Frames.blank <> []) by discriminate.
  assert (Hl : Scanner.temp_lums Frames.blank
               = inr (map Py.channel_sum (Frames.rows [])))
    by (vm_compute; reflexivity).
  split; [exact Hne | split; [exact Hl|]].
  apply (C8_skipped_frame_is_counted (fun _ => 12%nat) (Scanner.Self [] 7) 0
                                     Frames.blank _ Hne Hl).
  intros i Hi.
  change (Frames.rows []) with (repeat Frames.white 300).
  rewrite map_repeat.
  destruct (nth_in_or_default i (repeat (Py.channel_sum Frames.white) 300) 0)
    as [Hin|Hd].
  - apply repeat_spec in Hin. rewrite Hin. vm_compute. discriminate.
  - exfalso. revert Hd. rewrite nth_repeat_lt.
    + vm_compute. discriminate.
    + exact Hi.
Defined.

(** C8 as stated fails: a frame without any dark pixel is skipped, and the
    scan counter has advanced from 0 to 1 all the same. *)
Lemma C8_counter_advances :
  snd (Scanner.analyse (fun _ => 12%nat) (Scanner.Self [] 0) 0 Frames.blank)
  = inr Scanner.NoMarkers /\
  Scanner.num_scans
    (fst (Scanner.analyse (fun _ => 12%nat) (Scanner.Self [] 0) 0
                          Frames.blank)) = 1%nat /\
  Scanner.num_scans
    (fst (Scanner.analyse (fun _ => 12%nat) (Scanner.Self [] 0) 0
                          Frames.blank))
  <> Scanner.num_scans (Scanner.Self [] 0).
Proof.
  split; [vm_compute; reflexivity|].
  split; [reflexivity | discriminate].
Qed.

Lemma temp_lums_column (arr : Py.frame) (lums : list Z) :
  Scanner.temp_lums arr = inr lums ->
  exists col8, Py.column arr 8 = inr col8 /\ lums = map Py.channel_sum col8.
Proof.
  unfold Scanner.temp_lums.
  destruct (Py.column arr 8) as [e|col8]; simpl; [discriminate|].
  intros [= <-]. exists col8. split; reflexivity.
Qed.

Lemma scan_column_eight (m : nat) :
  Scanner.scan_column m = 8%nat <-> m = 4%nat \/ m = 12%nat.
Proof.
  unfold Scanner.scan_column.
  destruct (Nat.ltb_spec 9 m); lia.
Qed.

(** C10, as amended: in g2scanner.py calibration and decode compute the
    luminance of a pixel with one formula, the plain sum of its three
    channels, so equal pixels get equal luminance in both phases.  The
    column is not the same in general: calibration always samples column 8,
    decode samples the column chosen from the edge detector, which is
    column 8 exactly when the strongest edge is in column 4 or 12; in that
    case decode works on the very luminance list of calibration. *)
Theorem C10_one_formula
  (max_edge : Py.frame -> nat) (self : Scanner.t) (now : Q)
  (arr : Py.frame) (t b : nat) (px : list Z) (sc : nat) (bits : list Z)
  (n : nat) :
  snd (Scanner.analyse max_edge self now arr)
  = inr (Scanner.Scanned t b px sc bits n) ->
  exists col8 col,
    Py.column arr 8 = inr col8 /\
    Scanner.top_bar_pixel (map Py.channel_sum col8) (length arr) = Some t /\
    Scanner.bottom_bar_pixel (map Py.channel_sum col8) (length arr) = Some b /\
    Py.column arr sc = inr col /\
    bits = Scanner.bin_bits (map Py.channel_sum col) px /\
    (sc = 8%nat <-> max_edge arr = 4%nat \/ max_edge arr = 12%nat) /\
    (sc = 8%nat -> col = col8).
Proof.
  intros H. apply analyse_scanned in H.
  destruct H as (lums & col & Hl & Ht & Hb & Hpx & Hsc & Hc & Hbits & _).
  destruct (temp_lums_column arr lums Hl) as (col8 & Hc8 & ->).
  exists col8, col. repeat split; auto.
  - intros H8. apply scan_column_eight. congruence.
  - intros Hm. rewrite Hsc. apply scan_column_eight. exact Hm.
  - intros H8. rewrite H8 in Hc. congruence.
Qed.

Lemma C10_one_formula_witness :
  exists bits col8 col,
    snd (Scanner.analyse (fun _ => 12%nat) (Scanner.Self [] 0) 0 Frames.wide)
    = inr (Scanner.Scanned 10 250 (Scanner.bin_pixels 10 250) 8 bits 1) /\
    Py.column Frames.wide 8 = inr col8 /\
    Py.column Frames.wide 8 = inr col /\
    col = col8.
Proof.
  assert (H : snd (Scanner.analyse (fun _ => 12%nat) (Scanner.Self [] 0) 0
                                   Frames.wide)
              = inr (Scanner.Scanned 10 250 (Scanner.bin_pixels 10 250) 8
                       (Scanner.bin_bits
                          (map Py.channel_sum
                               (Frames.rows
                                  (repeat Frames.white 10 ++ [Frames.black]
                                   ++ repeat Frames.white 239
                                   ++ [Frames.black])))
                          (Scanner.bin_pixels 10 250)) 1))
    by (vm_compute; reflexivity).
  destruct (C10_one_formula _ _ _ _ _ _ _ _ _ _ H)
    as (col8 & col & Hc8 & _ & _ & Hc & _ & _ & Hsame).
  eexists. exists col8, col.
  split; [exact H | split; [exact Hc8 | split; [exact Hc|]]].
  apply Hsame. reflexivity.
Defined.

(** C10 as stated fails.  In g2scanner_threaded2.py calibration takes the
    mean of the three bytes and decode the weighted sum: a pure red pixel
    has luminance 85 in one and 76.245 in the other.  In g2scanner.py the
    columns differ: with the strongest edge in column 3, calibration reads
    column 8 and decode column 7, which in [Frames.halves] are black and
    white. *)
Lemma C10_luminance_differs :
  ~ (Threaded2.rgb_avg (Py.BGR 0 0 255) == Threaded2.luma 0 0 255)%Q /\
  (Threaded2.rgb_avg (Py.BGR 0 0 255) == 85)%Q /\
  (Threaded2.luma 0 0 255 == 76245 # 1000)%Q /\
  exists col8 col,
    Py.column Frames.halves 8 = inr col8 /\
    Py.column Frames.halves (Scanner.scan_column 3) = inr col /\
    nth 0 (map Py.channel_sum col8) 0 = 0 /\
    nth 0 (map Py.channel_sum col) 0 = 765.
Proof.
  split; [vm_compute; discriminate|].
  split; [vm_compute; reflexivity|].
  split; [vm_compute; reflexivity|].
  eexists. eexists.
  split; [vm_compute; reflexivity|].
  split; [vm_compute; reflexivity|].
  split; vm_compute; reflexivity.
Qed.

(** ** The pool of g2scanner_threaded.py *)

Lemma pop_some (A : Type) (l r : list A) (x : A) :
  Py.pop l = Some (x, r) -> l = r ++ [x].
Proof.
  unfold Py.pop. intros H.
  destruct (rev l) as [|y t] eqn:Hr; [discriminate|].
  injection H as -> <-.
  rewrite <- (rev_involutive l), Hr. reflexivity.
Qed.

Lemma pop_none (A : Type) (l : list A) :
  Py.pop l = None -> l = [].
Proof.
  unfold Py.pop. intros H.
  destruct (rev l) as [|y t] eqn:Hr; [|discriminate].
  rewrite <- (rev_involutive l), Hr. reflexivity.
Qed.

Lemma set_nth_length (A : Type) (l : list A) (i : nat) (x : A) :
  length (Py.set_nth l i x) = length l.
Proof.
  revert i. induction l as [|h t IH]; intros [|i]; simpl; auto.
Qed.

Lemma set_nth_same (A : Type) (l : list A) (i : nat) (x : A) :
  (i < length l)%nat -> nth_error (Py.set_nth l i x) i = Some x.
Proof.
  revert i. induction l as [|h t IH]; intros [|i] Hi; simpl in *;
    try lia; auto.
  apply IH. lia.
Qed.

Lemma set_nth_other (A : Type) (l : list A) (i j : nat) (x : A) :
  i <> j -> nth_error (Py.set_nth l i x) j = nth_error l j.
Proof.
  revert i j. induction l as [|h t IH]; intros [|i] [|j] Hne; simpl;
    auto; try congruence.
Qed.

Lemma count_set_nth (f : Threaded.processor -> bool)
      (l : list Threaded.processor) (i : nat) (old x : Threaded.processor) :
  nth_error l i = Some old ->
  (Threaded.count f (Py.set_nth l i x) + Threaded.b2n (f old)
   = Threaded.count f l + Threaded.b2n (f x))%nat.
Proof.
  revert i. induction l as [|h t IH]; intros [|i] H; simpl in *;
    try discriminate.
  - injection H as ->. lia.
  - specialize (IH i H). lia.
Qed.

Lemma count_zero (f : Threaded.processor -> bool)
      (l : list Threaded.processor) (i : nat) (w : Threaded.processor) :
  Threaded.count f l = 0%nat -> nth_error l i = Some w -> f w = false.
Proof.
  revert i. induction l as [|h t IH]; intros [|i] Hc H; simpl in *;
    try discriminate.
  - injection H as ->. destruct (f w); simpl in Hc; [lia | reflexivity].
  - apply (IH i); [lia | exact H].
Qed.

Lemma pending_holds (w : Threaded.processor) :
  Threaded.pending w = true -> Threaded.holds w = true.
Proof.
  unfold Threaded.pending, Threaded.holds.
  destruct (Threaded.pc w), (Threaded.event w); simpl; auto.
Qed.

Lemma count_pending_lt_holds (l : list Threaded.processor) (i : nat)
      (w : Threaded.processor) :
  nth_error l i = Some w ->
  Threaded.pending w = false -> Threaded.holds w = true ->
  (Threaded.count Threaded.pending l + 1 <= Threaded.count Threaded.holds l)%nat.
Proof.
  assert (Hle : forall l, (Threaded.count Threaded.pending l
                           <= Threaded.count Threaded.holds l)%nat).
  { intros l0. induction l0 as [|h t IH]; simpl; auto.
    pose proof (pending_holds h) as Hph.
    destruct (Threaded.pending h); simpl.
    - rewrite (Hph eq_refl). simpl. lia.
    - destruct (Threaded.holds h); simpl; lia. }
  revert i. induction l as [|h t IH]; intros [|i] H Hp Hh; simpl in *;
    try discriminate.
  - injection H as ->. rewrite Hp, Hh. simpl. specialize (Hle t). lia.
  - specialize (IH i H Hp Hh). pose proof (pending_holds h) as Hph.
    destruct (Threaded.pending h); simpl.
    + rewrite (Hph eq_refl). simpl. lia.
    + destruct (Threaded.holds h); simpl; lia.
Qed.

Lemma count_occ_seq (a n i : nat) :
  count_occ Nat.eq_dec (seq a n) i
  = if ((a <=? i) && (i <? a + n))%nat then 1%nat else 0%nat.
Proof.
  revert a. induction n as [|n IH]; intros a; simpl.
  - destruct (Nat.leb_spec a i), (Nat.ltb_spec i (a + 0)); simpl; lia.
  - destruct (Nat.eq_dec a i) as [->|Hne].
    + rewrite IH.
      destruct (Nat.leb_spec (S i) i), (Nat.leb_spec i i),
               (Nat.ltb_spec i (i + S n)); simpl; lia.
    + rewrite IH.
      destruct (Nat.leb_spec (S a) i), (Nat.leb_spec a i),
               (Nat.ltb_spec i (S a + n)), (Nat.ltb_spec i (a + S n));
        simpl; lia.
Qed.

Lemma count_repeat_false (f : Threaded.processor -> bool)
      (w : Threaded.processor) (n : nat) :
  f w = false -> Threaded.count f (repeat w n) = 0%nat.
Proof.
  intros H. induction n as [|n IH]; simpl; auto. rewrite H, IH. reflexivity.
Qed.

Lemma nth_error_repeat_some (A : Type) (x y : A) (n i : nat) :
  nth_error (repeat x n) i = Some y -> y = x.
Proof.
  intros H. apply nth_error_In, repeat_spec in H. exact H.
Qed.

Lemma pool_invariant_init (N : nat) (pixels : list Z) :
  Threaded.pool_invariant N (Threaded.init N pixels).
Proof.
  unfold Threaded.pool_invariant, Threaded.init, Threaded.owners,
    Threaded.producer_has, Threaded.worker_has, Threaded.idleBuffers,
    Threaded.buffersOwnedByProducer, Threaded.buffersOwnedByWorkers.
  cbn [Threaded.pool Threaded.processors Threaded.producer].
  split; [apply repeat_length|].
  assert (Hw : forall i,
             match nth_error (repeat (Threaded.Processor [] false Threaded.W_wait) N) i with
             | Some w => Threaded.b2n (Threaded.holds w)
             | None => 0%nat
             end = 0%nat).
  { intros i.
    destruct (nth_error (repeat (Threaded.Processor [] false Threaded.W_wait) N) i)
      as [w|] eqn:Hn; auto.
    apply nth_error_repeat_some in Hn. subst w. reflexivity. }
  split; [|split; [|split]].
  - intros i Hi. rewrite Hw, count_occ_seq.
    destruct (Nat.leb_spec 0 i), (Nat.ltb_spec i (0 + N)); simpl; lia.
  - intros i Hi. rewrite Hw, count_occ_seq.
    destruct (Nat.leb_spec 0 i), (Nat.ltb_spec i (0 + N)); simpl; lia.
  - intros i w r Hn Hpc. apply nth_error_repeat_some in Hn. subst w.
    discriminate Hpc.
  - rewrite length_seq, count_repeat_false by reflexivity. lia.
Qed.

Lemma worker_has_update (s s' : Threaded.state) (i j : nat)
      (w w' : Threaded.processor) :
  nth_error (Threaded.processors s) i = Some w ->
  Threaded.processors s' = Py.set_nth (Threaded.processors s) i w' ->
  Threaded.worker_has s' j
  = if (j =? i)%nat then Threaded.b2n (Threaded.holds w')
    else Threaded.worker_has s j.
Proof.
  intros Hn Hp. unfold Threaded.worker_has. rewrite Hp.
  destruct (Nat.eqb_spec j i) as [->|Hne].
  - rewrite set_nth_same; [reflexivity|].
    apply nth_error_Some. congruence.
  - rewrite set_nth_other by congruence. reflexivity.
Qed.

Lemma release_clear_update (s s' : Threaded.state) (i : nat)
      (w w' : Threaded.processor) :
  (forall j v r, nth_error (Threaded.processors s) j = Some v ->
                 Threaded.pc v = Threaded.W_release r ->
                 Threaded.event v = false) ->
  nth_error (Threaded.processors s) i = Some w ->
  Threaded.processors s' = Py.set_nth (Threaded.processors s) i w' ->
  (forall r, Threaded.pc w' = Threaded.W_release r ->
             Threaded.event w' = false) ->
  forall j v r, nth_error (Threaded.processors s') j = Some v ->
                Threaded.pc v = Threaded.W_release r ->
                Threaded.event v = false.
Proof.
  intros Hold Hn Hp Hnew j v r Hj Hpc. rewrite Hp in Hj.
  destruct (Nat.eq_dec i j) as [->|Hne].
  - rewrite set_nth_same in Hj by (apply nth_error_Some; congruence).
    injection Hj as <-. eapply Hnew; eauto.
  - rewrite set_nth_other in Hj by assumption. eapply Hold; eauto.
Qed.

(** A move of the producer that leaves pool and processors alone. *)
Lemma pool_invariant_congr (N : nat) (s s' : Threaded.state) :
  Threaded.pool_invariant N s ->
  Threaded.pool s' = Threaded.pool s ->
  Threaded.processors s' = Threaded.processors s ->
  (forall j, Threaded.producer_has s' j = Threaded.producer_has s j) ->
  Threaded.buffersOwnedByProducer s' = Threaded.buffersOwnedByProducer s ->
  Threaded.pool_invariant N s'.
Proof.
  intros (Hlen & Hin & Hout & Hrel & Hsum) Hpool Hprocs Hhas Hown.
  unfold Threaded.pool_invariant, Threaded.owners, Threaded.worker_has,
    Threaded.idleBuffers, Threaded.buffersOwnedByWorkers in *.
  rewrite Hpool, Hprocs, Hown.
  repeat split; auto.
  - intros i Hi. rewrite Hhas. auto.
  - intros i Hi. rewrite Hhas. auto.
Qed.

(** A processor changes, and holds its stream before and after or neither
    before nor after. *)
Lemma pool_invariant_update (N : nat) (s s' : Threaded.state) (i : nat)
      (w w' : Threaded.processor) :
  Threaded.pool_invariant N s ->
  Threaded.pool s' = Threaded.pool s ->
  (forall j, Threaded.producer_has s' j = Threaded.producer_has s j) ->
  Threaded.buffersOwnedByProducer s' = Threaded.buffersOwnedByProducer s ->
  nth_error (Threaded.processors s) i = Some w ->
  Threaded.processors s' = Py.set_nth (Threaded.processors s) i w' ->
  Threaded.holds w' = Threaded.holds w ->
  (forall r, Threaded.pc w' = Threaded.W_release r ->
             Threaded.event w' = false) ->
  Threaded.pool_invariant N s'.
Proof.
  intros (Hlen & Hin & Hout & Hrel & Hsum) Hpool Hhas Hown Hn Hprocs Hh Hnew.
  assert (Hwh : forall j, Threaded.worker_has s' j = Threaded.worker_has s j).
  { intros j. rewrite (worker_has_update s s' i j w w' Hn Hprocs).
    destruct (Nat.eqb_spec j i) as [->|]; auto.
    unfold Threaded.worker_has. rewrite Hn, Hh. reflexivity. }
  unfold Threaded.pool_invariant.
  split; [rewrite Hprocs, set_nth_length; exact Hlen|].
  split; [|split; [|split]].
  - intros j Hj. unfold Threaded.owners. rewrite Hpool, Hhas, Hwh.
    apply Hin. exact Hj.
  - intros j Hj. unfold Threaded.owners. rewrite Hpool, Hhas, Hwh.
    apply Hout. exact Hj.
  - eapply release_clear_update; eauto.
  - unfold Threaded.idleBuffers, Threaded.buffersOwnedByWorkers in *.
    rewrite Hpool, Hown, Hprocs.
    pose proof (count_set_nth Threaded.holds _ i w w' Hn) as Hc.
    rewrite Hh in Hc. lia.
Qed.

(** [pool.pop()] under the lock. *)
Lemma pool_invariant_pop (N : nat) (s s' : Threaded.state) (p : nat)
      (rest : list nat) :
  Threaded.pool_invariant N s ->
  Threaded.producer s = Threaded.P_lock ->
  Threaded.pool s = rest ++ [p] ->
  Threaded.pool s' = rest ->
  Threaded.processors s' = Threaded.processors s ->
  Threaded.producer s' = Threaded.P_yield p ->
  Threaded.pool_invariant N s'.
Proof.
  intros (Hlen & Hin & Hout & Hrel & Hsum) Hpc Hpool Hpool' Hprocs Hpc'.
  assert (Hown : forall j, Threaded.owners s' j = Threaded.owners s j).
  { intros j. unfold Threaded.owners, Threaded.producer_has,
      Threaded.worker_has.
    rewrite Hpool', Hprocs, Hpc', Hpool, Hpc, count_occ_app. simpl.
    destruct (Nat.eq_dec p j) as [->|Hne].
    - rewrite Nat.eqb_refl. simpl. lia.
    - destruct (Nat.eqb_spec p j); [contradiction|]. simpl. lia. }
  unfold Threaded.pool_invariant.
  split; [rewrite Hprocs; exact Hlen|].
  split; [|split; [|split]].
  - intros j Hj. rewrite Hown. auto.
  - intros j Hj. rewrite Hown. auto.
  - rewrite Hprocs. exact Hrel.
  - unfold Threaded.idleBuffers, Threaded.buffersOwnedByProducer,
      Threaded.buffersOwnedByWorkers in *.
    rewrite Hpool', Hprocs, Hpc'. rewrite Hpool, Hpc, length_app in Hsum.
    simpl in Hsum. lia.
Qed.

(** [processor.event.set()]: the buffer passes from the producer to its
    processor. *)
Lemma pool_invariant_signal (N : nat) (s s' : Threaded.state) (p : nat)
      (w : Threaded.processor) :
  Threaded.pool_invariant N s ->
  Threaded.producer s = Threaded.P_set p ->
  nth_error (Threaded.processors s) p = Some w ->
  Threaded.pool s' = Threaded.pool s ->
  Threaded.processors s'
  = Py.set_nth (Threaded.processors s) p
               (Threaded.Processor (Threaded.stream w) true (Threaded.pc w)) ->
  Threaded.producer s' = Threaded.P_check ->
  Threaded.pool_invariant N s' /\ Threaded.holds w = false.
Proof.
  intros (Hlen & Hin & Hout & Hrel & Hsum) Hpc Hn Hpool Hprocs Hpc'.
  assert (Hp : (p < N)%nat) by (rewrite <- Hlen; apply nth_error_Some; congruence).
  assert (Hfree : Threaded.holds w = false).
  { specialize (Hin p Hp). unfold Threaded.owners, Threaded.producer_has,
      Threaded.worker_has in Hin. rewrite Hpc, Hn, Nat.eqb_refl in Hin.
    destruct (Threaded.holds w); simpl in Hin; [lia | reflexivity]. }
  split; [|exact Hfree].
  assert (Hown : forall j, Threaded.owners s' j = Threaded.owners s j).
  { intros j. unfold Threaded.owners.
    rewrite (worker_has_update s s' p j w _ Hn Hprocs).
    unfold Threaded.producer_has. rewrite Hpool, Hpc', Hpc.
    rewrite (Nat.eqb_sym j p).
    destruct (Nat.eqb_spec p j) as [<-|Hne]; simpl; [|lia].
    unfold Threaded.worker_has. rewrite Hn, Hfree. simpl. lia. }
  unfold Threaded.pool_invariant.
  split; [rewrite Hprocs, set_nth_length; exact Hlen|].
  split; [|split; [|split]].
  - intros j Hj. rewrite Hown. auto.
  - intros j Hj. rewrite Hown. auto.
  - intros j v r Hj Hv. rewrite Hprocs in Hj.
    destruct (Nat.eq_dec p j) as [<-|Hne].
    + rewrite set_nth_same in Hj by (apply nth_error_Some; congruence).
      injection Hj as <-. simpl in Hv. exfalso.
      unfold Threaded.holds in Hfree. rewrite Hv in Hfree.
      destruct (Threaded.event w); discriminate.
    + rewrite set_nth_other in Hj by assumption. eapply Hrel; eauto.
  - unfold Threaded.idleBuffers, Threaded.buffersOwnedByProducer,
      Threaded.buffersOwnedByWorkers in *.
    rewrite Hpool, Hprocs, Hpc'. rewrite Hpc in Hsum.
    pose proof (count_set_nth Threaded.holds _ p w
                  (Threaded.Processor (Threaded.stream w) true (Threaded.pc w))
                  Hn) as Hc.
    rewrite Hfree in Hc. simpl in Hc. lia.
Qed.

(** [pool.append(self)] under the lock. *)
Lemma pool_invariant_release (N : nat) (s s' : Threaded.state) (i : nat)
      (w w' : Threaded.processor) (r : option Py.exn) :
  Threaded.pool_invariant N s ->
  nth_error (Threaded.processors s) i = Some w ->
  Threaded.pc w = Threaded.W_release r ->
  Threaded.pool s' = Threaded.pool s ++ [i] ->
  Threaded.processors s' = Py.set_nth (Threaded.processors s) i w' ->
  Threaded.producer s' = Threaded.producer s ->
  Threaded.holds w' = false ->
  Threaded.pool_invariant N s'.
Proof.
  intros (Hlen & Hin & Hout & Hrel & Hsum) Hn Hpc Hpool Hprocs Hprod Hfree.
  assert (Hheld : Threaded.holds w = true).
  { unfold Threaded.holds. rewrite Hpc. apply orb_true_r. }
  assert (Hown : forall j, Threaded.owners s' j = Threaded.owners s j).
  { intros j. unfold Threaded.owners.
    rewrite (worker_has_update s s' i j w w' Hn Hprocs).
    unfold Threaded.producer_has. rewrite Hpool, Hprod, count_occ_app.
    simpl.
    destruct (Nat.eq_dec i j) as [->|Hne].
    - rewrite Nat.eqb_refl, Hfree. unfold Threaded.worker_has.
      rewrite Hn, Hheld. simpl. lia.
    - destruct (Nat.eqb_spec j i); [congruence|]. lia. }
  unfold Threaded.pool_invariant.
  split; [rewrite Hprocs, set_nth_length; exact Hlen|].
  split; [|split; [|split]].
  - intros j Hj. rewrite Hown. auto.
  - intros j Hj. rewrite Hown. auto.
  - eapply release_clear_update; eauto.
    intros r' Hr'. unfold Threaded.holds in Hfree. rewrite Hr' in Hfree.
    rewrite orb_true_r in Hfree. discriminate.
  - unfold Threaded.idleBuffers, Threaded.buffersOwnedByProducer,
      Threaded.buffersOwnedByWorkers in *.
    rewrite Hpool, Hprocs, Hprod, length_app. simpl.
    pose proof (count_set_nth Threaded.holds _ i w w' Hn) as Hc.
    rewrite Hfree, Hheld in Hc. simpl in Hc. lia.
Qed.

Lemma holds_busy (w : Threaded.processor) :
  Threaded.pc w <> Threaded.W_wait ->
  (forall e, Threaded.pc w <> Threaded.W_dead e) ->
  Threaded.holds w = true.
Proof.
  intros Hw Hd. unfold Threaded.holds.
  destruct (Threaded.pc w) eqn:Hpc; try apply orb_true_r.
  - congruence.
  - exfalso. apply (Hd e). reflexivity.
Qed.

Ltac producer_fields Hpc :=
  unfold Threaded.producer_has, Threaded.buffersOwnedByProducer;
  cbn [Threaded.producer Threaded.with_producer Threaded.with_processor
       Threaded.with_pool Threaded.with_pattern Threaded.accept];
  rewrite ?Hpc; reflexivity.

Ltac busy Hpc :=
  apply holds_busy;
  cbn [Threaded.pc]; rewrite ?Hpc; intros; discriminate.

Theorem pool_invariant_step (N K : nat) (a : Threaded.actor)
        (s s' : Threaded.state) :
  Threaded.pool_invariant N s ->
  Threaded.step K a s = Some s' ->
  Threaded.pool_invariant N s'.
Proof.
  intros Hinv Hstep.
  pose proof Hinv as (Hlen & Hin & Hout & Hrel & Hsum).
  destruct a as [captured | i systime]; cbn [Threaded.step] in Hstep.
  - unfold Threaded.streams_step in Hstep.
    destruct (Threaded.producer s) eqn:Hpc.
    + injection Hstep as <-.
      apply (pool_invariant_congr N s); auto;
        destruct (Threaded.done s); intros; try producer_fields Hpc.
    + destruct (Py.pop (Threaded.pool s)) as [[p rest]|] eqn:Hpop;
        injection Hstep as <-.
      * apply (pool_invariant_pop N s _ p rest); auto using pop_some.
      * apply (pool_invariant_congr N s); auto; intros;
          try producer_fields Hpc.
    + destruct (nth_error (Threaded.processors s) p) as [w|] eqn:Hn;
        [|discriminate Hstep].
      injection Hstep as <-.
      apply (pool_invariant_update N s _ p w
               (Threaded.Processor captured (Threaded.event w)
                                   (Threaded.pc w))); auto;
        try (intros; producer_fields Hpc).
      intros r Hr. cbn [Threaded.pc Threaded.event] in *.
      exact (Hrel p w r Hn Hr).
    + destruct (nth_error (Threaded.processors s) p) as [w|] eqn:Hn;
        [|discriminate Hstep].
      injection Hstep as <-.
      apply (pool_invariant_signal N s _ p w); auto.
    + injection Hstep as <-.
      apply (pool_invariant_congr N s); auto; intros;
        try producer_fields Hpc.
    + discriminate Hstep.
  - unfold Threaded.run_step in Hstep.
    destruct (nth_error (Threaded.processors s) i) as [w|] eqn:Hn;
      [|discriminate Hstep].
    destruct (Threaded.pc w) eqn:Hpc.
    + destruct (Threaded.event w) eqn:He; injection Hstep as <-; auto.
      apply (pool_invariant_update N s _ i w
               (Threaded.Processor (Threaded.stream w) true
                                   Threaded.W_accept)); auto.
      * unfold Threaded.holds. cbn [Threaded.event Threaded.pc].
        rewrite He. reflexivity.
      * intros r Hr. discriminate Hr.
    + injection Hstep as <-.
      apply (pool_invariant_update N s _ i w
               (Threaded.Processor (Threaded.stream w) (Threaded.event w)
                                   Threaded.W_decode)); auto.
      * transitivity true; [busy Hpc | symmetry; busy Hpc].
      * intros r Hr. discriminate Hr.
    + destruct (Threaded.decode (Threaded.stream w)
                                    (Threaded.bin_pixels s)) as [e|bits];
        injection Hstep as <-.
      * apply (pool_invariant_update N s _ i w
                 (Threaded.Processor (Threaded.stream w) (Threaded.event w)
                                     (Threaded.W_finally (Some e)))); auto.
        -- transitivity true; [busy Hpc | symmetry; busy Hpc].
        -- intros r Hr. discriminate Hr.
      * apply (pool_invariant_update N s _ i w
                 (Threaded.Processor (Threaded.stream w) (Threaded.event w)
                                     (Threaded.W_publish bits))); auto.
        -- transitivity true; [busy Hpc | symmetry; busy Hpc].
        -- intros r Hr. discriminate Hr.
    + injection Hstep as <-.
      apply (pool_invariant_update N s _ i w
               (Threaded.Processor (Threaded.stream w) (Threaded.event w)
                                   (Threaded.W_finally None))); auto.
      * transitivity true; [busy Hpc | symmetry; busy Hpc].
      * intros r Hr. discriminate Hr.
    + injection Hstep as <-.
      apply (pool_invariant_update N s _ i w
               (Threaded.Processor (Threaded.stream w) false
                                   (Threaded.W_release raised)));
        auto.
      transitivity true; [busy Hpc | symmetry; busy Hpc].
    + injection Hstep as <-.
      pose proof (Hrel i w raised Hn Hpc) as He.
      apply (pool_invariant_release N s _ i w
               (Threaded.Processor (Threaded.stream w) (Threaded.event w)
                  match raised with
                  | None => Threaded.W_wait
                  | Some e => Threaded.W_dead e
                  end) raised); auto.
      unfold Threaded.holds. cbn [Threaded.event Threaded.pc].
      rewrite He. destruct raised; reflexivity.
    + discriminate Hstep.
Qed.

Lemma pool_invariant_reachable (N K : nat) (pixels : list Z)
      (s : Threaded.state) :
  Threaded.reachable N K pixels s -> Threaded.pool_invariant N s.
Proof.
  induction 1 as [|a s s' _ IH Hstep].
  - apply pool_invariant_init.
  - exact (pool_invariant_step N K a s s' IH Hstep).
Qed.

(** *** The counter and the flag *)

Lemma count_invariant_init (N K : nat) (pixels : list Z) :
  (1 <= K)%nat -> Threaded.count_invariant N K (Threaded.init N pixels).
Proof.
  intros HK. unfold Threaded.count_invariant, Threaded.init.
  cbn [Threaded.done Threaded.taken Threaded.producer].
  repeat split; try discriminate. lia.
Qed.

(** A move after which the flag and the counter are as before, and no more
    frames are on their way. *)
Lemma count_invariant_mono (N K : nat) (s s' : Threaded.state) :
  Threaded.count_invariant N K s ->
  Threaded.done s' = Threaded.done s ->
  Threaded.taken s' = Threaded.taken s ->
  (Threaded.in_flight s' <= Threaded.in_flight s)%nat ->
  (Threaded.producer s' = Threaded.P_exit -> Threaded.done s' = true) ->
  Threaded.count_invariant N K s'.
Proof.
  intros (H1 & H2 & H3) Hd Ht Hf He.
  unfold Threaded.count_invariant. rewrite Hd, Ht.
  split; [exact H1 | split].
  - intros Hdone. destruct (H2 Hdone). split; lia.
  - rewrite <- Hd. exact He.
Qed.

Lemma in_flight_update (s s' : Threaded.state) (i : nat)
      (w w' : Threaded.processor) :
  nth_error (Threaded.processors s) i = Some w ->
  Threaded.processors s' = Py.set_nth (Threaded.processors s) i w' ->
  Threaded.producer s' = Threaded.producer s ->
  (Threaded.in_flight s' + Threaded.b2n (Threaded.pending w)
   = Threaded.in_flight s + Threaded.b2n (Threaded.pending w'))%nat.
Proof.
  intros Hn Hp Hpc. unfold Threaded.in_flight, Threaded.buffersOwnedByProducer.
  rewrite Hp, Hpc.
  pose proof (count_set_nth Threaded.pending _ i w w' Hn). lia.
Qed.

(** A processor moves on without its frame being counted. *)
Lemma count_invariant_worker (N K : nat) (s s' : Threaded.state) (i : nat)
      (w w' : Threaded.processor) :
  Threaded.count_invariant N K s ->
  Threaded.done s' = Threaded.done s ->
  Threaded.taken s' = Threaded.taken s ->
  Threaded.producer s' = Threaded.producer s ->
  nth_error (Threaded.processors s) i = Some w ->
  Threaded.processors s' = Py.set_nth (Threaded.processors s) i w' ->
  (Threaded.b2n (Threaded.pending w') <= Threaded.b2n (Threaded.pending w))%nat ->
  Threaded.count_invariant N K s'.
Proof.
  intros Hinv Hd Ht Hpc Hn Hp Hle.
  pose proof (in_flight_update s s' i w w' Hn Hp Hpc).
  apply (count_invariant_mono N K s); auto; try lia.
  rewrite Hd, Hpc. apply Hinv.
Qed.

Lemma b2n_le_1 (b : bool) : (Threaded.b2n b <= 1)%nat.
Proof. destruct b; simpl; lia. Qed.

Ltac flight Hpc :=
  unfold Threaded.in_flight, Threaded.buffersOwnedByProducer;
  cbn [Threaded.producer Threaded.processors Threaded.with_producer
       Threaded.with_processor Threaded.with_pool Threaded.with_pattern];
  rewrite ?Hpc; try lia.

Ltac idle_worker Hpc :=
  unfold Threaded.pending; cbn [Threaded.pc Threaded.event];
  rewrite ?Hpc; simpl; lia.

Lemma count_invariant_step (N K : nat) (a : Threaded.actor)
      (s s' : Threaded.state) :
  Threaded.pool_invariant N s ->
  Threaded.count_invariant N K s ->
  Threaded.step K a s = Some s' ->
  Threaded.count_invariant N K s'.
Proof.
  intros Hpool Hinv Hstep.
  pose proof (pool_invariant_step N K a s s' Hpool Hstep) as Hpool'.
  pose proof Hinv as (H1 & H2 & H3).
  destruct Hpool as (Hlen & Hin & Hout & Hrel & Hsum).
  destruct a as [captured | i systime]; cbn [Threaded.step] in Hstep.
  - unfold Threaded.streams_step in Hstep.
    destruct (Threaded.producer s) eqn:Hpc.
    + injection Hstep as <-. destruct (Threaded.done s) eqn:Hd.
      * apply (count_invariant_mono N K s); auto.
        flight Hpc.
      * unfold Threaded.count_invariant.
        cbn [Threaded.done Threaded.taken Threaded.producer
             Threaded.with_producer].
        rewrite Hd. repeat split; auto; discriminate.
    + destruct (Py.pop (Threaded.pool s)) as [[p rest]|] eqn:Hpop;
        injection Hstep as <-.
      * apply (count_invariant_mono N K s); auto.
        -- flight Hpc.
        -- discriminate.
      * apply (count_invariant_mono N K s); auto.
        -- flight Hpc.
        -- discriminate.
    + destruct (nth_error (Threaded.processors s) p) as [w|] eqn:Hn;
        [|discriminate Hstep].
      injection Hstep as <-.
      apply (count_invariant_mono N K s); auto.
      * pose proof (count_set_nth Threaded.pending _ p w
                      (Threaded.Processor captured (Threaded.event w)
                                          (Threaded.pc w)) Hn) as Hc.
        assert (Threaded.pending
                  (Threaded.Processor captured (Threaded.event w)
                                      (Threaded.pc w))
                = Threaded.pending w) as Hsame by reflexivity.
        rewrite Hsame in Hc. flight Hpc.
      * discriminate.
    + destruct (nth_error (Threaded.processors s) p) as [w|] eqn:Hn;
        [|discriminate Hstep].
      injection Hstep as <-.
      apply (count_invariant_mono N K s); auto.
      * pose proof (count_set_nth Threaded.pending _ p w
                      (Threaded.Processor (Threaded.stream w) true
                                          (Threaded.pc w)) Hn) as Hc.
        pose proof (b2n_le_1
                      (Threaded.pending
                         (Threaded.Processor (Threaded.stream w) true
                                             (Threaded.pc w)))).
        flight Hpc.
      * discriminate.
    + injection Hstep as <-.
      apply (count_invariant_mono N K s); auto.
      * flight Hpc.
      * discriminate.
    + discriminate Hstep.
  - unfold Threaded.run_step in Hstep.
    destruct (nth_error (Threaded.processors s) i) as [w|] eqn:Hn;
      [|discriminate Hstep].
    destruct (Threaded.pc w) eqn:Hpc.
    + destruct (Threaded.event w) eqn:He; injection Hstep as <-; auto.
      apply (count_invariant_worker N K s _ i w
               (Threaded.Processor (Threaded.stream w) true
                                   Threaded.W_accept)); auto.
      unfold Threaded.pending. cbn [Threaded.pc Threaded.event].
      rewrite Hpc, He. simpl. lia.
    + injection Hstep as <-.
      set (w' := Threaded.Processor (Threaded.stream w) (Threaded.event w)
                                    Threaded.W_decode) in *.
      set (s' := Threaded.with_processor (Threaded.accept K systime s) i w')
        in *.
      assert (Hfl : (Threaded.in_flight s' + 1 = Threaded.in_flight s)%nat).
      { pose proof (in_flight_update s s' i w w' Hn eq_refl eq_refl) as Hu.
        unfold Threaded.pending in Hu at 1 2. rewrite Hpc in Hu.
        simpl in Hu. lia. }
      assert (Hbound : (Threaded.in_flight s' <= N)%nat).
      { destruct Hpool' as (_ & _ & _ & _ & Hsum').
        assert (Hn' : nth_error (Threaded.processors s') i = Some w').
        { apply set_nth_same. apply nth_error_Some.
          change (nth_error (Threaded.processors s) i <> None).
          congruence. }
        assert (Hh' : Threaded.holds w' = true)
          by (unfold Threaded.holds, w'; cbn [Threaded.pc Threaded.event];
              apply orb_true_r).
        pose proof (count_pending_lt_holds _ i w' Hn' eq_refl Hh').
        unfold Threaded.in_flight, Threaded.idleBuffers,
          Threaded.buffersOwnedByWorkers, Threaded.buffersOwnedByProducer
          in *.
        destruct (Threaded.producer s'); lia. }
      unfold Threaded.count_invariant.
      change (Threaded.taken s') with (S (Threaded.taken s)).
      change (Threaded.done s')
        with (if (K <=? S (Threaded.taken s))%nat then true
              else Threaded.done s).
      change (Threaded.producer s') with (Threaded.producer s).
      destruct (Nat.leb_spec K (S (Threaded.taken s))) as [Hreach|Hnot].
      * split; [discriminate|]. split.
        -- intros _. split; [exact Hreach|].
           destruct (Threaded.done s) eqn:Hd.
           ++ destruct (H2 eq_refl). lia.
           ++ specialize (H1 eq_refl). lia.
        -- reflexivity.
      * split; [intros _; lia|]. split.
        -- intros Hd. destruct (H2 Hd). lia.
        -- exact H3.
    + destruct (Threaded.decode (Threaded.stream w)
                                    (Threaded.bin_pixels s)) as [e|bits];
        injection Hstep as <-.
      * apply (count_invariant_worker N K s _ i w
                 (Threaded.Processor (Threaded.stream w) (Threaded.event w)
                                     (Threaded.W_finally (Some e)))); auto.
        idle_worker Hpc.
      * apply (count_invariant_worker N K s _ i w
                 (Threaded.Processor (Threaded.stream w) (Threaded.event w)
                                     (Threaded.W_publish bits))); auto.
        idle_worker Hpc.
    + injection Hstep as <-.
      apply (count_invariant_worker N K s _ i w
               (Threaded.Processor (Threaded.stream w) (Threaded.event w)
                                   (Threaded.W_finally None))); auto.
      idle_worker Hpc.
    + injection Hstep as <-.
      apply (count_invariant_worker N K s _ i w
               (Threaded.Processor (Threaded.stream w) false
                                   (Threaded.W_release raised)));
        auto.
      idle_worker Hpc.
    + injection Hstep as <-.
      pose proof (Hrel i w raised Hn Hpc) as He.
      apply (count_invariant_worker N K s _ i w
               (Threaded.Processor (Threaded.stream w) (Threaded.event w)
                  match raised with
                  | None => Threaded.W_wait
                  | Some e => Threaded.W_dead e
                  end)); auto.
      unfold Threaded.pending. cbn [Threaded.pc Threaded.event].
      rewrite Hpc, He. destruct raised; simpl; lia.
    + discriminate Hstep.
Qed.

Lemma run_reachable (N K : nat) (pixels : list Z) (trace : list Threaded.actor)
      (s s' : Threaded.state) :
  Threaded.reachable N K pixels s ->
  Threaded.run K trace s = Some s' ->
  Threaded.reachable N K pixels s'.
Proof.
  revert s. induction trace as [|a rest IH]; intros s Hs Hrun; simpl in Hrun.
  - injection Hrun as <-. exact Hs.
  - destruct (Threaded.step K a s) as [s1|] eqn:Hstep; [|discriminate].
    apply (IH s1); [|exact Hrun].
    exact (Threaded.reachable_step N K pixels a s s1 Hs Hstep).
Qed.

Lemma count_invariant_reachable (N K : nat) (pixels : list Z)
      (s : Threaded.state) :
  (1 <= K)%nat ->
  Threaded.reachable N K pixels s -> Threaded.count_invariant N K s.
Proof.
  intros HK. induction 1 as [|a s s' Hs IH Hstep].
  - apply count_invariant_init. exact HK.
  - apply (count_invariant_step N K a s s'); auto.
    apply (pool_invariant_reachable N K pixels). exact Hs.
Qed.

(** No step lowers the flag. *)
Lemma done_stays (K : nat) (a : Threaded.actor) (s s' : Threaded.state) :
  Threaded.step K a s = Some s' ->
  Threaded.done s = true -> Threaded.done s' = true.
Proof.
  intros Hstep Hd.
  destruct a as [captured | i systime]; cbn [Threaded.step] in Hstep.
  - unfold Threaded.streams_step in Hstep.
    destruct (Threaded.producer s).
    + injection Hstep as <-. exact Hd.
    + destruct (Py.pop (Threaded.pool s)) as [[p rest]|];
        injection Hstep as <-; exact Hd.
    + destruct (nth_error (Threaded.processors s) p);
        [injection Hstep as <-; exact Hd | discriminate Hstep].
    + destruct (nth_error (Threaded.processors s) p);
        [injection Hstep as <-; exact Hd | discriminate Hstep].
    + injection Hstep as <-. exact Hd.
    + discriminate Hstep.
  - unfold Threaded.run_step in Hstep.
    destruct (nth_error (Threaded.processors s) i) as [w|];
      [|discriminate Hstep].
    destruct (Threaded.pc w).
    + destruct (Threaded.event w); injection Hstep as <-; exact Hd.
    + injection Hstep as <-.
      cbn [Threaded.done Threaded.with_processor Threaded.accept].
      rewrite Hd. destruct (K <=? S (Threaded.taken s))%nat; reflexivity.
    + destruct (Threaded.decode (Threaded.stream w)
                                    (Threaded.bin_pixels s));
        injection Hstep as <-; exact Hd.
    + injection Hstep as <-. exact Hd.
    + injection Hstep as <-. exact Hd.
    + injection Hstep as <-. exact Hd.
    + discriminate Hstep.
Qed.

(** C1: in every state of a session the idle buffers, the buffer in the
    hands of the producer and the buffers held by processors add up to
    NUM_THREADS; the pool never lists a buffer twice; and every buffer has
    exactly one owner among pool, producer and its processor, so pop under
    the lock never hands out a buffer that someone else still owns and
    append under the lock never returns one that is already idle. *)
Theorem C1_buffer_ownership (N K : nat) (pixels : list Z)
        (s : Threaded.state) :
  Threaded.reachable N K pixels s ->
  (Threaded.idleBuffers s + Threaded.buffersOwnedByProducer s
   + Threaded.buffersOwnedByWorkers s)%nat = N /\
  NoDup (Threaded.pool s) /\
  (forall i, (i < N)%nat -> Threaded.owners s i = 1%nat) /\
  (forall i, (N <= i)%nat -> Threaded.owners s i = 0%nat).
Proof.
  intros Hs.
  destruct (pool_invariant_reachable N K pixels s Hs)
    as (_ & Hin & Hout & _ & Hsum).
  split; [exact Hsum | split; [|split; assumption]].
  apply (proj2 (NoDup_count_occ Nat.eq_dec (Threaded.pool s))).
  intros i. destruct (Nat.lt_ge_cases i N) as [Hi|Hi].
  - specialize (Hin i Hi). unfold Threaded.owners in Hin. lia.
  - specialize (Hout i Hi). unfold Threaded.owners in Hout. lia.
Qed.

Lemma C1_buffer_ownership_witness :
  exists s,
    Threaded.run 3 Schedules.two_out (Threaded.init 2 []) = Some s /\
    Threaded.reachable 2 3 [] s /\
    Threaded.idleBuffers s = 0%nat /\
    Threaded.buffersOwnedByProducer s = 1%nat /\
    Threaded.buffersOwnedByWorkers s = 1%nat /\
    (Threaded.idleBuffers s + Threaded.buffersOwnedByProducer s
     + Threaded.buffersOwnedByWorkers s)%nat = 2%nat.
Proof.
  eexists. split; [vm_compute; reflexivity|].
  match goal with
  | |- Threaded.reachable 2 3 [] ?s /\ _ =>
      assert (Hs : Threaded.reachable 2 3 [] s)
  end.
  { apply (run_reachable 2 3 [] Schedules.two_out (Threaded.init 2 []));
      [apply Threaded.reachable_init | vm_compute; reflexivity]. }
  split; [exact Hs|].
  split; [reflexivity | split; [reflexivity | split; [reflexivity|]]].
  exact (proj1 (C1_buffer_ownership 2 3 [] _ Hs)).
Defined.

(** C2, as amended: for a target of K >= 1 scans, in every state in which
    the counter has reached K the flag [done] is true, and no step of the
    producer or of a processor sets it back; when the session is complete
    (the generator is exhausted and every processor is back in the pool) all
    buffers are idle and the counter is at least K and at most K +
    NUM_THREADS: frames handed out before the producer saw the flag are
    still counted. *)
Theorem C2_termination (N K : nat) (pixels : list Z) (s : Threaded.state) :
  (1 <= K)%nat ->
  Threaded.reachable N K pixels s ->
  ((K <= Threaded.taken s)%nat -> Threaded.done s = true) /\
  (Threaded.done s = true ->
   forall a s', Threaded.step K a s = Some s' -> Threaded.done s' = true) /\
  (Threaded.session_complete N s ->
   Threaded.done s = true /\
   (K <= Threaded.taken s <= K + N)%nat /\
   Threaded.buffersOwnedByProducer s = 0%nat /\
   Threaded.buffersOwnedByWorkers s = 0%nat /\
   (forall i, (i < N)%nat -> In i (Threaded.pool s))).
Proof.
  intros HK Hs.
  destruct (count_invariant_reachable N K pixels s HK Hs) as (H1 & H2 & H3).
  destruct (pool_invariant_reachable N K pixels s Hs)
    as (Hlen & Hin & _ & _ & Hsum).
  split; [|split].
  - intros Hreach. destruct (Threaded.done s); auto.
    specialize (H1 eq_refl). lia.
  - intros Hd a s' Hstep. exact (done_stays K a s s' Hstep Hd).
  - intros [Hexit Hfull].
    pose proof (H3 Hexit) as Hd. destruct (H2 Hd) as [Hge Hle].
    unfold Threaded.idleBuffers in Hsum. rewrite Hfull in Hsum.
    assert (Hnone : Threaded.buffersOwnedByWorkers s = 0%nat) by lia.
    split; [exact Hd | split; [lia | split; [lia | split; [exact Hnone|]]]].
    intros i Hi. specialize (Hin i Hi).
    unfold Threaded.owners, Threaded.producer_has, Threaded.worker_has in Hin.
    rewrite Hexit in Hin.
    apply (count_occ_In Nat.eq_dec).
    destruct (nth_error (Threaded.processors s) i) as [w|] eqn:Hn.
    + rewrite (count_zero Threaded.holds _ i w Hnone Hn) in Hin.
      simpl in Hin. lia.
    + lia.
Qed.

Lemma C2_termination_witness :
  exists s,
    Threaded.run 1 Schedules.overshoot (Threaded.init 1 []) = Some s /\
    Threaded.reachable 1 1 [] s /\
    Threaded.session_complete 1 s /\
    (1 <= Threaded.taken s <= 1 + 1)%nat /\
    Threaded.done s = true.
Proof.
  eexists. split; [vm_compute; reflexivity|].
  match goal with
  | |- Threaded.reachable 1 1 [] ?s /\ _ =>
      assert (Hs : Threaded.reachable 1 1 [] s)
  end.
  { apply (run_reachable 1 1 [] Schedules.overshoot (Threaded.init 1 []));
      [apply Threaded.reachable_init | vm_compute; reflexivity]. }
  split; [exact Hs|].
  assert (Hc : Threaded.session_complete 1
                 {| Threaded.done := true;
                    Threaded.pool := [0%nat];
                    Threaded.image_times := [0%Q; 0%Q];
                    Threaded.bin_pixels := [];
                    Threaded.current_bit_pattern := [];
                    Threaded.taken := 2;
                    Threaded.processors :=
                      [Threaded.Processor Frames.blank false Threaded.W_wait];
                    Threaded.producer := Threaded.P_exit |})
    by (split; reflexivity).
  split; [exact Hc|].
  destruct (proj2 (proj2 (C2_termination 1 1 [] _ (le_n 1) Hs)) Hc)
    as (Hd & Hk & _).
  split; [exact Hk | exact Hd].
Defined.

(** C2 as stated fails: with two processors and a target of one scan, the
    schedule [Schedules.both_counted] completes the session with all
    buffers idle and the counter at 2. *)
Lemma C2_counter_overshoots :
  exists s,
    Threaded.run 1 Schedules.both_counted (Threaded.init 2 []) = Some s /\
    Threaded.reachable 2 1 [] s /\
    Threaded.session_complete 2 s /\
    Threaded.taken s = 2%nat /\
    Threaded.taken s <> 1%nat.
Proof.
  eexists. split; [vm_compute; reflexivity|].
  split.
  { apply (run_reachable 2 1 [] Schedules.both_counted (Threaded.init 2 []));
      [apply Threaded.reachable_init | vm_compute; reflexivity]. }
  split; [split; reflexivity|].
  split; [reflexivity | discriminate].
Qed.

(** ** The worker cycle *)

(** In g2scanner_threaded2.py a cycle returns to the wait only if neither
    the body nor [_rewind] raised. *)
Lemma cycle_waiting (K me : nat) (t : Q) (self : Threaded2.processor)
      (g : Threaded2.globals) :
  snd (fst (Threaded2.cycle K me t self g)) = Threaded2.Waiting ->
  exists bits,
    snd (Threaded2.body K t self g) = inr bits /\
    Threaded2.closed (Threaded2.stream (fst (fst (Threaded2.body K t self g))))
    = false.
Proof.
  unfold Threaded2.cycle.
  destruct (Threaded2.body K t self g) as [[self1 g1] tried].
  unfold Threaded2._rewind. cbn [fst snd].
  destruct (Threaded2.closed (Threaded2.stream self1)); cbn [Py.raise Py.ret].
  - discriminate.
  - destruct tried as [e|bits]; [discriminate|].
    intros _. exists bits. split; reflexivity.
Qed.

(** C9 fails on the code: a processor of g2scanner_threaded2.py that is
    signalled with a frame without any dark row counts the frame, closes
    its stream in [_calibrate] and raises; [_rewind], in the finally
    block, raises in turn on the closed stream before the event is cleared
    and before the processor is appended to the pool.  The thread ends: the
    buffer stays checked out, the event stays set, and the worker never
    returns to the wait. *)
Theorem C9_failed_frame_keeps_buffer :
  Threaded2.cycle 30 0 0 (Schedules.signalled Frames.blank) Schedules.fresh
  = (Threaded2.Processor (Threaded2.Stream [] true) true 0
       (repeat (253 # 3) 300) [] [] 8,
     Threaded2.Globals false [] [0%Q] 1,
     Threaded2.Died Py.ValueError,
     None).
Proof. vm_compute. reflexivity. Qed.

(** * Further properties of the code *)

(** ** g2scanner.py: exceptions and recording *)

Lemma column_rectangular (COLS : nat) (arr : Py.frame) (c : nat) :
  Scanner.rectangular COLS arr -> (c < COLS)%nat ->
  exists col, Py.column arr c = inr col.
Proof.
  intros Hrect Hc. induction Hrect as [|row rows Hrow _ IH]; simpl.
  - exists []. reflexivity.
  - destruct (nth_error row c) as [p|] eqn:Hn.
    + destruct IH as [col ->]. exists (p :: col). reflexivity.
    + apply nth_error_None in Hn. lia.
Qed.

Lemma column_missing (COLS : nat) (row : list Py.pixel) (rows : Py.frame)
      (c : nat) :
  Scanner.rectangular COLS (row :: rows) -> (COLS <= c)%nat ->
  Py.column (row :: rows) c = inl Py.IndexError.
Proof.
  intros Hrect Hc. inversion Hrect as [|? ? Hrow _]; subst. simpl.
  destruct (nth_error row c) as [p|] eqn:Hn; [|reflexivity].
  assert (c < length row)%nat by (apply nth_error_Some; congruence). lia.
Qed.

Lemma column_only_index_error (arr : Py.frame) (c : nat) (e : Py.exn) :
  Py.column arr c = inl e -> e = Py.IndexError.
Proof.
  induction arr as [|row rows IH]; simpl; [discriminate|].
  destruct (nth_error row c); [|intros [= <-]; reflexivity].
  destruct (Py.column rows c) as [e'|ps]; simpl; [|discriminate].
  intros [= <-]. apply IH. reflexivity.
Qed.

(** The only exception analyse can raise is IndexError, and it raises it
    on a frame without rows. *)
Theorem analyse_raises_only_index_error
  (max_edge : Py.frame -> nat) (self : Scanner.t) (now : Q)
  (arr : Py.frame) :
  (forall e, snd (Scanner.analyse max_edge self now arr) = inl e ->
             e = Py.IndexError) /\
  snd (Scanner.analyse max_edge self now []) = inl Py.IndexError.
Proof.
  split; [|reflexivity].
  intros e. unfold Scanner.analyse. cbn [snd].
  destruct arr as [|row rows]; [intros [= <-]; reflexivity|].
  unfold Scanner.temp_lums.
  destruct (Py.column (row :: rows) 8) as [e8|col8] eqn:H8.
  - cbn [Py.bind]. intros [= <-]. exact (column_only_index_error _ _ _ H8).
  - cbn [Py.bind Py.ret].
    destruct (Scanner.top_bar_pixel _ _); [|discriminate].
    destruct (Scanner.bottom_bar_pixel _ _); [|discriminate].
    destruct (Py.column (row :: rows)
                (Scanner.scan_column (max_edge (row :: rows))))
      as [ec|col] eqn:Hc; cbn [Py.bind Py.ret]; [|discriminate].
    intros [= <-]. exact (column_only_index_error _ _ _ Hc).
Qed.

Lemma analyse_raises_only_index_error_witness :
  snd (Scanner.analyse (fun _ => 3%nat) Scanner.fresh 0 Frames.narrow)
  = inl Py.IndexError.
Proof.
  destruct (snd (Scanner.analyse (fun _ => 3%nat) Scanner.fresh 0
                                 Frames.narrow)) as [e|out] eqn:H.
  - f_equal.
    exact (proj1 (analyse_raises_only_index_error (fun _ => 3%nat)
                    Scanner.fresh 0 Frames.narrow) e H).
  - vm_compute in H. discriminate H.
Defined.

Lemma scan_column_inside (COLS m : nat) :
  (14 <= COLS)%nat -> (m < COLS)%nat ->
  (Scanner.scan_column m < COLS)%nat.
Proof.
  intros H14 Hm. unfold Scanner.scan_column.
  destruct (Nat.ltb_spec 9 m); lia.
Qed.

(** On a frame with at least one row, whose rows all have the same number
    of pixels, at least 14, analyse never raises when the strongest edge is
    a column of the frame: it either reports that the markers are missing
    or delivers a pattern. *)
Theorem analyse_returns
  (max_edge : Py.frame -> nat) (self : Scanner.t) (now : Q)
  (arr : Py.frame) (COLS : nat) :
  arr <> [] ->
  Scanner.rectangular COLS arr ->
  (14 <= COLS)%nat ->
  (max_edge arr < COLS)%nat ->
  exists out, snd (Scanner.analyse max_edge self now arr) = inr out.
Proof.
  intros Hne Hrect H14 Hm.
  destruct (column_rectangular COLS arr 8 Hrect ltac:(lia)) as [col8 H8].
  destruct (column_rectangular COLS arr (Scanner.scan_column (max_edge arr))
              Hrect (scan_column_inside COLS _ H14 Hm)) as [col Hc].
  assert (Hl : Scanner.temp_lums arr = inr (map Py.channel_sum col8))
    by (unfold Scanner.temp_lums; rewrite H8; reflexivity).
  rewrite (analyse_result max_edge self now arr _ Hne Hl), Hc.
  destruct (Scanner.top_bar_pixel _ _); [|eexists; reflexivity].
  destruct (Scanner.bottom_bar_pixel _ _); eexists; reflexivity.
Qed.

Lemma blank_rectangular : Scanner.rectangular 16 Frames.blank.
Proof.
  unfold Scanner.rectangular, Frames.blank, Frames.uniform.
  apply Forall_forall. intros row Hin. apply in_map_iff in Hin.
  destruct Hin as (p & <- & _). apply repeat_length.
Qed.

Lemma analyse_returns_witness :
  Frames.blank <> [] /\
  Scanner.rectangular 16 Frames.blank /\
  exists out,
    snd (Scanner.analyse (fun _ => 12%nat) Scanner.fresh 0 Frames.blank)
    = inr out.
Proof.
  assert (Hne : Frames.blank <> []) by discriminate.
  split; [exact Hne | split; [exact blank_rectangular|]].
  apply (analyse_returns (fun _ => 12%nat) Scanner.fresh 0 Frames.blank 16
                         Hne blank_rectangular); lia.
Defined.

(** A frame whose rows have at most 8 pixels has no column 8: analyse
    raises IndexError, after it has counted the frame. *)
Theorem analyse_narrow_frame
  (max_edge : Py.frame -> nat) (self : Scanner.t) (now : Q)
  (arr : Py.frame) (COLS : nat) :
  arr <> [] ->
  Scanner.rectangular COLS arr ->
  (COLS <= 8)%nat ->
  Scanner.analyse max_edge self now arr
  = (Scanner.Self (Scanner.scan_times self ++ [now])
                  (S (Scanner.num_scans self)),
     inl Py.IndexError).
Proof.
  intros Hne Hrect H8.
  destruct arr as [|row rows]; [congruence|].
  unfold Scanner.analyse, Scanner.temp_lums.
  rewrite (column_missing COLS row rows 8 Hrect H8). reflexivity.
Qed.

Lemma narrow_rectangular : Scanner.rectangular 8 Frames.narrow.
Proof.
  unfold Scanner.rectangular, Frames.narrow.
  apply Forall_forall. intros row Hin. apply repeat_spec in Hin.
  rewrite Hin. apply repeat_length.
Qed.

Lemma analyse_narrow_frame_witness :
  Frames.narrow <> [] /\
  Scanner.rectangular 8 Frames.narrow /\
  Scanner.analyse (fun _ => 3%nat) Scanner.fresh 0 Frames.narrow
  = (Scanner.Self [0%Q] 1, inl Py.IndexError).
Proof.
  assert (Hne : Frames.narrow <> []) by discriminate.
  split; [exact Hne | split; [exact narrow_rectangular|]].
  apply (analyse_narrow_frame (fun _ => 3%nat) Scanner.fresh 0 Frames.narrow
                              8 Hne narrow_rectangular). lia.
Defined.

(** While frames are well formed the recording goes on, and every frame
    is counted and timed, whether or not its markers were found: at the
    end num_scans has grown by the number of frames and scan_times by
    their times, in order. *)
Theorem recording_counts_every_frame
  (max_edge : Py.frame -> nat) (COLS : nat) (frames : list (Q * Py.frame))
  (self : Scanner.t) :
  (14 <= COLS)%nat ->
  Forall (fun f => snd f <> [] /\ Scanner.rectangular COLS (snd f) /\
                   (max_edge (snd f) < COLS)%nat) frames ->
  Scanner.recording max_edge self frames
  = (Scanner.Self (Scanner.scan_times self ++ map fst frames)
                  (Scanner.num_scans self + length frames),
     inr tt).
Proof.
  intros H14 Hall. revert self.
  induction Hall as [|[now arr] rest (Hne & Hrect & Hm) _ IH]; intros self.
  - simpl. rewrite app_nil_r, Nat.add_0_r. destruct self; reflexivity.
  - cbn [Scanner.recording].
    destruct (analyse_returns max_edge self now arr COLS Hne Hrect H14 Hm)
      as [out Hout].
    pose proof (analyse_state max_edge self now arr) as Hst.
    destruct (Scanner.analyse max_edge self now arr) as [self' r].
    cbn [fst snd] in Hst, Hout. subst self' r.
    rewrite IH. cbn [Scanner.scan_times Scanner.num_scans map fst length].
    rewrite <- app_assoc. cbn [app]. f_equal. f_equal. lia.
Qed.

Lemma recording_counts_every_frame_witness :
  Scanner.recording (fun _ => 12%nat) Scanner.fresh
                    [(1%Q, Frames.blank); (3%Q, Frames.blank)]
  = (Scanner.Self [1%Q; 3%Q] 2, inr tt).
Proof.
  apply (recording_counts_every_frame (fun _ => 12%nat) 16
           [(1%Q, Frames.blank); (3%Q, Frames.blank)] Scanner.fresh).
  - lia.
  - repeat constructor; try discriminate; try exact blank_rectangular;
      cbn [snd]; lia.
Defined.

(** The rate printed at the end of a recording of well-formed frames: with
    no frame at all the expression raises IndexError; with frames it is the
    number of frames over the time between the first and the last, and
    raises ZeroDivisionError when those times are equal, as they are when
    only one frame was recorded. *)
Theorem scan_rate_of_recording
  (max_edge : Py.frame -> nat) (COLS : nat) (t0 : Q) (f0 : Py.frame)
  (rest : list (Q * Py.frame)) :
  (14 <= COLS)%nat ->
  Forall (fun f => snd f <> [] /\ Scanner.rectangular COLS (snd f) /\
                   (max_edge (snd f) < COLS)%nat) ((t0, f0) :: rest) ->
  Scanner.scan_rate Scanner.fresh = inl Py.IndexError /\
  Scanner.scan_rate
    (fst (Scanner.recording max_edge Scanner.fresh ((t0, f0) :: rest)))
  = (if Qeq_bool (last (map fst rest) t0 - t0) 0
     then inl Py.ZeroDivisionError
     else inr (inject_Z (Z.of_nat (S (length rest)))
               / (last (map fst rest) t0 - t0))%Q) /\
  (rest = [] ->
   Scanner.scan_rate
     (fst (Scanner.recording max_edge Scanner.fresh [(t0, f0)]))
   = inl Py.ZeroDivisionError).
Proof.
  intros H14 Hall.
  assert (Hrate : Scanner.scan_rate
            (fst (Scanner.recording max_edge Scanner.fresh ((t0, f0) :: rest)))
          = (if Qeq_bool (last (map fst rest) t0 - t0) 0
             then inl Py.ZeroDivisionError
             else inr (inject_Z (Z.of_nat (S (length rest)))
                       / (last (map fst rest) t0 - t0))%Q)).
  { rewrite (recording_counts_every_frame max_edge COLS _ Scanner.fresh
                                          H14 Hall).
    unfold Scanner.scan_rate.
    cbn [fst Scanner.fresh Scanner.scan_times Scanner.num_scans app map
         length Nat.add].
    assert (Hlast : last (t0 :: map fst rest) t0 = last (map fst rest) t0).
    { destruct (map fst rest); reflexivity. }
    rewrite Hlast. reflexivity. }
  split; [reflexivity | split; [exact Hrate|]].
  intros ->. rewrite Hrate. cbn [map last].
  assert (Hz : Qeq_bool (t0 - t0) 0 = true)
    by (apply Qeq_bool_iff; ring).
  rewrite Hz. reflexivity.
Qed.

Lemma scan_rate_of_recording_witness :
  Scanner.scan_rate
    (fst (Scanner.recording (fun _ => 12%nat) Scanner.fresh
            [(1%Q, Frames.blank); (3%Q, Frames.blank)]))
  = inr (2 / (3 - 1))%Q.
Proof.
  assert (Hall : Forall (fun f => snd f <> [] /\
                                  Scanner.rectangular 16 (snd f) /\
                                  (12 < 16)%nat)
                        [(1%Q, Frames.blank); (3%Q, Frames.blank)])
    by (repeat constructor; try discriminate; exact blank_rectangular).
  exact (proj1 (proj2 (scan_rate_of_recording (fun _ => 12%nat) 16 1
                         Frames.blank [(3%Q, Frames.blank)]
                         ltac:(lia) Hall))).
Defined.

(** ** g2scanner.py: the level of a bin *)

Lemma sum_div_upper (n : Z) (l : list Z) :
  0 < n ->
  Py.sum l <= n * Py.sum (map (fun x => x / n) l)
              + Z.of_nat (length l) * (n - 1).
Proof.
  intros Hn. induction l as [|a l IH].
  - simpl. lia.
  - cbn [map Py.sum fold_right length].
    fold (Py.sum l). fold (Py.sum (map (fun x => x / n) l)).
    pose proof (Z.div_mod a n ltac:(lia)) as Hdm.
    pose proof (Z.mod_pos_bound a n Hn) as Hmod.
    rewrite Nat2Z.inj_succ. nia.
Qed.

(** How far the decoded bit can be from the comparison of the true average
    with the threshold 200, for a bin of positive height: a bin whose
    average is below 200 is always reported dark; a bin reported light has
    an average of at least 200; a bin reported dark has a sum of at most
    199 times the height plus (height - 1) for each of its rows. *)
Theorem bin_bit_truncation (lums : list Z) (tp bp : Z) :
  tp < bp ->
  (Py.sum (Py.slice lums tp bp) < 2 * Scanner.BLACK_LUM_MAX * (bp - tp) ->
   Scanner.bin_bit lums tp bp = 1) /\
  (Scanner.bin_bit lums tp bp = 0 ->
   2 * Scanner.BLACK_LUM_MAX * (bp - tp) <= Py.sum (Py.slice lums tp bp)) /\
  (Scanner.bin_bit lums tp bp = 1 ->
   Py.sum (Py.slice lums tp bp)
   <= 199 * (bp - tp)
      + Z.of_nat (length (Py.slice lums tp bp)) * (bp - tp - 1)).
Proof.
  intros Hlt. split; [|split].
  - apply bin_bit_dark_below_average. exact Hlt.
  - intros H0.
    destruct (Z_lt_le_dec (Py.sum (Py.slice lums tp bp))
                          (2 * Scanner.BLACK_LUM_MAX * (bp - tp)))
      as [Hbelow|]; [|assumption].
    rewrite (bin_bit_dark_below_average lums tp bp Hlt Hbelow) in H0.
    discriminate.
  - unfold Scanner.bin_bit, Scanner.bin_level.
    pose proof (sum_div_upper (bp - tp) (Py.slice lums tp bp) ltac:(lia))
      as Hup.
    destruct (Z.ltb_spec
                (Py.sum (map (fun l => l / (bp - tp)) (Py.slice lums tp bp)))
                (2 * Scanner.BLACK_LUM_MAX)) as [Hdark|]; [|discriminate].
    intros _. unfold Scanner.BLACK_LUM_MAX in Hdark. nia.
Qed.

Lemma bin_bit_truncation_witness :
  Scanner.bin_bit [199; 201; 150; 150] 2 4 = 1.
Proof.
  apply (proj1 (bin_bit_truncation [199; 201; 150; 150] 2 4 ltac:(lia))).
  vm_compute. reflexivity.
Defined.

(** ** g2scanner.py: the pattern *)

(** The decode loop of analyse is total and complete: when both markers are
    found and the scan column exists, analyse delivers a pattern, and a
    pattern that analyse delivers has exactly 20 bits, one per pair of
    neighbouring boundaries; a call that does not get that far (an
    exception, or no markers) delivers no pattern, never a shorter one. *)
Theorem analyse_twenty_bits
  (max_edge : Py.frame -> nat) (self : Scanner.t) (now : Q)
  (arr : Py.frame) :
  match Scanner.decoded (snd (Scanner.analyse max_edge self now arr)) with
  | Some bits => length bits = 20%nat
  | None => True
  end /\
  (forall (lums : list Z) (top bottom : nat) (col : list Py.pixel),
      arr <> [] ->
      Scanner.temp_lums arr = inr lums ->
      Scanner.top_bar_pixel lums (length arr) = Some top ->
      Scanner.bottom_bar_pixel lums (length arr) = Some bottom ->
      Py.column arr (Scanner.scan_column (max_edge arr)) = inr col ->
      exists bits,
        Scanner.decoded (snd (Scanner.analyse max_edge self now arr))
        = Some bits /\
        length bits = 20%nat).
Proof.
  split.
  - destruct (snd (Scanner.analyse max_edge self now arr))
      as [e|[|t b px sc bits n]] eqn:H; simpl; auto.
    apply analyse_scanned in H.
    destruct H as (lums & col & _ & _ & _ & -> & _ & _ & -> & _).
    rewrite bin_bits_length, bin_pixels_length. reflexivity.
  - intros lums top bottom col Hne Hl Ht Hb Hc.
    rewrite (analyse_result max_edge self now arr lums Hne Hl), Ht, Hb, Hc.
    eexists. split; [reflexivity|].
    rewrite bin_bits_length, bin_pixels_length. reflexivity.
Qed.

Lemma analyse_twenty_bits_witness :
  Frames.wide <> [] /\
  Scanner.temp_lums Frames.wide
  = inr (map Py.channel_sum
             (Frames.rows (repeat Frames.white 10 ++ [Frames.black]
                           ++ repeat Frames.white 239 ++ [Frames.black]))) /\
  Py.column Frames.wide (Scanner.scan_column 12)
  = inr (Frames.rows (repeat Frames.white 10 ++ [Frames.black]
                      ++ repeat Frames.white 239 ++ [Frames.black])) /\
  exists bits,
    Scanner.decoded
      (snd (Scanner.analyse (fun _ => 12%nat) (Scanner.Self [] 0) 0
                            Frames.wide)) = Some bits /\
    length bits = 20%nat.
Proof.
  assert (Hne : Frames.wide <> []) by discriminate.
  assert (Hl : Scanner.temp_lums Frames.wide
               = inr (map Py.channel_sum
                          (Frames.rows (repeat Frames.white 10
                                        ++ [Frames.black]
                                        ++ repeat Frames.white 239
                                        ++ [Frames.black]))))
    by (vm_compute; reflexivity).
  assert (Hc : Py.column Frames.wide (Scanner.scan_column 12)
               = inr (Frames.rows (repeat Frames.white 10 ++ [Frames.black]
                                   ++ repeat Frames.white 239
                                   ++ [Frames.black])))
    by (vm_compute; reflexivity).
  split; [exact Hne | split; [exact Hl | split; [exact Hc|]]].
  exact (proj2 (analyse_twenty_bits (fun _ => 12%nat)
                                    (Scanner.Self [] 0) 0 Frames.wide)
               _ 10%nat 250%nat _ Hne Hl
               ltac:(vm_compute; reflexivity)
               ltac:(vm_compute; reflexivity) Hc).
Defined.

(** ** g2scanner_threaded.py: the average of a bin *)

(** The decode loop of g2scanner_threaded.py averages in doubles.  A bin of
    three rows with the pixels (1,1,174), (1,1,174) and (0,0,173) has the
    luminances 176, 176 and 173, on average exactly 175, the threshold;
    yet the three channel averages 2/3, 2/3 and 521/3 are rounded, their
    sum falls below 175, and the bin is reported dark.  Uniform white and
    uniform black bins come out as 0 and 1, and a bin without rows, whose
    averages are nan, as 0. *)
Theorem decode_averages_in_doubles :
  Py.sum (map Py.channel_sum
              [Py.BGR 1 1 174; Py.BGR 1 1 174; Py.BGR 0 0 173]) = 175 * 3 /\
  PrimFloat.ltb
    (PrimFloat.add (PrimFloat.add (Threaded.average [174; 174; 173])
                                  (Threaded.average [1; 1; 0]))
                   (Threaded.average [1; 1; 0]))
    175 = true /\
  Threaded.bin_brightness
    [Py.BGR 1 1 174; Py.BGR 1 1 174; Py.BGR 0 0 173] 0 3 = 1 /\
  Threaded.bin_brightness (repeat Frames.white 300) 10 22 = 0 /\
  Threaded.bin_brightness (repeat Frames.black 300) 10 22 = 1 /\
  Threaded.bin_brightness (repeat Frames.black 300) 10 10 = 0.
Proof.
  repeat split; vm_compute; reflexivity.
Qed.

(** ** g2scanner_threaded.py: what the globals keep *)

Lemma brightness_length (arr : Py.frame) (pixels bits : list Z) :
  Threaded.brightness arr pixels = inr bits ->
  length bits = (length pixels - 1)%nat.
Proof.
  revert bits. induction pixels as [|tp rest IH]; intros bits.
  - simpl. intros [= <-]. reflexivity.
  - destruct rest as [|bp rest'].
    + simpl. intros [= <-]. reflexivity.
    + change (Threaded.brightness arr (tp :: bp :: rest'))
        with (col <- Py.column arr Threaded.SCAN_COLUMN ;;
              bits0 <- Threaded.brightness arr (bp :: rest') ;;
              Py.ret (Threaded.bin_brightness col tp bp :: bits0)).
      destruct (Py.column arr Threaded.SCAN_COLUMN) as [e|col];
        [discriminate|].
      cbn [Py.bind].
      destruct (Threaded.brightness arr (bp :: rest')) as [e|bits0];
        [discriminate|].
      cbn [Py.bind Py.ret]. intros [= <-].
      cbn [length]. rewrite (IH bits0 eq_refl). simpl. lia.
Qed.

Lemma decode_length (arr : Py.frame) (pixels bits : list Z) :
  Threaded.decode arr pixels = inr bits ->
  length bits = (length pixels - 1)%nat.
Proof.
  unfold Threaded.decode. destruct arr as [|row rows]; [discriminate|].
  apply brightness_length.
Qed.

(** What one step does to the counter, the times and the boundaries. *)
Lemma step_globals (K : nat) (a : Threaded.actor) (s s' : Threaded.state) :
  Threaded.step K a s = Some s' ->
  Threaded.bin_pixels s' = Threaded.bin_pixels s /\
  ((Threaded.taken s' = Threaded.taken s /\
    Threaded.image_times s' = Threaded.image_times s) \/
   (exists t, Threaded.taken s' = S (Threaded.taken s) /\
              Threaded.image_times s' = Threaded.image_times s ++ [t])).
Proof.
  intros Hstep.
  destruct a as [captured | i systime]; cbn [Threaded.step] in Hstep.
  - unfold Threaded.streams_step in Hstep.
    destruct (Threaded.producer s).
    + injection Hstep as <-. split; [reflexivity | left; split; reflexivity].
    + destruct (Py.pop (Threaded.pool s)) as [[p rest]|];
        injection Hstep as <-;
        (split; [reflexivity | left; split; reflexivity]).
    + destruct (nth_error (Threaded.processors s) p);
        [|discriminate Hstep].
      injection Hstep as <-. split; [reflexivity | left; split; reflexivity].
    + destruct (nth_error (Threaded.processors s) p);
        [|discriminate Hstep].
      injection Hstep as <-. split; [reflexivity | left; split; reflexivity].
    + injection Hstep as <-. split; [reflexivity | left; split; reflexivity].
    + discriminate Hstep.
  - unfold Threaded.run_step in Hstep.
    destruct (nth_error (Threaded.processors s) i) as [w|];
      [|discriminate Hstep].
    destruct (Threaded.pc w).
    + destruct (Threaded.event w); injection Hstep as <-;
        (split; [reflexivity | left; split; reflexivity]).
    + injection Hstep as <-. split; [reflexivity|].
      right. exists systime. split; reflexivity.
    + destruct (Threaded.decode (Threaded.stream w)
                                    (Threaded.bin_pixels s));
        injection Hstep as <-;
        (split; [reflexivity | left; split; reflexivity]).
    + injection Hstep as <-. split; [reflexivity | left; split; reflexivity].
    + injection Hstep as <-. split; [reflexivity | left; split; reflexivity].
    + injection Hstep as <-. split; [reflexivity | left; split; reflexivity].
    + discriminate Hstep.
Qed.

Lemma globals_invariant (N K : nat) (pixels : list Z) (s : Threaded.state) :
  Threaded.reachable N K pixels s ->
  Threaded.taken s = length (Threaded.image_times s) /\
  Threaded.bin_pixels s = pixels.
Proof.
  induction 1 as [|a s s' _ [IHt IHp] Hstep].
  - split; reflexivity.
  - destruct (step_globals K a s s' Hstep)
      as (Hpx & [[Ht Hi] | (t & Ht & Hi)]).
    + split; congruence.
    + split; [|congruence].
      rewrite Ht, Hi, length_app, IHt. simpl. lia.
Qed.

(** In every state of a session the scan counter is the number of times
    recorded in image_times, the boundaries are those calibration left,
    and neither ever shrinks: a step leaves both alone or counts one frame
    and appends its time. *)
Theorem counter_matches_times (N K : nat) (pixels : list Z)
        (s : Threaded.state) :
  Threaded.reachable N K pixels s ->
  Threaded.taken s = length (Threaded.image_times s) /\
  Threaded.bin_pixels s = pixels /\
  (forall a s', Threaded.step K a s = Some s' ->
                (Threaded.taken s <= Threaded.taken s')%nat /\
                exists more,
                  Threaded.image_times s' = Threaded.image_times s ++ more).
Proof.
  intros Hs.
  destruct (globals_invariant N K pixels s Hs) as [Ht Hp].
  split; [exact Ht | split; [exact Hp|]].
  intros a s' Hstep.
  destruct (step_globals K a s s' Hstep) as (_ & [[Ht' Hi] | (t & Ht' & Hi)]).
  - split; [lia|]. exists []. rewrite app_nil_r. exact Hi.
  - split; [lia|]. exists [t]. exact Hi.
Qed.

Lemma counter_matches_times_witness :
  exists s,
    Threaded.run 1 Schedules.both_counted (Threaded.init 2 []) = Some s /\
    Threaded.taken s = 2%nat /\
    Threaded.taken s = length (Threaded.image_times s).
Proof.
  eexists. split; [vm_compute; reflexivity|].
  split; [reflexivity|].
  refine (proj1 (counter_matches_times 2 1 [] _ _)).
  apply (run_reachable 2 1 [] Schedules.both_counted (Threaded.init 2 []));
    [apply Threaded.reachable_init | vm_compute; reflexivity].
Defined.

(** The pattern a processor is about to publish, and the one published, are
    complete. *)
Lemma pattern_invariant (N K : nat) (pixels : list Z) (s : Threaded.state) :
  Threaded.reachable N K pixels s ->
  (Threaded.current_bit_pattern s = [] \/
   length (Threaded.current_bit_pattern s) = (length pixels - 1)%nat) /\
  (forall i w bits,
      nth_error (Threaded.processors s) i = Some w ->
      Threaded.pc w = Threaded.W_publish bits ->
      length bits = (length pixels - 1)%nat).
Proof.
  intros Hs.
  pose proof (proj2 (globals_invariant N K pixels s Hs)) as Hpx.
  revert Hpx.
  induction Hs as [|a s s' Hs IH Hstep]; intros Hpx.
  - split; [left; reflexivity|].
    intros i w bits Hn Hpc. apply nth_error_repeat_some in Hn. subst w.
    discriminate Hpc.
  - pose proof (proj2 (globals_invariant N K pixels s Hs)) as Hpx0.
    destruct (IH Hpx0) as [Hpat Hpub].
    assert (Hset : forall j w',
               Threaded.current_bit_pattern s'
               = Threaded.current_bit_pattern s ->
               Threaded.processors s'
               = Py.set_nth (Threaded.processors s) j w' ->
               (forall bits, Threaded.pc w' = Threaded.W_publish bits ->
                             length bits = (length pixels - 1)%nat) ->
               (Threaded.current_bit_pattern s' = [] \/
                length (Threaded.current_bit_pattern s')
                = (length pixels - 1)%nat) /\
               (forall i w bits,
                   nth_error (Threaded.processors s') i = Some w ->
                   Threaded.pc w = Threaded.W_publish bits ->
                   length bits = (length pixels - 1)%nat)).
    { intros j w' Hcp Hprocs Hnew. split; [rewrite Hcp; exact Hpat|].
      intros i w bits Hn Hpc. rewrite Hprocs in Hn.
      destruct (Nat.eq_dec j i) as [->|Hne].
      - destruct (Nat.lt_ge_cases i (length (Threaded.processors s)))
          as [Hi|Hi].
        + rewrite set_nth_same in Hn by exact Hi. injection Hn as <-.
          exact (Hnew bits Hpc).
        + apply nth_error_None in Hi.
          assert (Hnone : nth_error (Py.set_nth (Threaded.processors s) i w') i
                          = None).
          { apply nth_error_None. rewrite set_nth_length.
            apply nth_error_None. exact Hi. }
          congruence.
      - rewrite set_nth_other in Hn by exact Hne. exact (Hpub i w bits Hn Hpc). }
    destruct a as [captured | i systime]; cbn [Threaded.step] in Hstep.
    + unfold Threaded.streams_step in Hstep.
      destruct (Threaded.producer s).
      * injection Hstep as <-. split; assumption.
      * destruct (Py.pop (Threaded.pool s)) as [[p rest]|];
          injection Hstep as <-; split; assumption.
      * destruct (nth_error (Threaded.processors s) p) as [w|] eqn:Hn;
          [|discriminate Hstep].
        injection Hstep as <-.
        apply (Hset p (Threaded.Processor captured (Threaded.event w)
                                          (Threaded.pc w)));
          try reflexivity.
        intros bits Hb. exact (Hpub p w bits Hn Hb).
      * destruct (nth_error (Threaded.processors s) p) as [w|] eqn:Hn;
          [|discriminate Hstep].
        injection Hstep as <-.
        apply (Hset p (Threaded.Processor (Threaded.stream w) true
                                          (Threaded.pc w)));
          try reflexivity.
        intros bits Hb. exact (Hpub p w bits Hn Hb).
      * injection Hstep as <-. split; assumption.
      * discriminate Hstep.
    + unfold Threaded.run_step in Hstep.
      destruct (nth_error (Threaded.processors s) i) as [w|] eqn:Hn;
        [|discriminate Hstep].
      destruct (Threaded.pc w) eqn:Hpc.
      * destruct (Threaded.event w); injection Hstep as <-;
          [|split; assumption].
        apply (Hset i (Threaded.Processor (Threaded.stream w) true
                                          Threaded.W_accept));
          try reflexivity.
        intros bits Hb. discriminate Hb.
      * injection Hstep as <-.
        apply (Hset i (Threaded.Processor (Threaded.stream w)
                         (Threaded.event w) Threaded.W_decode));
          try reflexivity.
        intros bits Hb. discriminate Hb.
      * destruct (Threaded.decode (Threaded.stream w)
                                      (Threaded.bin_pixels s))
          as [e|bits0] eqn:Hbr; injection Hstep as <-.
        -- apply (Hset i (Threaded.Processor (Threaded.stream w)
                            (Threaded.event w)
                            (Threaded.W_finally (Some e))));
             try reflexivity.
           intros bits Hb. discriminate Hb.
        -- apply (Hset i (Threaded.Processor (Threaded.stream w)
                            (Threaded.event w) (Threaded.W_publish bits0)));
             try reflexivity.
           intros bits Hb. injection Hb as <-.
           rewrite <- Hpx0. exact (decode_length _ _ _ Hbr).
      * injection Hstep as <-.
        pose proof (Hpub i w bits Hn Hpc) as Hlen.
        split; [right; exact Hlen|].
        intros j w0 bits0 Hj Hb.
        cbn [Threaded.processors Threaded.with_processor
             Threaded.with_pattern] in Hj.
        destruct (Nat.eq_dec i j) as [->|Hne].
        -- rewrite set_nth_same in Hj
             by (apply nth_error_Some; congruence).
           injection Hj as <-. discriminate Hb.
        -- rewrite set_nth_other in Hj by exact Hne.
           exact (Hpub j w0 bits0 Hj Hb).
      * injection Hstep as <-.
        apply (Hset i (Threaded.Processor (Threaded.stream w) false
                         (Threaded.W_release raised)));
          try reflexivity.
        intros bits Hb. discriminate Hb.
      * injection Hstep as <-.
        apply (Hset i (Threaded.Processor (Threaded.stream w)
                         (Threaded.event w)
                         match raised with
                         | None => Threaded.W_wait
                         | Some e => Threaded.W_dead e
                         end));
          try reflexivity.
        intros bits Hb. destruct raised; discriminate Hb.
      * discriminate Hstep.
Qed.

(** The global current_bit_pattern never holds a partial result: in every
    state of a session it is still empty or has one bit for each pair of
    neighbouring boundaries, 20 bits for 21 boundaries. *)
Theorem published_pattern_complete (N K : nat) (pixels : list Z)
        (s : Threaded.state) :
  Threaded.reachable N K pixels s ->
  (Threaded.current_bit_pattern s = [] \/
   length (Threaded.current_bit_pattern s) = (length pixels - 1)%nat) /\
  (length pixels = 21%nat ->
   Threaded.current_bit_pattern s <> [] ->
   length (Threaded.current_bit_pattern s) = 20%nat).
Proof.
  intros Hs. destruct (pattern_invariant N K pixels s Hs) as [Hpat _].
  split; [exact Hpat|].
  intros H21 Hne. destruct Hpat as [Hnil|Hlen]; [contradiction|].
  rewrite Hlen, H21. reflexivity.
Qed.

Lemma published_pattern_complete_witness :
  exists s,
    Threaded.run 5 (Schedules.hand_over Frames.wide ++ Schedules.process 0)
                 (Threaded.init 1 (Scanner.bin_pixels 10 250)) = Some s /\
    Threaded.current_bit_pattern s <> [] /\
    length (Threaded.current_bit_pattern s) = 20%nat.
Proof.
  eexists. split; [vm_compute; reflexivity|].
  split; [discriminate|].
  refine (proj2 (published_pattern_complete 1 5 (Scanner.bin_pixels 10 250)
                   _ _) (bin_pixels_length 10 250) _).
  - apply (run_reachable 1 5 (Scanner.bin_pixels 10 250)
             (Schedules.hand_over Frames.wide ++ Schedules.process 0)
             (Threaded.init 1 (Scanner.bin_pixels 10 250)));
      [apply Threaded.reachable_init | vm_compute; reflexivity].
  - discriminate.
Defined.

(** ** g2scanner_threaded.py: close *)

Lemma pop_last (l : list nat) (x : nat) : Py.pop (l ++ [x]) = Some (x, l).
Proof.
  unfold Py.pop. rewrite rev_unit, rev_involutive. reflexivity.
Qed.

Lemma shut_down_rev (l : list nat) :
  Threaded.shut_down (length l) l = rev l.
Proof.
  induction l as [|x l IH] using rev_ind.
  - reflexivity.
  - rewrite length_app, Nat.add_comm. cbn [length Nat.add Threaded.shut_down].
    rewrite pop_last, IH, rev_unit. reflexivity.
Qed.

(** Once the session is complete the loop of close terminates and joins
    every processor exactly once, the one that returned to the pool last
    first: the processors it pops are the NUM_THREADS processors that
    __init__ created, in the reverse order of the pool. *)
Theorem close_joins_every_processor (N K : nat) (pixels : list Z)
        (s : Threaded.state) :
  Threaded.reachable N K pixels s ->
  Threaded.session_complete N s ->
  Threaded.shut_down (length (Threaded.pool s)) (Threaded.pool s)
  = rev (Threaded.pool s) /\
  NoDup (Threaded.shut_down (length (Threaded.pool s)) (Threaded.pool s)) /\
  Permutation (Threaded.shut_down (length (Threaded.pool s)) (Threaded.pool s))
              (seq 0 N).
Proof.
  intros Hs [_ Hfull].
  destruct (pool_invariant_reachable N K pixels s Hs)
    as (_ & Hin & Hout & _ & _).
  assert (Hnd : NoDup (Threaded.pool s)).
  { apply (proj2 (NoDup_count_occ Nat.eq_dec (Threaded.pool s))).
    intros i. destruct (Nat.lt_ge_cases i N) as [Hi|Hi].
    - specialize (Hin i Hi). unfold Threaded.owners in Hin. lia.
    - specialize (Hout i Hi). unfold Threaded.owners in Hout. lia. }
  assert (Hincl : incl (Threaded.pool s) (seq 0 N)).
  { intros i Hi. apply in_seq.
    destruct (Nat.lt_ge_cases i N) as [Hlt|Hge]; [lia|].
    specialize (Hout i Hge). unfold Threaded.owners in Hout.
    apply (count_occ_In Nat.eq_dec) in Hi. lia. }
  rewrite shut_down_rev.
  split; [reflexivity | split].
  - apply NoDup_rev. exact Hnd.
  - apply Permutation_trans with (Threaded.pool s).
    + apply Permutation_sym, Permutation_rev.
    + apply NoDup_Permutation_bis; auto.
      rewrite length_seq, Hfull. lia.
Qed.

Lemma close_joins_every_processor_witness :
  exists s,
    Threaded.run 1 Schedules.both_counted (Threaded.init 2 []) = Some s /\
    Threaded.session_complete 2 s /\
    Threaded.shut_down (length (Threaded.pool s)) (Threaded.pool s)
    = [0%nat; 1%nat] /\
    Permutation
      (Threaded.shut_down (length (Threaded.pool s)) (Threaded.pool s))
      (seq 0 2).
Proof.
  eexists. split; [vm_compute; reflexivity|].
  match goal with
  | |- Threaded.session_complete 2 ?s /\ _ =>
      assert (Hc : Threaded.session_complete 2 s) by (split; reflexivity);
      assert (Hs : Threaded.reachable 2 1 [] s)
  end.
  { apply (run_reachable 2 1 [] Schedules.both_counted (Threaded.init 2 []));
      [apply Threaded.reachable_init | vm_compute; reflexivity]. }
  split; [exact Hc | split; [reflexivity|]].
  exact (proj2 (proj2 (close_joins_every_processor 2 1 [] _ Hs Hc))).
Defined.

Lemma set_nth_middle (A : Type) (l1 l2 : list A) (a x : A) :
  Py.set_nth (l1 ++ a :: l2) (length l1) x = l1 ++ x :: l2.
Proof.
  induction l1 as [|h t IH]; simpl; [reflexivity|]. rewrite IH. reflexivity.
Qed.

Lemma shift_times_all (t0 : Q) (todo shifted : list Q) :
  Threaded.shift_times (shifted ++ todo) t0 (length shifted) (length todo)
  = inr (shifted ++ map (fun x => (x - t0)%Q) todo).
Proof.
  revert shifted. induction todo as [|a todo IH]; intros shifted.
  - reflexivity.
  - cbn [length Threaded.shift_times].
    rewrite nth_error_app2 by lia. rewrite Nat.sub_diag. cbn [nth_error].
    rewrite set_nth_middle.
    change (shifted ++ (a - t0)%Q :: todo)
      with (shifted ++ [(a - t0)%Q] ++ todo).
    rewrite app_assoc.
    replace (S (length shifted)) with (length (shifted ++ [(a - t0)%Q]))
      by (rewrite length_app; simpl; lia).
    rewrite IH, <- app_assoc. reflexivity.
Qed.

Lemma last_shifted (t0 d : Q) (l : list Q) :
  last (map (fun x => (x - t0)%Q) l) (d - t0)%Q = (last l d - t0)%Q.
Proof.
  induction l as [|a l IH]; [reflexivity|].
  destruct l as [|b l]; [reflexivity|].
  change (last (map (fun x => (x - t0)%Q) (a :: b :: l)) (d - t0)%Q)
    with (last (map (fun x => (x - t0)%Q) (b :: l)) (d - t0)%Q).
  rewrite IH. reflexivity.
Qed.

(** The scan rate that close prints for NUM_SCANS > 1, once the session is
    complete: the loop over range(taken) never leaves image_times, and the
    rate is the counter over the time between the first and the last
    counted frame; it raises ZeroDivisionError when those two times are
    equal. *)
Theorem close_scan_rate (N K : nat) (pixels : list Z) (s : Threaded.state) :
  (2 <= K)%nat ->
  Threaded.reachable N K pixels s ->
  Threaded.session_complete N s ->
  exists t0 rest,
    Threaded.image_times s = t0 :: rest /\
    (2 <= Threaded.taken s)%nat /\
    Threaded.average_scan_rate s
    = (if Qeq_bool (last rest t0 - t0) 0 then inl Py.ZeroDivisionError
       else inr (inject_Z (Z.of_nat (Threaded.taken s))
                 / (last rest t0 - t0))%Q).
Proof.
  intros HK Hs Hc.
  destruct (globals_invariant N K pixels s Hs) as (Ht & _).
  destruct (count_invariant_reachable N K pixels s ltac:(lia) Hs)
    as (_ & H2 & H3).
  destruct Hc as [Hexit _].
  destruct (H2 (H3 Hexit)) as [Hge _].
  destruct (Threaded.image_times s) as [|t0 rest] eqn:Htimes;
    [simpl in Ht; lia|].
  exists t0, rest. split; [reflexivity | split; [lia|]].
  unfold Threaded.average_scan_rate. rewrite Htimes, Ht.
  pose proof (shift_times_all t0 (t0 :: rest) []) as Hsh.
  cbn [app] in Hsh. change (length (@nil Q)) with 0%nat in Hsh.
  rewrite Hsh. cbn [app map Py.bind].
  assert (Hlast : last ((t0 - t0)%Q :: map (fun x => (x - t0)%Q) rest)
                       (t0 - t0)%Q
                  = (last rest t0 - t0)%Q).
  { rewrite <- (last_shifted t0 t0 rest).
    destruct (map (fun x => (x - t0)%Q) rest); reflexivity. }
  rewrite Hlast. reflexivity.
Qed.

Lemma close_scan_rate_witness :
  exists s,
    Threaded.run 2 Schedules.two_scans (Threaded.init 1 []) = Some s /\
    Threaded.session_complete 1 s /\
    Threaded.average_scan_rate s = inr (2 / (3 - 1))%Q.
Proof.
  eexists. split; [vm_compute; reflexivity|].
  match goal with
  | |- Threaded.session_complete 1 ?s /\ _ =>
      assert (Hc : Threaded.session_complete 1 s) by (split; reflexivity);
      assert (Hs : Threaded.reachable 1 2 [] s)
  end.
  { apply (run_reachable 1 2 [] Schedules.two_scans (Threaded.init 1 []));
      [apply Threaded.reachable_init | vm_compute; reflexivity]. }
  split; [exact Hc|].
  destruct (close_scan_rate 1 2 [] _ (le_n 2) Hs Hc)
    as (t0 & rest & Htimes & _ & Hrate).
  injection Htimes as <- <-. exact Hrate.
Defined.

(** ** g2scanner_threaded.py: frames of the camera *)

Lemma decode_camera_frame (arr : Py.frame) (pixels : list Z) :
  Threaded.camera_frame arr ->
  exists bits, Threaded.decode arr pixels = inr bits.
Proof.
  intros [Hlen Hrect]. unfold Threaded.decode.
  destruct arr as [|row rows]; [discriminate Hlen|].
  destruct (column_rectangular 16 (row :: rows) Threaded.SCAN_COLUMN Hrect
              ltac:(unfold Threaded.SCAN_COLUMN; lia)) as [col Hcol].
  induction pixels as [|tp [|bp rest] IH].
  - eexists. reflexivity.
  - eexists. reflexivity.
  - destruct IH as [bits Hbits].
    change (Threaded.brightness (row :: rows) (tp :: bp :: rest))
      with (col0 <- Py.column (row :: rows) Threaded.SCAN_COLUMN ;;
            bits0 <- Threaded.brightness (row :: rows) (bp :: rest) ;;
            Py.ret (Threaded.bin_brightness col0 tp bp :: bits0)).
    rewrite Hcol. cbn [Py.bind]. rewrite Hbits. eexists. reflexivity.
Qed.

Lemma filming_invariant_init (N : nat) (pixels : list Z) :
  Threaded.filming_invariant (Threaded.init N pixels).
Proof.
  split.
  - intros i w Hn. cbn [Threaded.init Threaded.processors] in Hn.
    apply nth_error_In, repeat_spec in Hn. subst w.
    unfold Threaded.healthy. cbn. discriminate.
  - intros p w Hpc. discriminate Hpc.
Qed.

(** A step that leaves the producer where it is and replaces processor [i]
    by a healthy one with the same stream. *)
Lemma filming_invariant_update (s s' : Threaded.state) (i : nat)
      (w w' : Threaded.processor) :
  Threaded.filming_invariant s ->
  nth_error (Threaded.processors s) i = Some w ->
  Threaded.processors s' = Py.set_nth (Threaded.processors s) i w' ->
  Threaded.producer s' = Threaded.producer s ->
  Threaded.stream w' = Threaded.stream w ->
  Threaded.healthy w' ->
  Threaded.filming_invariant s'.
Proof.
  intros [Hall Hset] Hn Hps Hpr Hst Hw'.
  assert (Hi : (i < length (Threaded.processors s))%nat)
    by (apply nth_error_Some; congruence).
  split.
  - intros j w0 Hj. rewrite Hps in Hj.
    destruct (Nat.eq_dec i j) as [->|Hne].
    + rewrite set_nth_same in Hj by exact Hi. injection Hj as <-. exact Hw'.
    + rewrite set_nth_other in Hj by exact Hne. exact (Hall j w0 Hj).
  - intros p w0 Hpc Hp. rewrite Hpr in Hpc. rewrite Hps in Hp.
    destruct (Nat.eq_dec i p) as [->|Hne].
    + rewrite set_nth_same in Hp by exact Hi. injection Hp as <-.
      rewrite Hst. exact (Hset p w Hpc Hn).
    + rewrite set_nth_other in Hp by exact Hne. exact (Hset p w0 Hpc Hp).
Qed.

(** A step of the producer that leaves the processors alone and does not
    arrive at [P_set]. *)
Lemma filming_invariant_producer (s s' : Threaded.state) :
  Threaded.filming_invariant s ->
  Threaded.processors s' = Threaded.processors s ->
  (forall p, Threaded.producer s' <> Threaded.P_set p) ->
  Threaded.filming_invariant s'.
Proof.
  intros [Hall Hset] Hps Hpr. split.
  - intros i w Hn. rewrite Hps in Hn. exact (Hall i w Hn).
  - intros p w Hpc. exfalso. exact (Hpr p Hpc).
Qed.

Lemma filming_invariant_step (K : nat) (a : Threaded.actor)
      (s s' : Threaded.state) :
  Threaded.filming_invariant s ->
  Threaded.from_camera a ->
  Threaded.step K a s = Some s' ->
  Threaded.filming_invariant s'.
Proof.
  intros Hinv Hcam Hstep. pose proof Hinv as [Hall Hset].
  destruct a as [captured | i systime]; cbn [Threaded.step] in Hstep;
    cbn [Threaded.from_camera] in Hcam.
  - unfold Threaded.streams_step in Hstep.
    destruct (Threaded.producer s) eqn:Hpc.
    + injection Hstep as <-.
      apply (filming_invariant_producer s); auto.
      intros p. cbn. destruct (Threaded.done s); discriminate.
    + destruct (Py.pop (Threaded.pool s)) as [[p rest]|];
        injection Hstep as <-;
        apply (filming_invariant_producer s); auto;
        intros q; cbn; discriminate.
    + destruct (nth_error (Threaded.processors s) p) as [w|] eqn:Hn;
        [|discriminate Hstep].
      injection Hstep as <-.
      assert (Hi : (p < length (Threaded.processors s))%nat)
        by (apply nth_error_Some; congruence).
      pose proof (Hall p w Hn) as Hw.
      split.
      * intros j w0 Hj.
        cbn [Threaded.processors Threaded.with_producer
             Threaded.with_processor] in Hj.
        destruct (Nat.eq_dec p j) as [->|Hne].
        -- rewrite set_nth_same in Hj by exact Hi. injection Hj as <-.
           unfold Threaded.healthy in *.
           cbn [Threaded.pc Threaded.event Threaded.stream].
           destruct (Threaded.pc w) as [| | | |[e|]|[e|]|e]; auto.
        -- rewrite set_nth_other in Hj by exact Hne. exact (Hall j w0 Hj).
      * intros q w0 Hq Hj.
        cbn [Threaded.producer Threaded.with_producer] in Hq.
        injection Hq as <-.
        cbn [Threaded.processors Threaded.with_producer
             Threaded.with_processor] in Hj.
        rewrite set_nth_same in Hj by exact Hi. injection Hj as <-.
        exact Hcam.
    + destruct (nth_error (Threaded.processors s) p) as [w|] eqn:Hn;
        [|discriminate Hstep].
      injection Hstep as <-.
      assert (Hi : (p < length (Threaded.processors s))%nat)
        by (apply nth_error_Some; congruence).
      pose proof (Hall p w Hn) as Hw.
      pose proof (Hset p w eq_refl Hn) as Hframe.
      split.
      * intros j w0 Hj.
        cbn [Threaded.processors Threaded.with_producer
             Threaded.with_processor] in Hj.
        destruct (Nat.eq_dec p j) as [->|Hne].
        -- rewrite set_nth_same in Hj by exact Hi. injection Hj as <-.
           unfold Threaded.healthy in *.
           cbn [Threaded.pc Threaded.event Threaded.stream].
           destruct (Threaded.pc w) as [| | | |[e|]|[e|]|e]; auto.
        -- rewrite set_nth_other in Hj by exact Hne. exact (Hall j w0 Hj).
      * intros q w0 Hq. discriminate Hq.
    + injection Hstep as <-.
      apply (filming_invariant_producer s); auto.
      intros p. cbn. discriminate.
    + discriminate Hstep.
  - unfold Threaded.run_step in Hstep.
    destruct (nth_error (Threaded.processors s) i) as [w|] eqn:Hn;
      [|discriminate Hstep].
    pose proof (Hall i w Hn) as Hw. unfold Threaded.healthy in Hw.
    destruct (Threaded.pc w) as [| | |bits|r|r|e] eqn:Hpc.
    + destruct (Threaded.event w) eqn:He; injection Hstep as <-;
        [|exact Hinv].
      apply (filming_invariant_update s _ i w
               (Threaded.Processor (Threaded.stream w) true
                                   Threaded.W_accept)); auto.
      unfold Threaded.healthy. cbn. auto.
    + injection Hstep as <-.
      apply (filming_invariant_update s _ i w
               (Threaded.Processor (Threaded.stream w) (Threaded.event w)
                                   Threaded.W_decode)); auto.
    + destruct (decode_camera_frame (Threaded.stream w)
                                    (Threaded.bin_pixels s) Hw)
        as [bits Hbits].
      rewrite Hbits in Hstep. injection Hstep as <-.
      apply (filming_invariant_update s _ i w
               (Threaded.Processor (Threaded.stream w) (Threaded.event w)
                                   (Threaded.W_publish bits))); auto.
    + injection Hstep as <-.
      apply (filming_invariant_update s _ i w
               (Threaded.Processor (Threaded.stream w) (Threaded.event w)
                                   (Threaded.W_finally None))); auto.
    + destruct r as [e|]; [contradiction|].
      injection Hstep as <-.
      apply (filming_invariant_update s _ i w
               (Threaded.Processor (Threaded.stream w) false
                                   (Threaded.W_release None))); auto.
    + destruct r as [e|]; [contradiction|].
      injection Hstep as <-.
      apply (filming_invariant_update s _ i w
               (Threaded.Processor (Threaded.stream w) (Threaded.event w)
                                   Threaded.W_wait)); auto.
      unfold Threaded.healthy. cbn. auto.
    + contradiction.
Qed.

Lemma filming_invariant_filming (N K : nat) (pixels : list Z)
      (s : Threaded.state) :
  Threaded.filming N K pixels s -> Threaded.filming_invariant s.
Proof.
  induction 1 as [|a s s' _ IH Hcam Hstep].
  - apply filming_invariant_init.
  - exact (filming_invariant_step K a s s' IH Hcam Hstep).
Qed.

Lemma run_filming (N K : nat) (pixels : list Z) (trace : list Threaded.actor)
      (s s' : Threaded.state) :
  Threaded.filming N K pixels s ->
  Forall Threaded.from_camera trace ->
  Threaded.run K trace s = Some s' ->
  Threaded.filming N K pixels s'.
Proof.
  revert s. induction trace as [|a rest IH]; intros s Hs Hcam Hrun;
    simpl in Hrun.
  - injection Hrun as <-. exact Hs.
  - destruct (Threaded.step K a s) as [s1|] eqn:Hstep; [|discriminate].
    inversion Hcam as [|? ? Ha Hrest]; subst.
    apply (IH s1); [|exact Hrest | exact Hrun].
    exact (Threaded.filming_step N K pixels a s s1 Hs Ha Hstep).
Qed.

(** As long as the frames are those of the camera, 300 rows of 16 pixels,
    no processor of g2scanner_threaded.py ever raises: none is in its
    finally block or at the release with an exception pending, none has
    left [run], and a processor about to decode gets its bits. *)
Theorem camera_frames_never_raise (N K : nat) (pixels : list Z)
        (s : Threaded.state) (i : nat) (w : Threaded.processor) :
  Threaded.filming N K pixels s ->
  nth_error (Threaded.processors s) i = Some w ->
  (forall e, Threaded.pc w <> Threaded.W_finally (Some e) /\
             Threaded.pc w <> Threaded.W_release (Some e) /\
             Threaded.pc w <> Threaded.W_dead e) /\
  (Threaded.pc w = Threaded.W_decode ->
   exists bits,
     Threaded.decode (Threaded.stream w) (Threaded.bin_pixels s) = inr bits).
Proof.
  intros Hs Hn.
  destruct (filming_invariant_filming N K pixels s Hs) as [Hall _].
  pose proof (Hall i w Hn) as Hw. unfold Threaded.healthy in Hw.
  split.
  - intros e. repeat split; intros Hpc; rewrite Hpc in Hw; exact Hw.
  - intros Hpc. rewrite Hpc in Hw. apply decode_camera_frame. exact Hw.
Qed.

Lemma blank_camera_frame : Threaded.camera_frame Frames.blank.
Proof.
  split; [vm_compute; reflexivity | exact blank_rectangular].
Qed.

Lemma camera_frames_never_raise_witness :
  exists s w,
    Threaded.run 1 (Schedules.hand_over Frames.blank
                    ++ repeat (Threaded.Worker 0 0) 2)
                 (Threaded.init 1 [0; 150; 299])
    = Some s /\
    nth_error (Threaded.processors s) 0 = Some w /\
    Threaded.pc w = Threaded.W_decode /\
    exists bits,
      Threaded.decode (Threaded.stream w) (Threaded.bin_pixels s) = inr bits.
Proof.
  eexists. eexists. split; [vm_compute; reflexivity|].
  split; [reflexivity|]. split; [reflexivity|].
  match goal with
  | |- exists bits,
         Threaded.decode (Threaded.stream _) (Threaded.bin_pixels ?s) = _ =>
      assert (Hs : Threaded.filming 1 1 [0; 150; 299] s)
  end.
  { apply (run_filming 1 1 [0; 150; 299]
             (Schedules.hand_over Frames.blank
              ++ repeat (Threaded.Worker 0 0) 2)
             (Threaded.init 1 [0; 150; 299]));
      [apply Threaded.filming_init | | vm_compute; reflexivity].
    repeat constructor; exact blank_camera_frame. }
  exact (proj2 (camera_frames_never_raise 1 1 _ _ 0 _ Hs eq_refl) eq_refl).
Defined.

(** ** g2scanner_threaded2.py: calibration and the cycle *)

Lemma round_Qeq (x y : Q) : (x == y)%Q -> Py.round x = Py.round y.
Proof.
  intros H. unfold Py.round.
  assert (Hb : Qle_bool 0 x = Qle_bool 0 y).
  { destruct (Qle_bool 0 x) eqn:Hx, (Qle_bool 0 y) eqn:Hy; auto.
    - apply Qle_bool_iff in Hx. rewrite H in Hx.
      apply Qle_bool_iff in Hx. congruence.
    - apply Qle_bool_iff in Hy. rewrite <- H in Hy.
      apply Qle_bool_iff in Hy. congruence. }
  rewrite Hb. destruct (Qle_bool 0 y).
  - apply Qfloor_comp. rewrite H. reflexivity.
  - f_equal. apply Qfloor_comp. rewrite H. reflexivity.
Qed.

Lemma arange_samples (top bottom : nat) :
  (top < bottom)%nat ->
  Threaded2.arange (inject_Z (Z.of_nat top))
    (inject_Z (Z.of_nat bottom)
     + Qabs ((inject_Z (Z.of_nat bottom) - inject_Z (Z.of_nat top)) / 20))
    (Qabs ((inject_Z (Z.of_nat bottom) - inject_Z (Z.of_nat top)) / 20))
  = inr (map (fun i : nat =>
                (inject_Z (Z.of_nat top) + inject_Z (Z.of_nat i)
                 * Qabs ((inject_Z (Z.of_nat bottom)
                          - inject_Z (Z.of_nat top)) / 20))%Q)
             (seq 0 21)).
Proof.
  intros Hlt.
  destruct (arange_21 top bottom Hlt) as (l & Hl & Hlen).
  rewrite Hl. f_equal.
  unfold Threaded2.arange in Hl.
  destruct (Qeq_bool _ 0); [discriminate|].
  injection Hl as <-.
  rewrite length_map, length_seq in Hlen. rewrite Hlen. reflexivity.
Qed.

Lemma step_abs (top bottom : nat) :
  (top <= bottom)%nat ->
  (Qabs ((inject_Z (Z.of_nat bottom) - inject_Z (Z.of_nat top)) / 20)
   == (inject_Z (Z.of_nat bottom) - inject_Z (Z.of_nat top))
      / inject_Z (Z.of_nat (21 - 1)))%Q.
Proof.
  intros Hle. change (inject_Z (Z.of_nat (21 - 1))) with 20%Q.
  apply Qabs_pos. apply Qle_shift_div_l; [reflexivity|].
  rewrite Qmult_0_l.
  rewrite <- (Qplus_opp_r (inject_Z (Z.of_nat top))).
  apply Qplus_le_l. rewrite <- Zle_Qle. lia.
Qed.

(** When both markers are found on different rows, [_calibrate] stores the
    boundaries that g2scanner.py computes with linspace. *)
Lemma calibrate_found (self : Threaded2.processor) (lum : list Q)
      (top bottom : nat) :
  Threaded2.array (Threaded2.stream self) <> [] ->
  Threaded2.fill_luminosity (Threaded2.array (Threaded2.stream self))
    (Threaded2.scan_column self) (Threaded2.bin_luminosity self)
  = (lum, inr tt) ->
  Py.first_up (fun i => Py.Qltb (nth i lum 0%Q) Threaded2.BLACK_BRIGHTNESS_MAX)
              0 (length (Threaded2.array (Threaded2.stream self)))
  = Some top ->
  Py.first_down
    (fun i => Py.Qltb (nth i lum 0%Q) Threaded2.BLACK_BRIGHTNESS_MAX)
    (length (Threaded2.array (Threaded2.stream self)))
  = Some bottom ->
  top <> bottom ->
  Threaded2._calibrate self
  = (Threaded2.with_pixels (Threaded2.with_luminosity self lum)
                           (Scanner.bin_pixels top bottom),
     inr tt).
Proof.
  intros Hne Hfill Ht Hb Hdiff.
  destruct (markers_ordered _ _ top bottom Ht Hb) as [Hle _].
  unfold Threaded2._calibrate.
  destruct (Threaded2.array (Threaded2.stream self)) as [|row rows] eqn:Harr;
    [congruence|].
  rewrite Hfill, Ht, Hb.
  rewrite (arange_samples top bottom ltac:(lia)).
  cbn [Py.ret]. f_equal. f_equal.
  change (firstn 21 (map ?f (seq 0 21))) with (map f (seq 0 21)).
  unfold Scanner.bin_pixels, Py.linspace.
  rewrite !map_map. apply map_ext. intros i.
  apply round_Qeq. rewrite (step_abs top bottom Hle). reflexivity.
Qed.

(** The boundaries of g2scanner_threaded2.py in doubles, for the two marker
    rows of a frame of at most 300 rows: with the markers on different rows
    there are exactly 21 of them, from the top marker row to the bottom
    marker row, inside the frame, never decreasing, and increasing when the
    markers are at least 20 rows apart; with both markers on one row the
    step is zero and [np.arange] raises. *)
Theorem calibrate_layout64 (dark : nat -> bool) (ROWS top bottom : nat) :
  (ROWS <= 300)%nat ->
  Py.first_up dark 0 ROWS = Some top ->
  Py.first_down dark ROWS = Some bottom ->
  ((top < bottom)%nat ->
   exists px,
     Threaded2.bin_pixels64 top bottom = inr px /\
     length px = 21%nat /\
     Layout.partition ROWS top bottom px) /\
  (top = bottom ->
   Threaded2.bin_pixels64 top bottom = inl Py.ZeroDivisionError).
Proof.
  intros HR Ht Hb.
  pose proof (markers_ordered dark ROWS top bottom Ht Hb) as Hm.
  apply (threaded2_layout ROWS); assumption.
Qed.

Lemma calibrate_layout64_witness :
  Py.first_up
    (fun i => Py.Qltb
                (nth i (fst (Threaded2.fill_luminosity Frames.wide 8 [])) 0%Q)
                Threaded2.BLACK_BRIGHTNESS_MAX) 0 300 = Some 10%nat /\
  Py.first_down
    (fun i => Py.Qltb
                (nth i (fst (Threaded2.fill_luminosity Frames.wide 8 [])) 0%Q)
                Threaded2.BLACK_BRIGHTNESS_MAX) 300 = Some 250%nat /\
  exists px, Threaded2.bin_pixels64 10 250 = inr px /\ length px = 21%nat.
Proof.
  assert (Ht : Py.first_up
                 (fun i => Py.Qltb
                             (nth i (fst (Threaded2.fill_luminosity
                                            Frames.wide 8 [])) 0%Q)
                             Threaded2.BLACK_BRIGHTNESS_MAX) 0 300
               = Some 10%nat) by (vm_compute; reflexivity).
  assert (Hb : Py.first_down
                 (fun i => Py.Qltb
                             (nth i (fst (Threaded2.fill_luminosity
                                            Frames.wide 8 [])) 0%Q)
                             Threaded2.BLACK_BRIGHTNESS_MAX) 300
               = Some 250%nat) by (vm_compute; reflexivity).
  split; [exact Ht | split; [exact Hb|]].
  destruct (proj1 (calibrate_layout64 _ 300 10 250 (le_n 300) Ht Hb)
                  ltac:(lia)) as (px & Hpx & Hlen & _).
  exists px. split; [exact Hpx | exact Hlen].
Defined.

Lemma body_globals (K : nat) (t : Q) (self : Threaded2.processor)
      (g : Threaded2.globals) :
  snd (fst (Threaded2.body K t self g))
  = Threaded2.Globals
      (if (K <=? S (Threaded2.taken g))%nat then true else Threaded2.done g)
      (Threaded2.pool g) (Threaded2.image_times g ++ [t])
      (S (Threaded2.taken g)).
Proof.
  unfold Threaded2.body, Threaded2.accept.
  destruct (Threaded2._calibrate _) as [self3 [e|u]]; [reflexivity|].
  destruct (Threaded2.fill_bit_pattern _ _ _ _) as [bits [e|u']];
    reflexivity.
Qed.

(** Every cycle counts its frame before it looks at it: whether the frame
    is decoded, has no markers or makes the decode loop raise, afterwards
    the counter is one higher, the time of the frame is appended, and done
    is set when the counter has reached NUM_SCANS; the pool is as before or
    has this processor appended. *)
Theorem cycle_counts_frame (K me : nat) (t : Q) (self : Threaded2.processor)
        (g : Threaded2.globals) :
  Threaded2.taken (snd (fst (fst (Threaded2.cycle K me t self g))))
  = S (Threaded2.taken g) /\
  Threaded2.image_times (snd (fst (fst (Threaded2.cycle K me t self g))))
  = Threaded2.image_times g ++ [t] /\
  Threaded2.done (snd (fst (fst (Threaded2.cycle K me t self g))))
  = (if (K <=? S (Threaded2.taken g))%nat then true else Threaded2.done g) /\
  (Threaded2.pool (snd (fst (fst (Threaded2.cycle K me t self g))))
   = Threaded2.pool g \/
   Threaded2.pool (snd (fst (fst (Threaded2.cycle K me t self g))))
   = Threaded2.pool g ++ [me]).
Proof.
  pose proof (body_globals K t self g) as Hg.
  unfold Threaded2.cycle.
  destruct (Threaded2.body K t self g) as [[self1 g1] tried].
  cbn [fst snd] in Hg. subst g1.
  unfold Threaded2._rewind.
  destruct (Threaded2.closed (Threaded2.stream self1)).
  - cbn. repeat split; auto.
  - destruct tried; cbn; repeat split; auto.
Qed.

Lemma calibrate_stream (self : Threaded2.processor) :
  snd (Threaded2._calibrate self) = inr tt ->
  Threaded2.stream (fst (Threaded2._calibrate self)) = Threaded2.stream self.
Proof.
  unfold Threaded2._calibrate.
  destruct (Threaded2.array (Threaded2.stream self)) as [|row rows];
    [discriminate|].
  destruct (Threaded2.fill_luminosity _ _ _) as [lum [e|u]];
    [discriminate|].
  destruct (Py.first_up _ 0 _) as [top|]; [|discriminate].
  destruct (Py.first_down _ _) as [bottom|]; [|discriminate].
  destruct (Threaded2.arange _ _ _) as [e|l]; [discriminate|].
  reflexivity.
Qed.

Lemma body_stream (K : nat) (t : Q) (self : Threaded2.processor)
      (g : Threaded2.globals) (bits : list Z) :
  snd (Threaded2.body K t self g) = inr bits ->
  Threaded2.stream (fst (fst (Threaded2.body K t self g)))
  = Threaded2.stream self.
Proof.
  unfold Threaded2.body, Threaded2.accept.
  set (self2 := Threaded2.Processor _ _ _ [] [] [] 8).
  pose proof (calibrate_stream self2) as Hcal.
  destruct (Threaded2._calibrate self2) as [self3 [e|[]]];
    [discriminate|].
  cbn [fst snd] in Hcal.
  destruct (Threaded2.fill_bit_pattern _ _ _ _) as [bits' [e|u]];
    [discriminate|].
  intros _. cbn [fst snd Threaded2.with_pattern Threaded2.stream].
  rewrite (Hcal eq_refl). reflexivity.
Qed.

(** A cycle that returns to the wait has printed a complete pattern of 20
    bits, has cleared its event and has appended its processor to the
    pool; its stream is still open and [stream.array] is the frame it was:
    [seek] and [truncate] do not touch the array. *)
Theorem cycle_success_releases (K me : nat) (t : Q)
        (self : Threaded2.processor) (g : Threaded2.globals) :
  snd (fst (Threaded2.cycle K me t self g)) = Threaded2.Waiting ->
  (exists bits, snd (Threaded2.cycle K me t self g) = Some bits /\
                length bits = 20%nat) /\
  Threaded2.pool (snd (fst (fst (Threaded2.cycle K me t self g))))
  = Threaded2.pool g ++ [me] /\
  Threaded2.event (fst (fst (fst (Threaded2.cycle K me t self g)))) = false /\
  Threaded2.stream (fst (fst (fst (Threaded2.cycle K me t self g))))
  = Threaded2.stream self /\
  Threaded2.closed (Threaded2.stream self) = false.
Proof.
  intros Hw.
  pose proof (cycle_prints_twenty K me t self g) as H20.
  pose proof (body_globals K t self g) as Hg.
  pose proof (body_stream K t self g) as Hst.
  unfold Threaded2.cycle in *.
  destruct (Threaded2.body K t self g) as [[self1 g1] tried].
  cbn [fst snd] in Hg, Hst. subst g1.
  unfold Threaded2._rewind in *.
  destruct (Threaded2.closed (Threaded2.stream self1)) eqn:Hcl;
    [discriminate Hw|].
  destruct tried as [e|bits]; [discriminate Hw|].
  specialize (Hst bits eq_refl).
  cbn in *. split; [|repeat split; auto].
  - exists bits. split; [reflexivity | apply H20; reflexivity].
  - rewrite <- Hst. exact Hcl.
Qed.

Lemma cycle_success_releases_witness :
  snd (fst (Threaded2.cycle 30 0 0 (Schedules.signalled Frames.wide)
                            Schedules.fresh)) = Threaded2.Waiting /\
  Threaded2.pool
    (snd (fst (fst (Threaded2.cycle 30 0 0 (Schedules.signalled Frames.wide)
                                    Schedules.fresh))))
  = [0%nat].
Proof.
  assert (Hw : snd (fst (Threaded2.cycle 30 0 0
                           (Schedules.signalled Frames.wide)
                           Schedules.fresh)) = Threaded2.Waiting)
    by (vm_compute; reflexivity).
  split; [exact Hw|].
  exact (proj1 (proj2 (cycle_success_releases 30 0 0 _ _ Hw))).
Defined.

(** With the markers fewer than 170 rows apart the first bin has at most 8
    rows, and [array[tp:bp][scan_column]] asks that slice for its row 8:
    the decode loop raises IndexError before the first bit.  The finally
    block still clears the event and appends the processor to the pool,
    nothing is printed, and the thread ends. *)
Theorem short_bins_raise (K me : nat) (t : Q) (self : Threaded2.processor)
        (g : Threaded2.globals) (lum : list Q) (top bottom : nat) :
  Threaded2.closed (Threaded2.stream self) = false ->
  Threaded2.array (Threaded2.stream self) <> [] ->
  Threaded2.fill_luminosity (Threaded2.array (Threaded2.stream self)) 8 []
  = (lum, inr tt) ->
  Py.first_up (fun i => Py.Qltb (nth i lum 0%Q) Threaded2.BLACK_BRIGHTNESS_MAX)
              0 (length (Threaded2.array (Threaded2.stream self)))
  = Some top ->
  Py.first_down
    (fun i => Py.Qltb (nth i lum 0%Q) Threaded2.BLACK_BRIGHTNESS_MAX)
    (length (Threaded2.array (Threaded2.stream self)))
  = Some bottom ->
  (top < bottom < top + 170)%nat ->
  snd (fst (Threaded2.cycle K me t self g)) = Threaded2.Died Py.IndexError /\
  snd (Threaded2.cycle K me t self g) = None /\
  Threaded2.pool (snd (fst (fst (Threaded2.cycle K me t self g))))
  = Threaded2.pool g ++ [me] /\
  Threaded2.event (fst (fst (fst (Threaded2.cycle K me t self g)))) = false.
Proof.
  intros Hopen Hne Hfill Ht Hb Hnear.
  set (self2 := Threaded2.Processor (Threaded2.stream self)
                  (Threaded2.event self) (Threaded2.taken g) [] [] [] 8).
  assert (Hcal : Threaded2._calibrate self2
                 = (Threaded2.with_pixels
                      (Threaded2.with_luminosity self2 lum)
                      (Scanner.bin_pixels top bottom), inr tt))
    by (apply calibrate_found; auto; lia).
  assert (H0 : nth 0 (Scanner.bin_pixels top bottom) 0 = Z.of_nat top).
  { rewrite bin_pixels_nth by lia. change (Z.of_nat 0) with 0.
    rewrite Z.mul_0_l. change ((0 + 10) / 20) with 0. lia. }
  assert (H1 : nth 1 (Scanner.bin_pixels top bottom) 0
               <= Z.of_nat top + 8).
  { rewrite bin_pixels_nth by lia. change (Z.of_nat 1) with 1.
    assert ((1 * (Z.of_nat bottom - Z.of_nat top) + 10) / 20 < 9)
      by (apply Z.div_lt_upper_bound; lia).
    lia. }
  pose proof (bin_pixels_length top bottom) as Hlen.
  destruct (Scanner.bin_pixels top bottom) as [|b0 [|b1 rest]] eqn:Hpx;
    try (simpl in Hlen; lia).
  cbn [nth] in H0, H1.
  assert (Hbin : Threaded2.bin_average (Threaded2.array (Threaded2.stream self))
                                       8 b0 b1 = inl Py.IndexError).
  { unfold Threaded2.bin_average.
    destruct (nth_error (Py.slice (Threaded2.array (Threaded2.stream self))
                                  b0 b1) 8) as [row|] eqn:Hrow;
      [|reflexivity].
    exfalso.
    assert (8 < length (Py.slice (Threaded2.array (Threaded2.stream self))
                                 b0 b1))%nat
      by (apply nth_error_Some; congruence).
    pose proof (slice_length _ (Threaded2.array (Threaded2.stream self))
                             b0 b1).
    lia. }
  unfold Threaded2.cycle, Threaded2.body, Threaded2.accept.
  cbn [Threaded2.stream Threaded2.event Threaded2.scan_number].
  change (Threaded2.Processor (Threaded2.stream self) (Threaded2.event self)
            (Threaded2.taken g) [] [] [] 8) with self2.
  rewrite Hcal.
  cbn [Threaded2.with_pixels Threaded2.with_luminosity Threaded2.stream
       Threaded2.array Threaded2.scan_column Threaded2.bin_pixels
       Threaded2.bit_pattern self2].
  unfold self2 at 1 2 3.
  cbn [Threaded2.stream Threaded2.scan_column Threaded2.bit_pattern].
  cbn [Threaded2.fill_bit_pattern]. rewrite Hbin.
  unfold Threaded2._rewind.
  cbn [Threaded2.with_pattern Threaded2.stream Threaded2.with_pixels
       Threaded2.with_luminosity self2 Py.raise].
  rewrite Hopen. cbn. repeat split.
Qed.

Lemma short_bins_raise_witness :
  snd (fst (Threaded2.cycle 30 0 0 (Schedules.signalled Frames.ten_apart)
                            Schedules.fresh))
  = Threaded2.Died Py.IndexError /\
  Threaded2.pool
    (snd (fst (fst (Threaded2.cycle 30 0 0
                      (Schedules.signalled Frames.ten_apart)
                      Schedules.fresh))))
  = [0%nat].
Proof.
  destruct (short_bins_raise 30 0 0 (Schedules.signalled Frames.ten_apart)
              Schedules.fresh
              (fst (Threaded2.fill_luminosity Frames.ten_apart 8 []))
              2 12)
    as (Hst & _ & Hpool & _).
  - reflexivity.
  - discriminate.
  - vm_compute. reflexivity.
  - vm_compute. reflexivity.
  - vm_compute. reflexivity.
  - lia.
  - split; [exact Hst | exact Hpool].
Defined.

(** ** g2scanner_threaded.py: the camera and the decoder *)

(** While the camera writes into the stream of a processor, that processor
    is not working on it: its event is clear and it is at the wait (or its
    thread has ended), and the processor is not in the pool.  No frame is
    overwritten while it is being decoded. *)
Theorem capture_never_overwrites (N K : nat) (pixels : list Z)
        (s : Threaded.state) (p : nat) :
  Threaded.reachable N K pixels s ->
  Threaded.producer s = Threaded.P_yield p ->
  (p < N)%nat /\
  ~ In p (Threaded.pool s) /\
  exists w,
    nth_error (Threaded.processors s) p = Some w /\
    Threaded.event w = false /\
    (Threaded.pc w = Threaded.W_wait \/
     exists e, Threaded.pc w = Threaded.W_dead e).
Proof.
  intros Hs Hpc.
  destruct (pool_invariant_reachable N K pixels s Hs)
    as (Hlen & Hin & Hout & _ & _).
  assert (Hp : (p < N)%nat).
  { destruct (Nat.lt_ge_cases p N) as [|Hge]; [assumption|].
    specialize (Hout p Hge).
    unfold Threaded.owners, Threaded.producer_has in Hout.
    rewrite Hpc, Nat.eqb_refl in Hout. simpl in Hout. lia. }
  specialize (Hin p Hp).
  unfold Threaded.owners, Threaded.producer_has, Threaded.worker_has in Hin.
  rewrite Hpc, Nat.eqb_refl in Hin. simpl in Hin.
  split; [exact Hp | split].
  - intros Hmem. apply (count_occ_In Nat.eq_dec) in Hmem. lia.
  - destruct (nth_error (Threaded.processors s) p) as [w|] eqn:Hn.
    + exists w. split; [reflexivity|].
      assert (Hfree : Threaded.holds w = false)
        by (destruct (Threaded.holds w); simpl in Hin; [lia | reflexivity]).
      unfold Threaded.holds in Hfree.
      apply orb_false_iff in Hfree. destruct Hfree as [Hev Hidle].
      split; [exact Hev|].
      destruct (Threaded.pc w); try discriminate Hidle.
      * left. reflexivity.
      * right. eexists. reflexivity.
    + apply nth_error_None in Hn. lia.
Qed.

Lemma capture_never_overwrites_witness :
  exists s,
    Threaded.run 3 Schedules.two_out (Threaded.init 2 []) = Some s /\
    Threaded.producer s = Threaded.P_yield 0 /\
    ~ In 0%nat (Threaded.pool s).
Proof.
  eexists. split; [vm_compute; reflexivity|].
  match goal with
  | |- Threaded.producer ?s = _ /\ _ =>
      assert (Hpc : Threaded.producer s = Threaded.P_yield 0)
        by reflexivity;
      assert (Hs : Threaded.reachable 2 3 [] s)
  end.
  { apply (run_reachable 2 3 [] Schedules.two_out (Threaded.init 2 []));
      [apply Threaded.reachable_init | vm_compute; reflexivity]. }
  split; [exact Hpc|].
  exact (proj1 (proj2 (capture_never_overwrites 2 3 [] _ 0 Hs Hpc))).
Defined.

(** ** The two readings of a layout *)

Lemma sub_int_of_nat (top bottom : nat) :
  (top <= bottom < 300)%nat ->
  (F64.int_of_nat bottom - F64.int_of_nat top)%uint63
  = F64.int_of_nat (bottom - top).
Proof.
  intros Hm. apply to_Z_inj.
  rewrite sub_spec, !to_Z_int_of_nat by lia.
  rewrite Z.mod_small by (rewrite wB_value; lia). lia.
Qed.

Lemma exact_spec (T D k : nat) :
  (T + D < 300)%nat -> (k <= 21)%nat ->
  Uint63.to_Z (Layout.exact (F64.int_of_nat T) (F64.int_of_nat D)
                            (F64.int_of_nat k))
  = Z.of_nat T + (Z.of_nat k * Z.of_nat D + 10) / 20.
Proof.
  intros HT Hk. unfold Layout.exact.
  assert (Hq : 0 <= (Z.of_nat k * Z.of_nat D + 10) / 20 < 400).
  { split; [apply Z.div_pos; nia|].
    apply Z.div_lt_upper_bound; nia. }
  rewrite add_spec, div_spec, add_spec, mul_spec.
  rewrite !to_Z_int_of_nat by lia.
  change (Uint63.to_Z 10) with 10. change (Uint63.to_Z 20) with 20.
  rewrite (Z.mod_small (Z.of_nat k * Z.of_nat D))
    by (rewrite wB_value; nia).
  rewrite (Z.mod_small (Z.of_nat k * Z.of_nat D + 10))
    by (rewrite wB_value; nia).
  apply Z.mod_small. rewrite wB_value. lia.
Qed.

Lemma tie_spec (D k : nat) :
  (D < 300)%nat -> (k <= 21)%nat ->
  Uint63.to_Z ((F64.int_of_nat k * F64.int_of_nat D) mod 20)%uint63
  = (Z.of_nat k * Z.of_nat D) mod 20.
Proof.
  intros HD Hk. rewrite mod_spec, mul_spec, !to_Z_int_of_nat by lia.
  change (Uint63.to_Z 20) with 20.
  rewrite (Z.mod_small (Z.of_nat k * Z.of_nat D))
    by (rewrite wB_value; nia).
  reflexivity.
Qed.

Lemma close_to_exact_spec (T D : nat) (px : list int) :
  (T + D < 300)%nat ->
  forall k,
    (k + length px <= 21)%nat ->
    Layout.close_to_exact (F64.int_of_nat T) (F64.int_of_nat D)
                          (F64.int_of_nat k) px = true ->
    forall j, (j < length px)%nat ->
      Uint63.to_Z (nth j px 0%uint63)
      = Z.of_nat T + (Z.of_nat (k + j) * Z.of_nat D + 10) / 20 \/
      (Uint63.to_Z (nth j px 0%uint63) + 1
       = Z.of_nat T + (Z.of_nat (k + j) * Z.of_nat D + 10) / 20 /\
       (Z.of_nat (k + j) * Z.of_nat D) mod 20 = 10).
Proof.
  intros HT. induction px as [|x rest IH]; intros k Hk H j Hj;
    [simpl in Hj; lia|].
  cbn [Layout.close_to_exact] in H. simpl in Hk.
  apply andb_prop in H. destruct H as [Hx Hrest].
  destruct j as [|j].
  - rewrite Nat.add_0_r. cbn [nth].
    rewrite <- (exact_spec T D k) by lia.
    apply orb_prop in Hx. destruct Hx as [Heq|Hnear].
    + left. apply eqb_spec in Heq. rewrite Heq. reflexivity.
    + right. apply andb_prop in Hnear. destruct Hnear as [Hnear Htie].
      apply andb_prop in Hnear. destruct Hnear as [Hlt Hle].
      apply ltb_spec in Hlt. apply leb_spec in Hle.
      apply eqb_spec in Htie. apply (f_equal Uint63.to_Z) in Htie.
      rewrite tie_spec in Htie by lia.
      change (Uint63.to_Z 10) with 10 in Htie.
      split; [|exact Htie].
      rewrite add_spec in Hle. change (Uint63.to_Z 1) with 1 in Hle.
      pose proof (exact_spec T D k HT ltac:(lia)) as He.
      assert (Hq : 0 <= (Z.of_nat k * Z.of_nat D + 10) / 20 < 400).
      { split; [apply Z.div_pos; nia|].
        apply Z.div_lt_upper_bound; nia. }
      pose proof (to_Z_bounded x) as Hbx.
      rewrite Z.mod_small in Hle by (rewrite wB_value; lia). lia.
  - rewrite <- int_of_nat_succ in Hrest.
    replace (k + S j)%nat with (S k + j)%nat by lia.
    cbn [nth]. apply (IH (S k)); [lia | exact Hrest | simpl in Hj; lia].
Qed.

Lemma close_to_exact_layout (top bottom : nat) (px : list int) :
  (top <= bottom < 300)%nat ->
  length px = 21%nat ->
  Layout.close_to_exact (F64.int_of_nat top)
                        (F64.int_of_nat bottom - F64.int_of_nat top)%uint63
                        0%uint63 px = true ->
  forall i, (i <= 20)%nat ->
    nth i (map Uint63.to_Z px) 0 = nth i (Scanner.bin_pixels top bottom) 0 \/
    (nth i (map Uint63.to_Z px) 0 + 1
     = nth i (Scanner.bin_pixels top bottom) 0 /\
     (Z.of_nat i * (Z.of_nat bottom - Z.of_nat top)) mod 20 = 10).
Proof.
  intros Hm Hlen H i Hi.
  rewrite sub_int_of_nat in H by exact Hm.
  pose proof (close_to_exact_spec top (bottom - top) px ltac:(lia) 0
                ltac:(lia) H i ltac:(lia)) as Hc.
  rewrite Nat.add_0_l in Hc.
  rewrite nth_to_Z, bin_pixels_nth by lia.
  replace (Z.of_nat bottom - Z.of_nat top) with (Z.of_nat (bottom - top))
    by lia.
  exact Hc.
Qed.

(** How far the doubles are from exact arithmetic, for the two marker rows
    of a frame of at most 300 rows.  A boundary that g2scanner.py computes
    in doubles is the boundary of the exact partition, the one [analyse] is
    embedded with, or the row just below it, and that only where the exact
    sample lies halfway between two rows.  The same holds of the
    boundaries of g2scanner_threaded2.py and the exact partition that
    [_calibrate] is embedded with. *)
Theorem layouts_close_to_exact (dark : nat -> bool) (ROWS top bottom : nat) :
  (ROWS <= 300)%nat ->
  Py.first_up dark 0 ROWS = Some top ->
  Py.first_down dark ROWS = Some bottom ->
  (forall i, (i <= 20)%nat ->
     nth i (Scanner.bin_pixels64 top bottom) 0
     = nth i (Scanner.bin_pixels top bottom) 0 \/
     (nth i (Scanner.bin_pixels64 top bottom) 0 + 1
      = nth i (Scanner.bin_pixels top bottom) 0 /\
      (Z.of_nat i * (Z.of_nat bottom - Z.of_nat top)) mod 20 = 10)) /\
  ((top < bottom)%nat ->
   exists px,
     Threaded2.bin_pixels64 top bottom = inr px /\
     forall i, (i <= 20)%nat ->
       nth i px 0 = nth i (Scanner.bin_pixels top bottom) 0 \/
       (nth i px 0 + 1 = nth i (Scanner.bin_pixels top bottom) 0 /\
        (Z.of_nat i * (Z.of_nat bottom - Z.of_nat top)) mod 20 = 10)).
Proof.
  intros HR Ht Hb.
  pose proof (markers_ordered dark ROWS top bottom Ht Hb) as Hm.
  split.
  - pose proof (all_markers_spec _ top bottom scanner_layouts ltac:(lia))
      as H.
    unfold Layout.scanner_ok in H. apply andb_prop in H.
    destruct H as [H Hclose]. apply andb_prop in H.
    destruct H as [Hlen _]. apply Nat.eqb_eq in Hlen.
    unfold Scanner.bin_pixels64.
    apply close_to_exact_layout; [lia | exact Hlen | exact Hclose].
  - intros Hlt.
    pose proof (all_markers_spec _ top bottom threaded2_layouts ltac:(lia))
      as H.
    unfold Layout.threaded2_ok in H. unfold Threaded2.bin_pixels64.
    destruct (Threaded2.boundaries64 (F64.int_of_nat top)
                                     (F64.int_of_nat bottom)) as [e|px].
    + exfalso.
      assert (Heq : (F64.int_of_nat top =? F64.int_of_nat bottom)%uint63
                    = true) by (destruct e; try discriminate H; exact H).
      pose proof (same_marker top bottom ltac:(lia) Heq). lia.
    + apply andb_prop in H. destruct H as [H Hclose].
      apply andb_prop in H. destruct H as [H Hlen].
      apply Nat.eqb_eq in Hlen.
      exists (map Uint63.to_Z px). split; [reflexivity|].
      apply close_to_exact_layout; [lia | exact Hlen | exact Hclose].
Qed.

Lemma layouts_close_to_exact_witness :
  Py.first_up (fun i => (i =? 0)%nat || (i =? 82)%nat) 0 300 = Some 0%nat /\
  Py.first_down (fun i => (i =? 0)%nat || (i =? 82)%nat) 300
  = Some 82%nat /\
  nth 15 (Scanner.bin_pixels64 0 82) 0 = 61 /\
  nth 15 (Scanner.bin_pixels 0 82) 0 = 62 /\
  (nth 15 (Scanner.bin_pixels64 0 82) 0 = nth 15 (Scanner.bin_pixels 0 82) 0
   \/ (nth 15 (Scanner.bin_pixels64 0 82) 0 + 1
       = nth 15 (Scanner.bin_pixels 0 82) 0 /\
       (Z.of_nat 15 * (Z.of_nat 82 - Z.of_nat 0)) mod 20 = 10)).
Proof.
  assert (Ht : Py.first_up (fun i => (i =? 0)%nat || (i =? 82)%nat) 0 300
               = Some 0%nat) by (vm_compute; reflexivity).
  assert (Hb : Py.first_down (fun i => (i =? 0)%nat || (i =? 82)%nat) 300
               = Some 82%nat) by (vm_compute; reflexivity).
  split; [exact Ht | split; [exact Hb|]].
  split; [vm_compute; reflexivity | split; [vm_compute; reflexivity|]].
  exact (proj1 (layouts_close_to_exact _ 300 0 82 (le_n 300) Ht Hb)
               15%nat ltac:(lia)).
Defined.
